(** * Frame renderer: project state, editor overlay, file tree and tasks panel

    A shallow embedding of the renderer modules
    [src/renderer/state.js] and the three modules found in
    [src/renderer/editor.js] (the file editor, the file tree UI and the
    tasks panel), together with the properties the specification states
    about them.

    Every module keeps its variables in module-level [let] bindings and
    talks to the outside through [ipcRenderer.send], DOM calls and hooks
    installed on [window].  The embedding keeps the module variables in
    one record per module, gathers the records in a [World], and runs
    every function in a small state-and-log monad: the log lists, in
    order, the calls that leave the modelled modules.

    What stands outside the modules is modelled as follows.
    - Registered listeners are closures of other modules: a listener is
      the value passed at registration, and calling it is a log entry
      with its arguments.
    - [confirm] is a log entry; the user's answer is an argument of the
      function that may ask.
    - The textarea returns the value last stored in it, and the file
      tree is the tree of [file-wrapper] elements with the [display]
      flag of each [folder-children] container.  An element is known by
      its allocation number.
    - Styling and markup ([updateProjectUI], [updateFrameUI] with its
      spotlight, the [focused] class, [render]) are one log entry each,
      or left out when nothing reads them back.
    - Each test [typeof window.f === 'function'] is a flag per hook in
      [Window]. *)

From Stdlib Require Import Ascii String ZArith Lia.
From stdpp Require Import base list strings option.
From stdpp Require pretty.

Set Warnings "-register-all".

Open Scope string_scope.
Open Scope nat_scope.
Open Scope list_scope.

(** ** JavaScript values used by the modules *)

Module JS.

(** A value that is either [null] or a string ([None] is [null]). *)
Definition Value := option string.

(** [if (v)]: [null] and the empty string are falsy. *)
Definition truthy (v : Value) : bool :=
  match v with
  | Some s => negb (String.eqb s "")
  | None => false
  end.

(** [if (s)] for a string. *)
Definition truthyStr (s : string) : bool := negb (String.eqb s "").

(** [a === b] on such values. *)
Definition strictEq (a b : Value) : bool := bool_decide (a = b).

(** White space removed by [String.prototype.trim], on 8-bit code units:
    TAB, LF, VT, FF, CR, SPACE and NBSP. *)
Definition isWhiteSpace (c : ascii) : bool :=
  let n := nat_of_ascii c in
  ((9 <=? n) && (n <=? 13)) || (n =? 32) || (n =? 160).

Fixpoint trimStart (s : string) : string :=
  match s with
  | String c s' => if isWhiteSpace c then trimStart s' else s
  | EmptyString => EmptyString
  end.

(** [trimEnd] drops a character when it is white space and everything
    after it has been dropped. *)
Fixpoint trimEnd (s : string) : string :=
  match s with
  | String c s' =>
      match trimEnd s' with
      | EmptyString => if isWhiteSpace c then EmptyString else String c EmptyString
      | r => String c r
      end
  | EmptyString => EmptyString
  end.

Definition trim (s : string) : string := trimEnd (trimStart s).

(** [s.substring(0, n)]: the first [n] code units (all of [s] when it is
    shorter). *)
Fixpoint substringTo (n : nat) (s : string) : string :=
  match n, s with
  | S n', String c s' => String c (substringTo n' s')
  | _, _ => EmptyString
  end.

(** [s.substring(n)]: [s] without its first [n] code units. *)
Fixpoint substringFrom (n : nat) (s : string) : string :=
  match n, s with
  | S n', String _ s' => substringFrom n' s'
  | _, _ => s
  end.

(** [s.split(sep)] for a separator of one character: the pieces between
    the separators, the empty ones included. *)
Fixpoint split (sep : ascii) (s : string) : list string :=
  match s with
  | EmptyString => [EmptyString]
  | String c s' =>
      if Ascii.eqb c sep then EmptyString :: split sep s'
      else
        match split sep s' with
        | piece :: pieces => String c piece :: pieces
        | [] => [String c EmptyString]
        end
  end.

(** The value a textarea returns for [el.value]: the value set, with
    every CR LF pair and every CR left over replaced by LF. *)
Fixpoint normalizeNewlines (s : string) : string :=
  match s with
  | EmptyString => EmptyString
  | String c s' =>
      if Ascii.eqb c "013" then
        String "010"
          match s' with
          | String c' s'' =>
              if Ascii.eqb c' "010" then normalizeNewlines s'' else normalizeNewlines s'
          | EmptyString => EmptyString
          end
      else String c (normalizeNewlines s')
  end.

(** [pieces.pop()] as a value: the last piece, [undefined] (here the
    empty string) for the empty array. *)
Definition pop (pieces : list string) : string := List.last pieces EmptyString.

End JS.

(** ** Data exchanged with the main process *)

(** A task as stored in [tasks.json]. *)
Module Task.
Record t := mk {
  id : string;
  title : string;
  description : JS.Value;
  priority : JS.Value;
  category : JS.Value;
  status : string;
  createdAt : JS.Value
}.

(** [{ ...t, status: s }] *)
Definition withStatus (s : string) (x : t) : t :=
  {| id := id x; title := title x; description := description x;
     priority := priority x; category := category x; status := s;
     createdAt := createdAt x |}.
End Task.

(** The [tasks] member of a tasks file. *)
Record TaskLists := mkTaskLists {
  pending : list Task.t;
  inProgress : list Task.t;
  completed : list Task.t
}.

(** The object pushed on [TASKS_DATA]; its [tasks] member may be absent. *)
Record TasksFile := mkTasksFile { tasks : option TaskLists }.

(** The fields read from the task form. *)
Record TaskData := mkTaskData {
  td_title : string;
  td_description : string;
  td_priority : string;
  td_category : string
}.

(** The [updates] member of an [UPDATE_TASK] request. *)
Inductive TaskUpdates :=
| StatusUpdate (status : string)
| FieldsUpdate (fields : TaskData).

(** A node of the file tree sent on [FILE_TREE_DATA]; an absent
    [children] member is the empty list (the renderer only tests
    [file.children && file.children.length > 0]). *)
Inductive FileEntry :=
| mkFileEntry (name path : string) (isDirectory : bool) (children : list FileEntry).

(** Messages passed to [ipcRenderer.send], one constructor per channel
    with the payload the source builds. *)
Inductive Message :=
| CHECK_IS_FRAME_PROJECT (path : JS.Value)
| INITIALIZE_FRAME_PROJECT (projectPath : JS.Value) (projectName : string)
| SELECT_PROJECT_FOLDER
| CREATE_NEW_PROJECT
| READ_FILE (filePath : string)
| WRITE_FILE (filePath : JS.Value) (content : string)
| LOAD_FILE_TREE (path : JS.Value)
| LOAD_TASKS (projectPath : JS.Value)
| ADD_TASK (projectPath : JS.Value) (task : TaskData)
| UPDATE_TASK (projectPath : JS.Value) (taskId : string) (updates : TaskUpdates)
| DELETE_TASK (projectPath : JS.Value) (taskId : string).

(** A registered listener.  Listeners are closures of other modules; they
    are identified by the value handed to the registration function and
    an invocation is logged with its arguments. *)
Definition Callback := nat.

(** A DOM element of class [file-item], identified by its allocation
    number ([document.createElement] returns a fresh object). *)
Definition Element := nat.

(** Calls that leave the modelled modules, logged in program order. *)
Inductive Event :=
| Send (m : Message)
| SetCurrentProject (path : JS.Value)
| UpdateProjectUI (path : JS.Value)
| UpdateFrameUI (showInitializeButton : bool)
| ProjectChange (cb : Callback) (path previousPath : JS.Value)
| FrameStatusChange (cb : Callback) (isFrame : bool)
| FrameInitialized (cb : Callback) (projectPath : JS.Value)
| Confirm (message : string)
| Alert (message : string)
| ConsoleError (message : string)
| TerminalFocus
| TerminalSendCommand (text : string)
| FileTreeRefresh
| FileClick (path source : string)
| ElementFocus (e : Element)
| TextareaFocus
| RenderTasks (shown : list Task.t)
| Toast (message kind : string)
| HideTaskModal.

(** ** Module variables *)

(** [src/renderer/state.js] *)
Record StateVars := mkStateVars {
  currentProjectPath : JS.Value;
  isCurrentProjectFrame : bool;
  onProjectChangeCallbacks : list Callback;
  onFrameStatusChangeCallbacks : list Callback;
  onFrameInitializedCallbacks : list Callback;
  (** whether [setMultiTerminalUI] has stored an instance *)
  multiTerminalUI : bool;
  (** whether the [btn-initialize-frame] element was found *)
  initializeFrameBtn : bool
}.

(** The file editor module.  [textarea] is [editorTextarea.value];
    [editorStatus] is the text and class of the [editor-status] element,
    [None] when the element was not found. *)
Record EditorVars := mkEditorVars {
  currentEditingFile : JS.Value;
  originalContent : string;
  isModified : bool;
  openedFromSource : JS.Value;
  onFileTreeRefreshCallback : bool;
  textarea : string;
  selectionStart : nat;
  selectionEnd : nat;
  overlayVisible : bool;
  editorStatus : option (string * string)
}.

(** A [div.file-item]: its identity, whether it carries the class
    [folder], and [dataset.path]. *)
Record FileItem := mkFileItem {
  element : Element;
  folder : bool;
  dataPath : string
}.

(** A [div.file-wrapper]: the item and, for a directory with children,
    the [div.folder-children] container with its wrappers; the flag is
    [style.display === 'none']. *)
Inductive Wrapper :=
| mkWrapper (item : FileItem) (folderChildren : option (bool * list Wrapper)).

(** The file tree module.  [fileTreeElement] is [None] when the element
    was not found; [allocated] counts the elements created so far. *)
Record FileTreeVars := mkFileTreeVars {
  fileTreeElement : option (list Wrapper);
  focusedItem : option FileItem;
  onFileClickCallback : bool;
  keyboardSetup : bool;
  allocated : nat
}.

(** The tasks panel module. *)
Record TasksVars := mkTasksVars {
  isVisible : bool;
  currentFilter : string;
  tasksData : option TasksFile;
  panelElement : bool;
  contentElement : bool
}.

(** Hooks other modules install on [window]; a flag says whether
    [typeof window.f === 'function']. *)
Record Window := mkWindow {
  fileTreeFocus : bool;
  terminalFocus : bool;
  terminalSendCommand : bool
}.

Record World := mkWorld {
  st : StateVars;
  ed : EditorVars;
  ft : FileTreeVars;
  tp : TasksVars;
  window : Window
}.

(** ** The monad: a state transformer over [World] with an event log *)

Definition M (A : Type) : Type := World → A * World * list Event.

#[global] Instance M_ret : MRet M := λ A x w, (x, w, []).
#[global] Instance M_bind : MBind M := λ A B f m w,
  let '(x, w1, l1) := m w in
  let '(y, w2, l2) := f x w1 in
  (y, w2, l1 ++ l2).

Definition emit (e : Event) : M unit := λ w, (tt, w, [e]).
Definition gets {A} (f : World → A) : M A := λ w, (f w, w, []).
Definition modify (f : World → World) : M unit := λ w, (tt, f w, []).
Definition skip : M unit := mret tt.

(** [if (c) body] *)
Definition when (c : bool) (body : M unit) : M unit := if c then body else skip.

(** [xs.forEach(f)] *)
Fixpoint forEach {A} (xs : list A) (f : A → M unit) : M unit :=
  match xs with
  | [] => skip
  | x :: xs' => f x ;; forEach xs' f
  end.

(** The world after a run, and its log. *)
Definition exec {A} (m : M A) (w : World) : World := (m w).1.2.
Definition logOf {A} (m : M A) (w : World) : list Event := (m w).2.

(** Assignments to module variables. *)
Definition setSt (f : StateVars → StateVars) : M unit :=
  modify (λ w, mkWorld (f (st w)) (ed w) (ft w) (tp w) (window w)).
Definition setEd (f : EditorVars → EditorVars) : M unit :=
  modify (λ w, mkWorld (st w) (f (ed w)) (ft w) (tp w) (window w)).
Definition setFt (f : FileTreeVars → FileTreeVars) : M unit :=
  modify (λ w, mkWorld (st w) (ed w) (f (ft w)) (tp w) (window w)).
Definition setTp (f : TasksVars → TasksVars) : M unit :=
  modify (λ w, mkWorld (st w) (ed w) (ft w) (f (tp w)) (window w)).

(** ** [src/renderer/state.js] *)

Module StateJs.

Definition set_currentProjectPath (p : JS.Value) : M unit :=
  setSt (λ s, mkStateVars p (isCurrentProjectFrame s) (onProjectChangeCallbacks s)
                (onFrameStatusChangeCallbacks s) (onFrameInitializedCallbacks s)
                (multiTerminalUI s) (initializeFrameBtn s)).
Definition set_isCurrentProjectFrame (b : bool) : M unit :=
  setSt (λ s, mkStateVars (currentProjectPath s) b (onProjectChangeCallbacks s)
                (onFrameStatusChangeCallbacks s) (onFrameInitializedCallbacks s)
                (multiTerminalUI s) (initializeFrameBtn s)).

Definition getProjectPath : M JS.Value := gets (λ w, currentProjectPath (st w)).

Definition setMultiTerminalUI (ui : bool) : M unit :=
  setSt (λ s, mkStateVars (currentProjectPath s) (isCurrentProjectFrame s)
                (onProjectChangeCallbacks s) (onFrameStatusChangeCallbacks s)
                (onFrameInitializedCallbacks s) ui (initializeFrameBtn s)).

(** Writes the path label, the start button and the explorer header. *)
Definition updateProjectUI : M unit :=
  p ← getProjectPath; emit (UpdateProjectUI p).

(** Shows the initialize button only for a project that is not a Frame
    project. *)
Definition updateFrameUI : M unit :=
  btn ← gets (λ w, initializeFrameBtn (st w));
  when btn (
    p ← getProjectPath;
    isFrame ← gets (λ w, isCurrentProjectFrame (st w));
    emit (UpdateFrameUI (JS.truthy p && negb isFrame))).

Definition setIsFrameProject (isFrame : bool) : M unit :=
  set_isCurrentProjectFrame isFrame ;;
  updateFrameUI ;;
  cbs ← gets (λ w, onFrameStatusChangeCallbacks (st w));
  forEach cbs (λ cb, emit (FrameStatusChange cb isFrame)).

Definition setProjectPath (path : JS.Value) : M unit :=
  previousPath ← gets (λ w, currentProjectPath (st w));
  set_currentProjectPath path ;;
  updateProjectUI ;;
  ui ← gets (λ w, multiTerminalUI (st w));
  when ui (emit (SetCurrentProject path)) ;;
  (if JS.truthy path
   then emit (Send (CHECK_IS_FRAME_PROJECT path))
   else setIsFrameProject false) ;;
  cbs ← gets (λ w, onProjectChangeCallbacks (st w));
  forEach cbs (λ cb, emit (ProjectChange cb path previousPath)).

Definition onProjectChange (callback : Callback) : M unit :=
  setSt (λ s, mkStateVars (currentProjectPath s) (isCurrentProjectFrame s)
                (onProjectChangeCallbacks s ++ [callback])
                (onFrameStatusChangeCallbacks s) (onFrameInitializedCallbacks s)
                (multiTerminalUI s) (initializeFrameBtn s)).

Definition getIsFrameProject : M bool := gets (λ w, isCurrentProjectFrame (st w)).

Definition onFrameStatusChange (callback : Callback) : M unit :=
  setSt (λ s, mkStateVars (currentProjectPath s) (isCurrentProjectFrame s)
                (onProjectChangeCallbacks s)
                (onFrameStatusChangeCallbacks s ++ [callback])
                (onFrameInitializedCallbacks s)
                (multiTerminalUI s) (initializeFrameBtn s)).

Definition onFrameInitialized (callback : Callback) : M unit :=
  setSt (λ s, mkStateVars (currentProjectPath s) (isCurrentProjectFrame s)
                (onProjectChangeCallbacks s) (onFrameStatusChangeCallbacks s)
                (onFrameInitializedCallbacks s ++ [callback])
                (multiTerminalUI s) (initializeFrameBtn s)).

(** The listeners installed by [setupIPC]. *)

Definition on_PROJECT_SELECTED (projectPath : JS.Value) : M unit :=
  setProjectPath projectPath.

Definition on_IS_FRAME_PROJECT_RESULT (projectPath : JS.Value) (isFrame : bool) : M unit :=
  cur ← gets (λ w, currentProjectPath (st w));
  when (JS.strictEq projectPath cur) (setIsFrameProject isFrame).

Definition on_FRAME_PROJECT_INITIALIZED (projectPath : JS.Value) (success : bool) : M unit :=
  cur ← gets (λ w, currentProjectPath (st w));
  when (success && JS.strictEq projectPath cur) (
    setIsFrameProject true ;;
    cbs ← gets (λ w, onFrameInitializedCallbacks (st w));
    forEach cbs (λ cb, emit (FrameInitialized cb projectPath))).

(** The name [handleInitializeFrame] derives from the project path:
    [path.split('/').pop() || path.split('\\').pop()]. *)
Definition projectNameOf (path : string) : string :=
  let name := JS.pop (JS.split "/"%char path) in
  if JS.truthyStr name then name else JS.pop (JS.split "\"%char path).

(** [handleInitializeFrame], after the modal is hidden. *)
Definition handleInitializeFrame : M unit :=
  p ← getProjectPath;
  match p with
  | Some path =>
      when (JS.truthy p) (emit (Send (INITIALIZE_FRAME_PROJECT p (projectNameOf path))))
  | None => skip
  end.

Definition selectProjectFolder : M unit := emit (Send SELECT_PROJECT_FOLDER).
Definition createNewProject : M unit := emit (Send CREATE_NEW_PROJECT).

End StateJs.

(** ** The file tree UI module (second module of [src/renderer/editor.js]) *)

Module FileTreeJs.

Definition set_fileTreeElement (t : option (list Wrapper)) : M unit :=
  setFt (λ s, mkFileTreeVars t (focusedItem s) (onFileClickCallback s)
                (keyboardSetup s) (allocated s)).
Definition set_focusedItem (i : option FileItem) : M unit :=
  setFt (λ s, mkFileTreeVars (fileTreeElement s) i (onFileClickCallback s)
                (keyboardSetup s) (allocated s)).
Definition set_keyboardSetup (b : bool) : M unit :=
  setFt (λ s, mkFileTreeVars (fileTreeElement s) (focusedItem s)
                (onFileClickCallback s) b (allocated s)).
Definition set_allocated (n : nat) : M unit :=
  setFt (λ s, mkFileTreeVars (fileTreeElement s) (focusedItem s)
                (onFileClickCallback s) (keyboardSetup s) n).

Definition setOnFileClick (callback : bool) : M unit :=
  setFt (λ s, mkFileTreeVars (fileTreeElement s) (focusedItem s) callback
                (keyboardSetup s) (allocated s)).

(** [renderFileTree]: one wrapper per file, in order; a directory with
    at least one child gets a container that starts collapsed.  The
    second component is the number of elements allocated afterwards. *)
Fixpoint renderFile (file : FileEntry) (next : nat) : Wrapper * nat :=
  match file with
  | mkFileEntry name path isDirectory children =>
      let fileItem := mkFileItem next isDirectory path in
      match isDirectory, children with
      | true, _ :: _ =>
          let '(ws, next') :=
            (fix renderAll (files : list FileEntry) (n : nat) : list Wrapper * nat :=
               match files with
               | [] => ([], n)
               | f :: files' =>
                   let '(w, n1) := renderFile f n in
                   let '(ws, n2) := renderAll files' n1 in
                   (w :: ws, n2)
               end) children (S next) in
          (mkWrapper fileItem (Some (true, ws)), next')
      | _, _ => (mkWrapper fileItem None, S next)
      end
  end.

Fixpoint renderFileTree (files : list FileEntry) (next : nat) : list Wrapper * nat :=
  match files with
  | [] => ([], next)
  | f :: files' =>
      let '(w, n1) := renderFile f next in
      let '(ws, n2) := renderFileTree files' n1 in
      (w :: ws, n2)
  end.

Definition clearFileTree : M unit :=
  fte ← gets (λ w, fileTreeElement (ft w));
  when (bool_decide (is_Some fte)) (set_fileTreeElement (Some [])).

(** The [FILE_TREE_DATA] listener: the tree is emptied and rendered
    anew, so every element of the old tree is detached. *)
Definition on_FILE_TREE_DATA (files : list FileEntry) : M unit :=
  clearFileTree ;;
  fte ← gets (λ w, fileTreeElement (ft w));
  when (bool_decide (is_Some fte)) (
    n ← gets (λ w, allocated (ft w));
    let '(ws, n') := renderFileTree files n in
    set_fileTreeElement (Some ws) ;; set_allocated n').

(** [querySelectorAll('.file-item')]: the items in document order, each
    with the [display === 'none'] flags of the [folder-children]
    containers above it, innermost first (the chain that the
    [parentElement] loop of [getVisibleItems] walks). *)
Fixpoint itemsOf (above : list bool) (w : Wrapper) : list (FileItem * list bool) :=
  match w with
  | mkWrapper it kids =>
      (it, above) ::
      match kids with
      | Some (d, ws) => flat_map (itemsOf (d :: above)) ws
      | None => []
      end
  end.

Definition allItems (tree : list Wrapper) : list (FileItem * list bool) :=
  flat_map (itemsOf []) tree.

(** The filter of [getVisibleItems]: no container above is hidden. *)
Definition visibleItems (tree : list Wrapper) : list FileItem :=
  map fst (filter (λ p, forallb negb p.2 = true) (allItems tree)).

Definition getVisibleItems : M (list FileItem) :=
  fte ← gets (λ w, fileTreeElement (ft w));
  match fte with
  | None => mret []
  | Some tree => mret (visibleItems tree)
  end.

(** [fileTreeElement.contains(item)] *)
Definition contains (tree : list Wrapper) (it : FileItem) : bool :=
  existsb (λ p, element p.1 =? element it) (allItems tree).

(** [items.indexOf(item)], [-1] when absent or when [item] is [null]. *)
Fixpoint indexOfFrom (i : Z) (items : list FileItem) (e : Element) : Z :=
  match items with
  | [] => (-1)%Z
  | x :: items' => if element x =? e then i else indexOfFrom (i + 1)%Z items' e
  end.

Definition indexOf (items : list FileItem) (it : option FileItem) : Z :=
  match it with
  | Some x => indexOfFrom 0%Z items (element x)
  | None => (-1)%Z
  end.

(** [items[i]] for a signed index; [None] is [undefined]. *)
Definition at_ (items : list FileItem) (i : Z) : option FileItem :=
  if (i <? 0)%Z then None else items !! Z.to_nat i.

(** Changes [style.display] of the container that belongs to the item
    [e] (the [folder-children] child of its wrapper), if there is one. *)
Fixpoint setDisplay (f : bool → bool) (e : Element) (w : Wrapper) : Wrapper :=
  match w with
  | mkWrapper it kids =>
      mkWrapper it
        match kids with
        | Some (d, ws) => Some (if element it =? e then f d else d, map (setDisplay f e) ws)
        | None => None
        end
  end.

Definition updateDisplay (f : bool → bool) (it : FileItem) : M unit :=
  fte ← gets (λ w, fileTreeElement (ft w));
  match fte with
  | Some tree => set_fileTreeElement (Some (map (setDisplay f (element it)) tree))
  | None => skip
  end.

(** The click listeners installed by [renderFileTree]: a directory
    toggles its container, a file reports itself to the callback. *)
Definition click (it : FileItem) : M unit :=
  if folder it then updateDisplay negb it
  else
    cb ← gets (λ w, onFileClickCallback (ft w));
    when cb (emit (FileClick (dataPath it) "fileTree")).

Definition focus : M unit :=
  fte ← gets (λ w, fileTreeElement (ft w));
  match fte with
  | None => skip
  | Some tree =>
      items ← getVisibleItems;
      match items with
      | [] => skip
      | first :: _ =>
          fi ← gets (λ w, focusedItem (ft w));
          let targetItem :=
            match fi with
            | Some x => if contains tree x then x else first
            | None => first
            end in
          emit (ElementFocus (element targetItem)) ;;
          set_focusedItem (Some targetItem) ;;
          set_keyboardSetup true
      end
  end.

Definition focusElement (it : option FileItem) : M unit :=
  match it with
  | Some x => emit (ElementFocus (element x))
  | None => skip
  end.

Definition isFolder (it : option FileItem) : bool :=
  match it with Some x => folder x | None => false end.

Definition handleKeydown (key : string) : M unit :=
  items ← getVisibleItems;
  fi ← gets (λ w, focusedItem (ft w));
  let currentIndex := indexOf items fi in
  let len := Z.of_nat (length items) in
  when (String.eqb key "ArrowDown" || String.eqb key "ArrowUp") (
    let newIndex :=
      if String.eqb key "ArrowDown"
      then (if (currentIndex <? len - 1)%Z then (currentIndex + 1)%Z else 0%Z)
      else (if (currentIndex >? 0)%Z then (currentIndex - 1)%Z else (len - 1)%Z) in
    set_focusedItem (at_ items newIndex) ;;
    focusElement (at_ items newIndex)) ;;
  fi ← gets (λ w, focusedItem (ft w));
  when (String.eqb key "ArrowRight" && isFolder fi) (
    match fi with Some x => updateDisplay (λ _, false) x | None => skip end) ;;
  when (String.eqb key "ArrowLeft" && isFolder fi) (
    match fi with Some x => updateDisplay (λ _, true) x | None => skip end) ;;
  when (String.eqb key "Enter") (
    match fi with Some x => click x | None => skip end) ;;
  when (String.eqb key "Escape") (
    tf ← gets (λ w, terminalFocus (window w));
    when tf (emit TerminalFocus)).

Definition blur : M unit := set_focusedItem None.

End FileTreeJs.

(** ** The file editor module (first module of [src/renderer/editor.js]) *)

(** The result delivered on [FILE_CONTENT]. *)
Inductive ReadResult :=
| ReadOk (filePath content fileName extension : string)
| ReadFailed (error : string).

(** The result delivered on [FILE_SAVED]. *)
Inductive SaveResult :=
| SaveOk
| SaveFailed (error : string).

Module EditorJs.

Definition set_currentEditingFile (v : JS.Value) : M unit :=
  setEd (λ s, mkEditorVars v (originalContent s) (isModified s) (openedFromSource s)
                (onFileTreeRefreshCallback s) (textarea s) (selectionStart s)
                (selectionEnd s) (overlayVisible s) (editorStatus s)).
Definition set_originalContent (v : string) : M unit :=
  setEd (λ s, mkEditorVars (currentEditingFile s) v (isModified s) (openedFromSource s)
                (onFileTreeRefreshCallback s) (textarea s) (selectionStart s)
                (selectionEnd s) (overlayVisible s) (editorStatus s)).
Definition set_isModified (v : bool) : M unit :=
  setEd (λ s, mkEditorVars (currentEditingFile s) (originalContent s) v (openedFromSource s)
                (onFileTreeRefreshCallback s) (textarea s) (selectionStart s)
                (selectionEnd s) (overlayVisible s) (editorStatus s)).
Definition set_openedFromSource (v : JS.Value) : M unit :=
  setEd (λ s, mkEditorVars (currentEditingFile s) (originalContent s) (isModified s) v
                (onFileTreeRefreshCallback s) (textarea s) (selectionStart s)
                (selectionEnd s) (overlayVisible s) (editorStatus s)).
Definition set_textarea (v : string) (selStart selEnd : nat) : M unit :=
  setEd (λ s, mkEditorVars (currentEditingFile s) (originalContent s) (isModified s)
                (openedFromSource s) (onFileTreeRefreshCallback s) v selStart selEnd
                (overlayVisible s) (editorStatus s)).
Definition set_overlayVisible (v : bool) : M unit :=
  setEd (λ s, mkEditorVars (currentEditingFile s) (originalContent s) (isModified s)
                (openedFromSource s) (onFileTreeRefreshCallback s) (textarea s)
                (selectionStart s) (selectionEnd s) v (editorStatus s)).
Definition set_editorStatus (v : option (string * string)) : M unit :=
  setEd (λ s, mkEditorVars (currentEditingFile s) (originalContent s) (isModified s)
                (openedFromSource s) (onFileTreeRefreshCallback s) (textarea s)
                (selectionStart s) (selectionEnd s) (overlayVisible s) v).

(** [confirm(message)]: the dialog is logged and returns the user's
    answer. *)
Definition confirm (message : string) (answer : bool) : M bool :=
  emit (Confirm message) ;; mret answer.

(** [openFile(filePath, source = 'terminal')]; [None] is an omitted
    second argument. *)
Definition openFile (filePath : string) (source : option string) : M unit :=
  set_openedFromSource (Some (default "terminal" source)) ;;
  emit (Send (READ_FILE filePath)).

(** [closeEditor]; [answer] is what the user replies if the
    confirmation dialog is shown. *)
Definition closeEditor (answer : bool) : M unit :=
  modified ← gets (λ w, isModified (ed w));
  proceed ← (if modified : bool
             then confirm "You have unsaved changes. Close anyway?" answer
             else mret true);
  if negb proceed then skip
  else
    set_overlayVisible false ;;
    source ← gets (λ w, openedFromSource (ed w));
    win ← gets window;
    (if JS.strictEq source (Some "fileTree") && fileTreeFocus win
     then FileTreeJs.focus
     else when (terminalFocus win) (emit TerminalFocus)) ;;
    set_currentEditingFile None ;;
    set_originalContent "" ;;
    set_isModified false ;;
    set_openedFromSource None.

Definition saveFile : M unit :=
  file ← gets (λ w, currentEditingFile (ed w));
  if negb (JS.truthy file) then skip
  else
    content ← gets (λ w, textarea (ed w));
    emit (Send (WRITE_FILE file content)).

Definition updateStatus (status className : string) : M unit :=
  cur ← gets (λ w, editorStatus (ed w));
  when (bool_decide (is_Some cur)) (set_editorStatus (Some (status, className))).

Definition checkModified : M unit :=
  content ← gets (λ w, textarea (ed w));
  original ← gets (λ w, originalContent (ed w));
  set_isModified (negb (String.eqb content original)) ;;
  modified ← gets (λ w, isModified (ed w));
  if modified : bool
  then updateStatus "Modified" "modified"
  else updateStatus "Ready" "".

(** The [input] listener.  The browser has already replaced the value
    and the selection of the textarea by what the user produced. *)
Definition on_input (value : string) (selStart selEnd : nat) : M unit :=
  set_textarea value selStart selEnd ;;
  checkModified.

(** The [keydown] listener of the textarea. *)
Definition on_keydown (ctrlOrMeta : bool) (key : string) (answer : bool) : M unit :=
  when (ctrlOrMeta && String.eqb key "s") saveFile ;;
  when (String.eqb key "Escape") (closeEditor answer) ;;
  when (String.eqb key "Tab") (
    value ← gets (λ w, textarea (ed w));
    start ← gets (λ w, selectionStart (ed w));
    end_ ← gets (λ w, selectionEnd (ed w));
    set_textarea (JS.substringTo start value +:+ "  " +:+ JS.substringFrom end_ value)
                 (start + 2) (start + 2) ;;
    checkModified).

(** The [FILE_CONTENT] listener.  [originalContent] takes the content
    as read; the textarea, whose value is what [el.value] returns,
    holds it with the line ends normalised. *)
Definition on_FILE_CONTENT (result : ReadResult) : M unit :=
  match result with
  | ReadOk filePath content fileName extension =>
      set_currentEditingFile (Some filePath) ;;
      set_originalContent content ;;
      set_isModified false ;;
      (let value := JS.normalizeNewlines content in
       set_textarea value (String.length value) (String.length value)) ;;
      updateStatus "Ready" "" ;;
      set_overlayVisible true ;;
      emit TextareaFocus
  | ReadFailed error =>
      emit (ConsoleError ("Error opening file: " +:+ error))
  end.

Definition on_FILE_SAVED (result : SaveResult) : M unit :=
  match result with
  | SaveOk =>
      value ← gets (λ w, textarea (ed w));
      set_originalContent value ;;
      set_isModified false ;;
      updateStatus "Saved!" "saved" ;;
      cb ← gets (λ w, onFileTreeRefreshCallback (ed w));
      when cb (emit FileTreeRefresh)
  | SaveFailed error =>
      updateStatus ("Save failed: " +:+ error) "modified"
  end.

(** The timer armed by a successful save, two seconds later. *)
Definition on_savedTimeout : M unit :=
  modified ← gets (λ w, isModified (ed w));
  when (negb modified) (updateStatus "Ready" "").

Definition isEditorOpen : M bool := gets (λ w, overlayVisible (ed w)).
Definition getCurrentFile : M JS.Value := gets (λ w, currentEditingFile (ed w)).

End EditorJs.

(** ** The tasks panel module (third module of [src/renderer/editor.js]) *)

(** What [handleTaskFormSubmit] reads from the form: [dataset.mode],
    [dataset.taskId] and the four inputs. *)
Record TaskForm := mkTaskForm {
  mode : string;
  formTaskId : string;
  titleInput : string;
  descriptionInput : string;
  priorityInput : string;
  categoryInput : string
}.

Module TasksPanelJs.

Definition set_isVisible (b : bool) : M unit :=
  setTp (λ s, mkTasksVars b (currentFilter s) (tasksData s) (panelElement s)
                (contentElement s)).
Definition set_currentFilter (f : string) : M unit :=
  setTp (λ s, mkTasksVars (isVisible s) f (tasksData s) (panelElement s)
                (contentElement s)).
Definition set_tasksData (d : option TasksFile) : M unit :=
  setTp (λ s, mkTasksVars (isVisible s) (currentFilter s) d (panelElement s)
                (contentElement s)).

(** [statusMap[currentFilter]]; [None] is [undefined]. *)
Definition statusMap (filter : string) : option string :=
  if String.eqb filter "pending" then Some "pending"
  else if String.eqb filter "inProgress" then Some "in_progress"
  else if String.eqb filter "completed" then Some "completed"
  else None.

Definition filteredTasks (v : TasksVars) : list Task.t :=
  match tasksData v with
  | None => []
  | Some data =>
      match tasks data with
      | None => []
      | Some lists =>
          let allTasks :=
            map (Task.withStatus "pending") (pending lists) ++
            map (Task.withStatus "in_progress") (inProgress lists) ++
            map (Task.withStatus "completed") (completed lists) in
          if String.eqb (currentFilter v) "all" then allTasks
          else filter (λ t, Some (Task.status t) = statusMap (currentFilter v)) allTasks
      end
  end.

Definition getFilteredTasks : M (list Task.t) := gets (λ w, filteredTasks (tp w)).

(** [render]: the list shown is the filtered one; the markup is not
    modelled. *)
Definition render : M unit :=
  ce ← gets (λ w, contentElement (tp w));
  when ce (shown ← getFilteredTasks; emit (RenderTasks shown)).

(** The [TASKS_DATA] listener; [tasks = None] is a falsy [tasks]
    member. *)
Definition on_TASKS_DATA (projectPath : JS.Value) (tasks : option TasksFile) : M unit :=
  match tasks with
  | Some data => set_tasksData (Some data) ;; render
  | None => skip
  end.

Definition loadTasks : M unit :=
  projectPath ← StateJs.getProjectPath;
  when (JS.truthy projectPath) (emit (Send (LOAD_TASKS projectPath))).

Definition show : M unit :=
  pe ← gets (λ w, panelElement (tp w));
  when pe (set_isVisible true ;; loadTasks).

Definition hide : M unit :=
  pe ← gets (λ w, panelElement (tp w));
  when pe (set_isVisible false).

Definition toggle : M unit :=
  v ← gets (λ w, isVisible (tp w));
  if v : bool then hide else show.

Definition setFilter (filter : string) : M unit :=
  set_currentFilter filter ;; render.

Definition showToast (message kind : string) : M unit := emit (Toast message kind).

Definition sendTaskToClaude (task : Task.t) : M unit :=
  let prompt := "Work on this task: " +:+ Task.title task in
  let prompt :=
    match Task.description task with
    | Some d => if JS.truthyStr d then prompt +:+ ". " +:+ d else prompt
    | None => prompt
    end in
  let prompt :=
    if JS.strictEq (Task.priority task) (Some "high")
    then prompt +:+ " (High priority)" else prompt in
  send ← gets (λ w, terminalSendCommand (window w));
  if send : bool then emit (TerminalSendCommand prompt)
  else emit (ConsoleError "Terminal sendCommand not available").

Definition deleteTask (taskId : string) (answer : bool) : M unit :=
  projectPath ← StateJs.getProjectPath;
  if negb (JS.truthy projectPath) then skip
  else
    ok ← EditorJs.confirm "Delete this task?" answer;
    when ok (emit (Send (DELETE_TASK projectPath taskId))).

(** The tail of [handleTaskAction] after the [switch]. *)
Definition requestStatus (projectPath : JS.Value) (taskId action newStatus toastMessage : string)
  : M unit :=
  when (JS.truthyStr newStatus) (
    emit (Send (UPDATE_TASK projectPath taskId (StatusUpdate newStatus))) ;;
    showToast toastMessage (if String.eqb action "complete" then "success" else "info")).

(** [handleTaskAction]; [answer] is the reply to the confirmation that
    the [delete] action asks for. *)
Definition handleTaskAction (taskId action : string) (answer : bool) : M unit :=
  projectPath ← StateJs.getProjectPath;
  if negb (JS.truthy projectPath) then skip
  else
    shown ← getFilteredTasks;
    match list_find (λ t, Task.id t = taskId) shown with
    | None => skip
    | Some (_, task) =>
        if String.eqb action "start" then
          sendTaskToClaude task ;;
          requestStatus projectPath taskId action "in_progress" "Task sent to Claude"
        else if String.eqb action "complete" then
          requestStatus projectPath taskId action "completed" "Task completed"
        else if String.eqb action "pause" then
          requestStatus projectPath taskId action "pending" "Task paused"
        else if String.eqb action "reopen" then
          requestStatus projectPath taskId action "pending" "Task reopened"
        else if String.eqb action "delete" then
          deleteTask taskId answer
        else skip
    end.

Definition hideTaskModal : M unit := emit HideTaskModal.

Definition handleTaskFormSubmit (form : TaskForm) : M unit :=
  projectPath ← StateJs.getProjectPath;
  if negb (JS.truthy projectPath) then skip
  else
    let taskData :=
      mkTaskData (JS.trim (titleInput form)) (JS.trim (descriptionInput form))
                 (priorityInput form) (categoryInput form) in
    if negb (JS.truthyStr (td_title taskData)) then emit (Alert "Task title is required")
    else
      (if String.eqb (mode form) "add" then
         emit (Send (ADD_TASK projectPath taskData))
       else if String.eqb (mode form) "edit" && JS.truthyStr (formTaskId form) then
         emit (Send (UPDATE_TASK projectPath (formTaskId form) (FieldsUpdate taskData)))
       else skip) ;;
      hideTaskModal.

(** The [data-action] values of the buttons [renderTaskItem] gives a
    task, in document order; [render] wires each of them to
    [handleTaskAction] with the id of the task. *)
Definition actionButtons (task : Task.t) : list string :=
  (if String.eqb (Task.status task) "pending" then ["start"; "complete"]
   else if String.eqb (Task.status task) "in_progress" then ["complete"; "pause"]
   else ["reopen"]) ++ ["delete"].

End TasksPanelJs.

(** ** The state of a freshly loaded renderer

    The initial values of the module variables, with every DOM element
    found and every [window] hook installed. *)

Definition initialState : StateVars :=
  mkStateVars None false [] [] [] false true.
Definition initialEditor : EditorVars :=
  mkEditorVars None "" false None true "" 0 0 false (Some ("", "")).
Definition initialFileTree : FileTreeVars :=
  mkFileTreeVars (Some []) None true false 0.
Definition initialTasks : TasksVars :=
  mkTasksVars false "all" None true true.
Definition initialWorld : World :=
  mkWorld initialState initialEditor initialFileTree initialTasks
          (mkWindow true true true).

(** Running a sequence of calls from a world. *)
Definition run (ms : list (M unit)) : M unit := forEach ms (λ m, m).

(** * Vocabulary of the properties *)

(** ** Editor sessions *)

(** What can happen to an editor session while it stays open. *)
Inductive SessionStep :=
| StepInput (value : string) (selStart selEnd : nat)
| StepTab
| StepSaveShortcut
| StepSaveButton
| StepSaved (result : SaveResult)
| StepSavedTimeout
| StepContent (result : ReadResult)
| StepCloseDeclined.

(** The steps that edit the buffer. *)
Definition isEdit (s : SessionStep) : bool :=
  match s with
  | StepInput _ _ _ | StepTab => true
  | _ => false
  end.

(** The call each step stands for. *)
Definition step (s : SessionStep) : M unit :=
  match s with
  | StepInput value selStart selEnd => EditorJs.on_input value selStart selEnd
  | StepTab => EditorJs.on_keydown false "Tab" false
  | StepSaveShortcut => EditorJs.on_keydown true "s" false
  | StepSaveButton => EditorJs.saveFile
  | StepSaved result => EditorJs.on_FILE_SAVED result
  | StepSavedTimeout => EditorJs.on_savedTimeout
  | StepContent result => EditorJs.on_FILE_CONTENT result
  | StepCloseDeclined =>
      modified ← gets (λ w, isModified (ed w));
      when modified (EditorJs.closeEditor false)
  end.

(** A string without carriage return, and a step that is no read of a
    content with one. *)
Definition noCarriageReturn (s : string) : bool :=
  forallb (λ c, negb (Ascii.eqb c "013")) (list_ascii_of_string s).
Definition plainRead (s : SessionStep) : bool :=
  match s with
  | StepContent (ReadOk _ content _ _) => noCarriageReturn content
  | _ => true
  end.

(** A file of two lines with a Windows line end, and what the textarea
    returns for it. *)
Definition crlfContent : string := String "a" (String "013" (String "010" (String "b" ""))).
Definition lfContent : string := String "a" (String "010" (String "b" "")).

(** [isModified] says whether the buffer differs from the snapshot. *)
Definition dirtyFlagExact (w : World) : Prop :=
  isModified (ed w) = negb (String.eqb (textarea (ed w)) (originalContent (ed w))).

(** ** The file tree *)

(** The items shown by a wrapper, by the rule of the data model: the item
    itself, and the items shown by the wrappers of its container when the
    container is expanded. *)
Fixpoint shownOf (w : Wrapper) : list FileItem :=
  match w with
  | mkWrapper it kids =>
      it ::
      match kids with
      | Some (false, ws) => flat_map shownOf ws
      | _ => []
      end
  end.

(** An item is shown in a tree when a chain of expanded containers leads
    from the top level to it: every ancestor directory is expanded. *)
Inductive Shown : list Wrapper → FileItem → Prop :=
| shown_top tree it kids :
    mkWrapper it kids ∈ tree → Shown tree it
| shown_inside tree parent ws x :
    mkWrapper parent (Some (false, ws)) ∈ tree → Shown ws x → Shown tree x.

(** Every item of a wrapper, whatever the containers display. *)
Fixpoint everyItemOf (w : Wrapper) : list FileItem :=
  match w with
  | mkWrapper it kids =>
      it ::
      match kids with
      | Some (_, ws) => flat_map everyItemOf ws
      | None => []
      end
  end.

(** The elements of a tree, in document order. *)
Definition elementsOf (tree : list Wrapper) : list Element :=
  map element (flat_map everyItemOf tree).

(** Elements are distinct objects. *)
Definition distinctElements (w : World) : Prop :=
  ∀ tree, fileTreeElement (ft w) = Some tree → NoDup (elementsOf tree).

(** What can happen to the file tree. *)
Inductive TreeEvent :=
| TreeData (files : list FileEntry)
| TreeClick (it : FileItem)
| TreeKey (key : string)
| TreeFocus
| TreeBlur.

Definition treeEvent (e : TreeEvent) : M unit :=
  match e with
  | TreeData files => FileTreeJs.on_FILE_TREE_DATA files
  | TreeClick it => FileTreeJs.click it
  | TreeKey key => FileTreeJs.handleKeydown key
  | TreeFocus => FileTreeJs.focus
  | TreeBlur => FileTreeJs.blur
  end.

(** The index after [i] and the index before [i] on a ring of [n]. *)
Definition nextIndex (n i : nat) : nat := (i + 1) mod n.
Definition previousIndex (n i : nat) : nat := (i + n - 1) mod n.

(** The filter of [getVisibleItems] on a list of items with their
    chains. *)
Definition keepVisible (l : list (FileItem * list bool)) : list FileItem :=
  map fst (filter (λ p, forallb negb p.2 = true) l).

(** The elements a rendering allocates: numbered from the counter up,
    without repetition. *)
Definition freshFrom (n : nat) (items : list FileItem) (n' : nat) : Prop :=
  n ≤ n' ∧ NoDup (map element items) ∧ ∀ e, e ∈ map element items → n ≤ e < n'.

(** A call keeps the elements of the tree when the tree afterwards
    holds the same elements in the same order (only [display] flags and
    other module variables may differ). *)
Definition keepsElements {A} (m : M A) : Prop :=
  ∀ w, option_map elementsOf (fileTreeElement (ft (exec m w)))
       = option_map elementsOf (fileTreeElement (ft w)).

(** ** Closing the editor *)

(** The dialog a close shows: only for a modified session. *)
Definition closeDialog (w : World) : list Event :=
  if isModified (ed w) then [Confirm "You have unsaved changes. Close anyway?"] else [].

(** ** Tasks *)

(** A title made of white space only (the empty title included). *)
Definition blank (s : string) : bool := forallb JS.isWhiteSpace (list_ascii_of_string s).

(** The command the specification gives for the start action: the
    title, then the description when there is one, then the priority
    mark for a high priority. *)
Definition startCommand (task : Task.t) : string :=
  "Work on this task: " +:+ Task.title task +:+
  (match Task.description task with
   | Some d => if String.eqb d "" then "" else ". " +:+ d
   | None => ""
   end) +:+
  (if bool_decide (Task.priority task = Some "high") then " (High priority)" else "").

(** The status each transition asks for. *)
Definition targetStatus (action : string) : option string :=
  if String.eqb action "start" then Some "in_progress"
  else if String.eqb action "complete" then Some "completed"
  else if String.eqb action "pause" then Some "pending"
  else if String.eqb action "reopen" then Some "pending"
  else None.

(** ** Scenarios *)

Definition sampleFiles : list FileEntry :=
  [mkFileEntry "src" "/p/src" true
     [mkFileEntry "main.js" "/p/src/main.js" false [];
      mkFileEntry "lib" "/p/src/lib" true
        [mkFileEntry "util.js" "/p/src/lib/util.js" false []]];
   mkFileEntry "README.md" "/p/README.md" false []].

Definition fixBug : Task.t :=
  Task.mk "t1" "Fix bug" (Some "") (Some "medium") (Some "fix") "pending" None.
Definition addTests : Task.t :=
  Task.mk "t2" "Add tests" (Some "cover the parser") (Some "high") (Some "test") "pending" None.
Definition sampleTasks : TasksFile :=
  mkTasksFile (Some (mkTaskLists [fixBug] [addTests] [])).

(** A project is selected and its file tree has arrived. *)
Definition projectOpen : World :=
  exec (run [StateJs.setMultiTerminalUI true;
             StateJs.on_PROJECT_SELECTED (Some "/p");
             FileTreeJs.on_FILE_TREE_DATA sampleFiles]) initialWorld.

(** The history that leads the cursor to [main.js]: focus the tree,
    expand [src], move down. *)
Definition toMainJs : list TreeEvent :=
  [TreeData sampleFiles; TreeFocus; TreeKey "ArrowRight"; TreeKey "ArrowDown"].

Definition browsing : World := exec (run (map treeEvent toMainJs)) initialWorld.

(** [main.js] is opened from the file tree and has been read. *)
Definition editing : World :=
  exec (run [FileTreeJs.handleKeydown "Enter";
             EditorJs.openFile "/p/src/main.js" (Some "fileTree");
             EditorJs.on_FILE_CONTENT (ReadOk "/p/src/main.js" "let x" "main.js" "js")])
       browsing.

(** The buffer has been edited. *)
Definition dirty : World := exec (EditorJs.on_input "let x = 1" 9 9) editing.

(** The tasks of the project have been pushed. *)
Definition withTasks : World :=
  exec (TasksPanelJs.on_TASKS_DATA (Some "/p") (Some sampleTasks)) projectOpen.

(** The live tree of a world (empty when there is none). *)
Definition treeOf (w : World) : list Wrapper := default [] (fileTreeElement (ft w)).

Definition blankForm : TaskForm := mkTaskForm "add" "" "   " "details" "medium" "feature".

(** ** Prompt logger *)

(** The prompt logger of the main process.  Its state is the module
    variable [inputBuffer] and the history file, kept as the list of the
    strings handed to [appendFileSync].  A string is its sequence of
    UTF-16 code units.  The [for ... of] loop goes by code points: a
    high surrogate followed by a low surrogate is one character of two
    units, every other unit is a character of its own.  [now n] is what
    [new Date().toISOString()] returns when the entry number [n] of the
    file is written. *)
Module PromptLoggerJs.

Record Vars := mkVars {
  inputBuffer : list N;
  appended : list (list N)
}.

(** The code units of a string of the Latin-1 range. *)
Definition units (s : string) : list N := map N_of_ascii (list_ascii_of_string s).

Definition isHighSurrogate (u : N) : bool := ((55296 <=? u) && (u <=? 56319))%N.
Definition isLowSurrogate (u : N) : bool := ((56320 <=? u) && (u <=? 57343))%N.

(** The characters the string iterator yields. *)
Fixpoint chars (data : list N) : list (list N) :=
  match data with
  | [] => []
  | u :: rest =>
      match rest with
      | v :: rest' =>
          if isHighSurrogate u && isLowSurrogate v then [u; v] :: chars rest'
          else [u] :: chars rest
      | [] => [[u]]
      end
  end.

(** White space and line terminators, which [trim] removes. *)
Definition isWhiteSpace (u : N) : bool :=
  (((9 <=? u) && (u <=? 13)) || (u =? 32) || (u =? 160) || (u =? 5760) ||
   ((8192 <=? u) && (u <=? 8202)) || (u =? 8232) || (u =? 8233) || (u =? 8239) ||
   (u =? 8287) || (u =? 12288) || (u =? 65279))%N.

Fixpoint trimStart (s : list N) : list N :=
  match s with
  | u :: s' => if isWhiteSpace u then trimStart s' else s
  | [] => []
  end.

Fixpoint trimEnd (s : list N) : list N :=
  match s with
  | u :: s' =>
      match trimEnd s' with
      | [] => if isWhiteSpace u then [] else [u]
      | r => u :: r
      end
  | [] => []
  end.

Definition trim (s : list N) : list N := trimEnd (trimStart s).

(** [char === c] for a character [c] of one unit. *)
Definition isChar (char : list N) (c : N) : bool :=
  match char with
  | [u] => (u =? c)%N
  | _ => false
  end.

(** [char.charCodeAt(0) >= 32] *)
Definition firstCodeAtLeast32 (char : list N) : bool :=
  match char with
  | u :: _ => (32 <=? u)%N
  | [] => false
  end.

(** The line written for a buffer. *)
Definition logEntry (timestamp : string) (buffer : list N) : list N :=
  units "[" ++ units timestamp ++ units "] " ++ buffer ++ [10%N].

(** The body of the loop of [logInput]; [s.slice(0, -1)] is
    [removelast]. *)
Definition logChar (now : nat → string) (v : Vars) (char : list N) : Vars :=
  if isChar char 13 || isChar char 10 then
    mkVars []
      (if 0 <? length (trim (inputBuffer v))
       then appended v ++ [logEntry (now (length (appended v))) (inputBuffer v)]
       else appended v)
  else if isChar char 127 || isChar char 8 then
    mkVars (removelast (inputBuffer v)) (appended v)
  else if firstCodeAtLeast32 char && negb (isChar char 127) then
    mkVars (inputBuffer v ++ char) (appended v)
  else v.

Definition logInput (now : nat → string) (data : list N) (v : Vars) : Vars :=
  fold_left (logChar now) (chars data) v.

End PromptLoggerJs.

(** ** GitHub issues *)

(** The GitHub panel of the renderer.  [formatRelativeTime] is given the
    difference [now - date] of two valid dates, an integer number of
    milliseconds; [Math.floor] of a quotient is the floor quotient. *)
Module GithubPanelJs.

Definition formatRelativeTime (diffMs : Z) : string :=
  let diffDays := (diffMs / (1000 * 60 * 60 * 24))%Z in
  if (diffDays =? 0)%Z then
    let diffHours := (diffMs / (1000 * 60 * 60))%Z in
    if (diffHours =? 0)%Z then
      let diffMinutes := (diffMs / (1000 * 60))%Z in
      if (diffMinutes <=? 1)%Z then "just now" else pretty.pretty diffMinutes +:+ " minutes ago"
    else if (diffHours =? 1)%Z then "1 hour ago" else pretty.pretty diffHours +:+ " hours ago"
  else if (diffDays =? 1)%Z then "yesterday"
  else if (diffDays <? 7)%Z then pretty.pretty diffDays +:+ " days ago"
  else if (diffDays <? 30)%Z then pretty.pretty (diffDays / 7)%Z +:+ " weeks ago"
  else if (diffDays <? 365)%Z then pretty.pretty (diffDays / 30)%Z +:+ " months ago"
  else pretty.pretty (diffDays / 365)%Z +:+ " years ago".

End GithubPanelJs.

(** The GitHub manager of the main process.  The outcome of a child
    process is its error (with message and standard error) or its
    standard output.  [Json] stands for the values [JSON.parse] and a
    member read produce; [parse] returns nothing when [JSON.parse]
    throws, [nameWithOwner] returns nothing when reading the member
    throws (the parsed value is [null]).  Every function returns, next
    to its result, the commands it ran. *)
Module GithubManagerJs.

Inductive ExecResult :=
| ExecError (message stderr : string)
| ExecOk (stdout : string).

(** The object [loadIssues] resolves to; [repoName = None] is an absent
    member. *)
Record IssuesResult (Json : Type) := mkIssuesResult {
  error : JS.Value;
  issues : Json;
  repoName : option Json
}.
Arguments mkIssuesResult {Json}.
Arguments error {Json}.
Arguments issues {Json}.
Arguments repoName {Json}.

Section Process.

Variable Json : Type.
Variable emptyArray : Json.
Variable parse : string → option Json.
Variable nameWithOwner : Json → option Json.
Variable childProcess : string → JS.Value → ExecResult.

Definition checkGhCli : bool * list string :=
  (match childProcess "gh --version" None with
   | ExecError _ _ => false
   | ExecOk _ => true
   end,
   ["gh --version"]).

Definition checkGitHubRepo (projectPath : string) : option Json * list string :=
  (match childProcess "gh repo view --json nameWithOwner" (Some projectPath) with
   | ExecError _ _ => None
   | ExecOk stdout =>
       match parse stdout with
       | Some data => nameWithOwner data
       | None => None
       end
   end,
   ["gh repo view --json nameWithOwner"]).

Definition issueListCommand (state : string) : string :=
  "gh issue list --state " +:+ state +:+
  " --json number,title,state,author,labels,createdAt,updatedAt,url --limit 50".

(** [loadIssues(projectPath, state = 'open')]; [state = None] is an
    omitted or [undefined] argument. *)
Definition loadIssues (projectPath : string) (state : option string)
  : IssuesResult Json * list string :=
  let state := default "open" state in
  let '(ghAvailable, ran1) := checkGhCli in
  if negb ghAvailable then (mkIssuesResult (Some "gh CLI not installed") emptyArray None, ran1)
  else
    let '(repoInfo, ran2) := checkGitHubRepo projectPath in
    match repoInfo with
    | None => (mkIssuesResult (Some "Not a GitHub repository") emptyArray None, ran1 ++ ran2)
    | Some name =>
      let cmd := issueListCommand state in
      (match childProcess cmd (Some projectPath) with
       | ExecError message stderr =>
           mkIssuesResult (Some (if JS.truthyStr stderr then stderr else message)) emptyArray
             (Some name)
       | ExecOk stdout =>
           match parse stdout with
           | Some parsed => mkIssuesResult None parsed (Some name)
           | None => mkIssuesResult (Some "Failed to parse issues") emptyArray (Some name)
           end
       end,
       ran1 ++ ran2 ++ [cmd])
    end.

(** The [LOAD_GITHUB_ISSUES] handler; [currentProjectPath] is the module
    variable. *)
Definition on_LOAD_GITHUB_ISSUES
    (currentProjectPath projectPath : JS.Value) (state : option string)
  : IssuesResult Json * list string :=
  let path := if JS.truthy projectPath then projectPath else currentProjectPath in
  match path with
  | Some p =>
      if JS.truthy path then loadIssues p state
      else (mkIssuesResult (Some "No project selected") emptyArray None, [])
  | None => (mkIssuesResult (Some "No project selected") emptyArray None, [])
  end.

End Process.

End GithubManagerJs.

(** ** Vocabulary of the further properties *)

(** Code units the prompt logger keeps, and strings made of them;
    strings made of white space only. *)
Definition isPrintable (u : N) : bool := ((32 <=? u) && negb (u =? 127))%N.
Definition printable (s : list N) : bool := forallb isPrintable s.
Definition blankText (s : list N) : bool := forallb PromptLoggerJs.isWhiteSpace s.

(** The entries written for a list of lines when the file already has
    [n] entries. *)
Fixpoint entriesFrom (now : nat → string) (n : nat) (lines : list (list N))
  : list (list N) :=
  match lines with
  | [] => []
  | line :: lines' => PromptLoggerJs.logEntry (now n) line :: entriesFrom now (S n) lines'
  end.

(** Whether a character occurs in a string. *)
Fixpoint occurs (c : ascii) (s : string) : bool :=
  match s with
  | EmptyString => false
  | String x s' => Ascii.eqb x c || occurs c s'
  end.

(** The calls of project-change listeners in a log. *)
Definition isProjectChange (e : Event) : bool :=
  match e with ProjectChange _ _ _ => true | _ => false end.

(** The calls of status listeners in a log. *)
Definition isFrameStatusChange (e : Event) : bool :=
  match e with FrameStatusChange _ _ => true | _ => false end.

(** The listener calls a sequence of project switches owes: for every
    path in turn, every listener in registration order, with the path
    and the one before it. *)
Fixpoint switchCalls (cbs : list Callback) (previous : JS.Value) (paths : list JS.Value)
  : list Event :=
  match paths with
  | [] => []
  | path :: paths' =>
      map (λ cb, ProjectChange cb path previous) cbs ++ switchCalls cbs path paths'
  end.

(** The path and the directory flag of an entry. *)
Definition entryPath (f : FileEntry) : string :=
  match f with mkFileEntry _ path _ _ => path end.
Definition entryIsDirectory (f : FileEntry) : bool :=
  match f with mkFileEntry _ _ isDirectory _ => isDirectory end.

(** The paths of the entries that get an item, depth first: what is
    listed under an entry that is not a directory gets none. *)
Fixpoint renderedPaths (f : FileEntry) : list string :=
  match f with
  | mkFileEntry _ path isDirectory children =>
      path :: (if isDirectory then flat_map renderedPaths children else [])
  end.

(** Every wrapper of a tree, the nested ones included. *)
Fixpoint wrappersOf (w : Wrapper) : list Wrapper :=
  w ::
  match w with
  | mkWrapper _ (Some (_, ws)) => flat_map wrappersOf ws
  | mkWrapper _ None => []
  end.

(** A call keeps the cursor and the allocation counter. *)
Definition keepsCursor {A} (m : M A) : Prop :=
  ∀ w, focusedItem (ft (exec m w)) = focusedItem (ft w) ∧
       allocated (ft (exec m w)) = allocated (ft w).

(** Every element of the tree, and the cursor, was allocated before. *)
Definition allocatedBefore (w : World) : Prop :=
  (∀ tree e, fileTreeElement (ft w) = Some tree → e ∈ elementsOf tree → e < allocated (ft w)) ∧
  (∀ x, focusedItem (ft w) = Some x → element x < allocated (ft w)).

(** A call that leaves every module variable as it was. *)
Definition readOnly {A} (m : M A) : Prop := ∀ w, exec m w = w.

(** What each filter of the tasks panel stands for: one list of the
    file, all three in order, or nothing for a filter the panel does not
    know.  Every task carries the status of the list it is in. *)
Definition listOf (filter : string) (lists : TaskLists) : list Task.t :=
  if String.eqb filter "all" then
    map (Task.withStatus "pending") (pending lists) ++
    map (Task.withStatus "in_progress") (inProgress lists) ++
    map (Task.withStatus "completed") (completed lists)
  else if String.eqb filter "pending" then map (Task.withStatus "pending") (pending lists)
  else if String.eqb filter "inProgress" then
    map (Task.withStatus "in_progress") (inProgress lists)
  else if String.eqb filter "completed" then
    map (Task.withStatus "completed") (completed lists)
  else [].

(** ** Further scenarios *)

(** A file opened from the file tree while the tree is still empty. *)
Definition openedOnEmptyTree : World :=
  exec (run [EditorJs.openFile "/p/a.js" (Some "fileTree");
             EditorJs.on_FILE_CONTENT (ReadOk "/p/a.js" "let a" "a.js" "js")])
       initialWorld.

(** The tree has arrived and has the focus: the cursor is on [src]. *)
Definition toSrc : list TreeEvent := [TreeData sampleFiles; TreeFocus].
Definition atSrc : World := exec (run (map treeEvent toSrc)) initialWorld.

(** The text ["ab"] with the caret between the two letters. *)
Definition caretInside : World := exec (EditorJs.on_input "ab" 1 1) editing.

(** The tasks are there, but no terminal has installed its hook. *)
Definition withoutTerminal : World :=
  mkWorld (st withTasks) (ed withTasks) (ft withTasks) (tp withTasks) (mkWindow true true false).

(** The panel shows the completed tasks only: there are none. *)
Definition completedOnly : World := exec (TasksPanelJs.setFilter "completed") withTasks.

(** The form as filled in to edit the task [t1]. *)
Definition editForm : TaskForm := mkTaskForm "edit" "t1" "  Fix the bug " "" "high" "fix".

(** A clock that stands still. *)
Definition frozenClock (n : nat) : string := "2026-01-01T00:00:00.000Z".

(** * Properties *)

(** ** The monad *)

Lemma forEach_emit {A} (f : A → Event) (xs : list A) (w : World) :
  forEach xs (λ x, emit (f x)) w = (tt, w, map f xs).
Proof.
  induction xs as [|x xs IH]; [reflexivity|].
  change (forEach (x :: xs) (λ x, emit (f x)) w)
    with (let '(_, w1, l1) := emit (f x) w in
          let '(y, w2, l2) := forEach xs (λ x, emit (f x)) w1 in (y, w2, l1 ++ l2)).
  cbn [emit]. rewrite IH. reflexivity.
Qed.

Lemma exec_bind {A B} (m : M A) (f : A → M B) (w : World) :
  exec (m ≫= f) w = exec (f (m w).1.1) (exec m w).
Proof.
  unfold exec, mbind, M_bind. destruct (m w) as [[x w1] l1].
  cbn. destruct (f x w1) as [[y w2] l2]. reflexivity.
Qed.

Lemma logOf_bind {A B} (m : M A) (f : A → M B) (w : World) :
  logOf (m ≫= f) w = logOf m w ++ logOf (f (m w).1.1) (exec m w).
Proof.
  unfold logOf, exec, mbind, M_bind. destruct (m w) as [[x w1] l1].
  cbn. destruct (f x w1) as [[y w2] l2]. reflexivity.
Qed.

(** Refutes membership of an event in a log made of singletons, mapped
    listener lists and conditionals, when no part can hold the event. *)
Ltac absurd_in :=
  repeat match goal with
  | H : In _ (_ ++ _) |- _ => apply in_app_or in H; destruct H as [H|H]
  | H : In _ (map _ _) |- _ =>
      apply in_map_iff in H; destruct H as (? & H & _); discriminate H
  | H : In _ (if ?b then _ else _) |- _ => destruct b
  | H : In _ [] |- _ => destruct H
  | H : In _ (_ :: _) |- _ => destruct H as [H|H]; [discriminate H|]
  end.

(** ** ProjectContext: [src/renderer/state.js] *)

Section ProjectContext.

Import StateJs.

(** What [setIsFrameProject] does: the flag is stored, the button is
    refreshed, and the status listeners run in registration order. *)
Lemma setIsFrameProject_run (isFrame : bool) (w : World) :
  setIsFrameProject isFrame w =
    (tt,
     mkWorld (mkStateVars (currentProjectPath (st w)) isFrame
                (onProjectChangeCallbacks (st w)) (onFrameStatusChangeCallbacks (st w))
                (onFrameInitializedCallbacks (st w)) (multiTerminalUI (st w))
                (initializeFrameBtn (st w)))
             (ed w) (ft w) (tp w) (window w),
     (if initializeFrameBtn (st w)
      then [UpdateFrameUI (JS.truthy (currentProjectPath (st w)) && negb isFrame)]
      else []) ++
     map (λ cb, FrameStatusChange cb isFrame) (onFrameStatusChangeCallbacks (st w))).
Proof.
  unfold setIsFrameProject, updateFrameUI, set_isCurrentProjectFrame, setSt, modify,
    getProjectPath, gets, when, skip.
  unfold mbind, M_bind, mret, M_ret.
  destruct (initializeFrameBtn (st w)) eqn:Hbtn; cbn; rewrite forEach_emit, ?Hbtn; reflexivity.
Qed.

Lemma on_IS_FRAME_PROJECT_RESULT_run (projectPath : JS.Value) (isFrame : bool) (w : World) :
  on_IS_FRAME_PROJECT_RESULT projectPath isFrame w =
    if JS.strictEq projectPath (currentProjectPath (st w))
    then setIsFrameProject isFrame w
    else (tt, w, []).
Proof.
  unfold on_IS_FRAME_PROJECT_RESULT, gets, when, skip, mbind, M_bind, mret, M_ret.
  cbn. destruct (JS.strictEq _ _); [|reflexivity].
  destruct (setIsFrameProject isFrame w) as [[[] w'] l]. reflexivity.
Qed.

(** C1.  A classification response [{projectPath, isFrame}] is applied
    only when [projectPath] equals the current project path: otherwise
    the world is left as it was and nothing is logged (no status
    listener runs); when the paths are equal the flag is stored and the
    status listeners are called with it, in registration order. *)
Theorem classification_response_matches_active_path
    (projectPath : JS.Value) (isFrame : bool) (w : World) :
  let w' := exec (on_IS_FRAME_PROJECT_RESULT projectPath isFrame) w in
  let log := logOf (on_IS_FRAME_PROJECT_RESULT projectPath isFrame) w in
  (projectPath ≠ currentProjectPath (st w) → w' = w ∧ log = []) ∧
  (projectPath = currentProjectPath (st w) →
     isCurrentProjectFrame (st w') = isFrame ∧
     currentProjectPath (st w') = currentProjectPath (st w) ∧
     log =
       (if initializeFrameBtn (st w)
        then [UpdateFrameUI (JS.truthy (currentProjectPath (st w)) && negb isFrame)]
        else []) ++
       map (λ cb, FrameStatusChange cb isFrame) (onFrameStatusChangeCallbacks (st w))).
Proof.
  unfold exec, logOf. rewrite on_IS_FRAME_PROJECT_RESULT_run. unfold JS.strictEq.
  split; intros Hp.
  - rewrite bool_decide_eq_false_2 by exact Hp. split; reflexivity.
  - rewrite bool_decide_eq_true_2 by exact Hp.
    rewrite setIsFrameProject_run. cbn. repeat split; reflexivity.
Qed.

(** The log of [setProjectPath], and the two variables it may change. *)
Lemma setProjectPath_run (path : JS.Value) (w : World) :
  let w' := exec (setProjectPath path) w in
  let log := logOf (setProjectPath path) w in
  currentProjectPath (st w') = path ∧
  isCurrentProjectFrame (st w') =
    (if JS.truthy path then isCurrentProjectFrame (st w) else false) ∧
  log =
    [UpdateProjectUI path] ++
    (if multiTerminalUI (st w) then [SetCurrentProject path] else []) ++
    (if JS.truthy path
     then [Send (CHECK_IS_FRAME_PROJECT path)]
     else (if initializeFrameBtn (st w) then [UpdateFrameUI false] else []) ++
          map (λ cb, FrameStatusChange cb false) (onFrameStatusChangeCallbacks (st w))) ++
    map (λ cb, ProjectChange cb path (currentProjectPath (st w)))
        (onProjectChangeCallbacks (st w)).
Proof.
  unfold exec, logOf, setProjectPath, updateProjectUI, set_currentProjectPath, setSt,
    modify, getProjectPath, gets, when, skip, mbind, M_bind, mret, M_ret.
  destruct (JS.truthy path) eqn:Htruthy, (multiTerminalUI (st w)) eqn:Hui; cbn;
    rewrite ?Hui; cbn; rewrite ?setIsFrameProject_run; cbn;
    rewrite forEach_emit; cbn; rewrite ?Htruthy;
    destruct (initializeFrameBtn (st w)); cbn; rewrite ?app_nil_r, <- ?app_assoc;
    repeat split; reflexivity.
Qed.

(** C3, as amended.  [setProjectPath path] stores [path]; the terminal
    collaborator is told to switch to [path] exactly when a
    MultiTerminalUI instance is registered, whether [path] is null or
    not; a truthy [path] (not null, not the empty string) sends one
    classification request and leaves the Frame flag alone, any other
    [path] sends nothing and clears the flag at once, calling every
    status listener with [false]; the log ends with one call per
    project-change listener, in registration order, carrying [path] and
    the path that was current before the call.  The last conjunct gives
    the whole log, in order: the project UI update, the session switch,
    the one request or the status calls, the project-change calls. *)
Theorem setProjectPath_switches_and_notifies (path : JS.Value) (w : World) :
  let w' := exec (setProjectPath path) w in
  let log := logOf (setProjectPath path) w in
  currentProjectPath (st w') = path ∧
  (SetCurrentProject path ∈ log ↔ multiTerminalUI (st w) = true) ∧
  (if JS.truthy path
   then Send (CHECK_IS_FRAME_PROJECT path) ∈ log ∧
        isCurrentProjectFrame (st w') = isCurrentProjectFrame (st w)
   else (∀ m, Send m ∉ log) ∧ isCurrentProjectFrame (st w') = false) ∧
  (∃ before,
     log = before ++ map (λ cb, ProjectChange cb path (currentProjectPath (st w)))
                         (onProjectChangeCallbacks (st w)) ∧
     ∀ cb p q, ProjectChange cb p q ∉ before) ∧
  log =
    [UpdateProjectUI path] ++
    (if multiTerminalUI (st w) then [SetCurrentProject path] else []) ++
    (if JS.truthy path
     then [Send (CHECK_IS_FRAME_PROJECT path)]
     else (if initializeFrameBtn (st w) then [UpdateFrameUI false] else []) ++
          map (λ cb, FrameStatusChange cb false) (onFrameStatusChangeCallbacks (st w))) ++
    map (λ cb, ProjectChange cb path (currentProjectPath (st w)))
        (onProjectChangeCallbacks (st w)) ∧
  multiTerminalUI (st w') = multiTerminalUI (st w) ∧
  onProjectChangeCallbacks (st w') = onProjectChangeCallbacks (st w) ∧
  onFrameStatusChangeCallbacks (st w') = onFrameStatusChangeCallbacks (st w) ∧
  ed w' = ed w ∧ ft w' = ft w ∧ tp w' = tp w.
Proof.
  assert (multiTerminalUI (st (exec (setProjectPath path) w)) = multiTerminalUI (st w) ∧
          onProjectChangeCallbacks (st (exec (setProjectPath path) w))
            = onProjectChangeCallbacks (st w) ∧
          onFrameStatusChangeCallbacks (st (exec (setProjectPath path) w))
            = onFrameStatusChangeCallbacks (st w) ∧
          ed (exec (setProjectPath path) w) = ed w ∧
          ft (exec (setProjectPath path) w) = ft w ∧
          tp (exec (setProjectPath path) w) = tp w) as Hrest.
  { unfold exec, setProjectPath, updateProjectUI, set_currentProjectPath, setSt,
      modify, getProjectPath, gets, when, skip, mbind, M_bind, mret, M_ret.
    destruct (JS.truthy path) eqn:Htruthy, (multiTerminalUI (st w)) eqn:Hui; cbn;
      rewrite ?Hui; cbn; rewrite ?setIsFrameProject_run; cbn;
      rewrite forEach_emit; cbn; rewrite ?Hui; repeat split; reflexivity. }
  destruct (setProjectPath_run path w) as (Hpath & Hflag & Hlog).
  cbv zeta. rewrite Hpath, Hflag, Hlog. clear Hpath Hflag Hlog.
  split; [reflexivity|]. split; [|split; [|split; [|split; [reflexivity|exact Hrest]]]].
  - rewrite list_elem_of_In. destruct (multiTerminalUI (st w)).
    + split; [reflexivity|]. intros _. right. left. reflexivity.
    + split; [|discriminate]. intros Hin. cbn [app] in Hin. absurd_in.
  - destruct (JS.truthy path).
    + split; [|reflexivity]. rewrite list_elem_of_In, !in_app_iff.
      right. right. left. left. reflexivity.
    + split; [|reflexivity]. intros m Hin. apply list_elem_of_In in Hin. absurd_in.
  - eexists. rewrite !app_assoc. split; [reflexivity|].
    intros cb p q Hin. apply list_elem_of_In in Hin. absurd_in.
Qed.

(** C3 as stated fails.  The claim has the session switch happen if
    and only if the path is not null, and a classification request for
    every path that is not null.  With a MultiTerminalUI registered, a
    null path still switches the session; and the empty string, which
    is not null, gets no classification request. *)
Lemma setProjectPath_session_switch_ignores_null :
  ¬ (SetCurrentProject None
       ∈ logOf (setProjectPath None) (exec (setMultiTerminalUI true) initialWorld)
     ↔ (None : JS.Value) ≠ None) ∧
  ¬ (Some "" ≠ (None : JS.Value) →
     Send (CHECK_IS_FRAME_PROJECT (Some "")) ∈ logOf (setProjectPath (Some "")) initialWorld).
Proof.
  split.
  - intros [Hswitch _]. apply Hswitch; [|reflexivity].
    apply list_elem_of_In. vm_compute. right. left. reflexivity.
  - intros Hsent. specialize (Hsent ltac:(discriminate)).
    apply list_elem_of_In in Hsent. vm_compute in Hsent.
    repeat (destruct Hsent as [Hsent|Hsent]; [discriminate Hsent|]). exact Hsent.
Qed.

End ProjectContext.

(** ** EditorSession: the file editor *)

Section EditorSession.

Import EditorJs.

Lemma exec_run_cons (m : M unit) (ms : list (M unit)) (w : World) :
  exec (run (m :: ms)) w = exec (run ms) (exec m w).
Proof. unfold run. cbn [forEach]. rewrite exec_bind. reflexivity. Qed.

Lemma exec_run_app (ms1 ms2 : list (M unit)) (w : World) :
  exec (run (ms1 ++ ms2)) w = exec (run ms2) (exec (run ms1) w).
Proof.
  revert w. induction ms1 as [|m ms1 IH]; intros w; [reflexivity|].
  rewrite <- app_comm_cons, !exec_run_cons. apply IH.
Qed.

(** [updateStatus] only writes the status element. *)
Lemma updateStatus_ed (status className : string) (w : World) :
  let e := ed (exec (updateStatus status className) w) in
  currentEditingFile e = currentEditingFile (ed w) ∧
  originalContent e = originalContent (ed w) ∧
  isModified e = isModified (ed w) ∧
  textarea e = textarea (ed w).
Proof.
  unfold exec, updateStatus, set_editorStatus, setEd, modify, gets, when, skip,
    mbind, M_bind, mret, M_ret.
  cbn. destruct (editorStatus (ed w)); cbn; repeat split; reflexivity.
Qed.

Lemma checkModified_exact (w : World) :
  let w' := exec checkModified w in
  dirtyFlagExact w' ∧
  textarea (ed w') = textarea (ed w) ∧
  originalContent (ed w') = originalContent (ed w).
Proof.
  unfold dirtyFlagExact, exec, checkModified, updateStatus, set_editorStatus,
    set_isModified, setEd, modify, gets, when, skip, mbind, M_bind, mret, M_ret.
  cbn. destruct (String.eqb (textarea (ed w)) (originalContent (ed w))) eqn:Heq,
    (editorStatus (ed w)); cbn; rewrite ?Heq; repeat split; reflexivity.
Qed.

Ltac unfold_editor :=
  unfold exec, logOf, step, on_input, on_keydown, on_FILE_SAVED, on_FILE_CONTENT,
    on_savedTimeout, closeEditor, saveFile, checkModified, confirm, updateStatus,
    set_editorStatus, set_isModified, set_originalContent, set_textarea,
    set_currentEditingFile, set_openedFromSource, set_overlayVisible, setEd, modify,
    emit, gets, when, skip, mbind, M_bind, mret, M_ret.

Lemma normalizeNewlines_plain (s : string) :
  noCarriageReturn s = true → JS.normalizeNewlines s = s.
Proof.
  unfold noCarriageReturn. induction s as [|c s IH]; [reflexivity|].
  cbn [list_ascii_of_string forallb JS.normalizeNewlines]. intros Hs.
  apply andb_prop in Hs as [Hc Hs]. destruct (Ascii.eqb c "013"); [discriminate Hc|].
  rewrite (IH Hs). reflexivity.
Qed.

(** Every step of an open session keeps the flag exact, unless it
    reads a content with a carriage return. *)
Lemma step_keeps_flag_exact (s : SessionStep) (w : World) :
  plainRead s = true → dirtyFlagExact w → dirtyFlagExact (exec (step s) w).
Proof.
  unfold dirtyFlagExact. intros Hplain Hinv.
  destruct s as [value a b| | | |[|err]| |[path content name ext|err]|];
    try (cbn [plainRead] in Hplain; rewrite (normalizeNewlines_plain _ Hplain));
    unfold_editor; cbn; rewrite ?(normalizeNewlines_plain _ Hplain).
  - destruct (String.eqb value (originalContent (ed w))) eqn:Heq,
      (editorStatus (ed w)); cbn; rewrite ?Heq; reflexivity.
  - match goal with |- context [String.eqb ?v (originalContent (ed w))] =>
      destruct (String.eqb v (originalContent (ed w))) eqn:Heq end;
    destruct (editorStatus (ed w)); cbn; rewrite ?Heq; reflexivity.
  - destruct (JS.truthy (currentEditingFile (ed w))); cbn; exact Hinv.
  - destruct (JS.truthy (currentEditingFile (ed w))); cbn; exact Hinv.
  - destruct (editorStatus (ed w)), (onFileTreeRefreshCallback (ed w)); cbn;
      rewrite String.eqb_refl; reflexivity.
  - destruct (editorStatus (ed w)); cbn; exact Hinv.
  - destruct (isModified (ed w)) eqn:Hm; cbn; [congruence|].
    destruct (editorStatus (ed w)); cbn; congruence.
  - destruct (editorStatus (ed w)); cbn; rewrite String.eqb_refl; reflexivity.
  - exact Hinv.
  - destruct (isModified (ed w)) eqn:Hm; cbn; rewrite ?Hm; cbn; rewrite ?Hm; exact Hinv.
Qed.

(** An edit leaves the snapshot alone. *)
Lemma edit_keeps_snapshot (s : SessionStep) (w : World) :
  isEdit s = true → originalContent (ed (exec (step s) w)) = originalContent (ed w).
Proof.
  destruct s as [value a b| | | |r| |r|]; try discriminate; intros _; unfold_editor; cbn.
  - destruct (String.eqb value (originalContent (ed w))), (editorStatus (ed w)); reflexivity.
  - match goal with |- context [String.eqb ?v (originalContent (ed w))] =>
      destruct (String.eqb v (originalContent (ed w))) end;
    destruct (editorStatus (ed w)); reflexivity.
Qed.

(** Typing the snapshot back clears the flag. *)
Lemma input_snapshot_is_clean (w : World) (a b : nat) :
  isModified (ed (exec (step (StepInput (originalContent (ed w)) a b)) w)) = false.
Proof.
  unfold_editor. cbn. rewrite String.eqb_refl. cbn.
  destruct (editorStatus (ed w)); reflexivity.
Qed.

Lemma steps_keep_flag_exact (steps : list SessionStep) (w : World) :
  forallb plainRead steps = true →
  dirtyFlagExact w → dirtyFlagExact (exec (run (map step steps)) w).
Proof.
  revert w. induction steps as [|s steps IH]; intros w Hplain Hinv; [exact Hinv|].
  cbn [forallb] in Hplain. apply andb_prop in Hplain as [Hs Hplain].
  cbn [map]. rewrite exec_run_cons. apply IH; [exact Hplain|].
  apply step_keeps_flag_exact; assumption.
Qed.

Lemma edits_keep_snapshot (steps : list SessionStep) (w : World) :
  forallb isEdit steps = true →
  originalContent (ed (exec (run (map step steps)) w)) = originalContent (ed w).
Proof.
  revert w. induction steps as [|s steps IH]; intros w Hall; [reflexivity|].
  cbn [forallb] in Hall. apply andb_prop in Hall as [Hs Hall].
  cbn [map]. rewrite exec_run_cons, IH by exact Hall. apply edit_keeps_snapshot, Hs.
Qed.

(** A successful read of a content without carriage return opens a
    clean session on the content read. *)
Lemma on_FILE_CONTENT_opens (path content name ext : string) (w : World) :
  noCarriageReturn content = true →
  let w' := exec (on_FILE_CONTENT (ReadOk path content name ext)) w in
  dirtyFlagExact w' ∧ originalContent (ed w') = content ∧ textarea (ed w') = content ∧
  isModified (ed w') = false ∧ currentEditingFile (ed w') = Some path.
Proof.
  intros Hplain. unfold dirtyFlagExact. unfold_editor. cbn.
  rewrite (normalizeNewlines_plain _ Hplain).
  destruct (editorStatus (ed w)); cbn; rewrite String.eqb_refl; repeat split; reflexivity.
Qed.

(** Where no content read has a carriage return, the flag is exact.
    Open such a file, then let any sequence of session steps happen
    (typing, tab insertion, save requests, save results, the status
    timer, failed or successful reads, a declined close).  Afterwards
    [isModified] is true exactly when the buffer differs from
    [originalContent].  When the steps are edits only, [originalContent]
    is still the content that was loaded, so typing the loaded content
    back makes the session clean again; and a successful save result
    makes the buffer of that moment the snapshot. *)
Theorem isModified_iff_buffer_differs_from_snapshot
    (path content name ext : string) (steps : list SessionStep) (w : World) :
  noCarriageReturn content = true →
  forallb plainRead steps = true →
  let opened := exec (on_FILE_CONTENT (ReadOk path content name ext)) w in
  let w' := exec (run (map step steps)) opened in
  (isModified (ed w') = true ↔ textarea (ed w') ≠ originalContent (ed w')) ∧
  (forallb isEdit steps = true →
     originalContent (ed w') = content ∧
     ∀ a b, isModified (ed (exec (step (StepInput content a b)) w')) = false) ∧
  originalContent (ed (exec (step (StepSaved SaveOk)) w')) = textarea (ed w') ∧
  isModified (ed (exec (step (StepSaved SaveOk)) w')) = false.
Proof.
  intros Hcontent Hplain. cbv zeta.
  destruct (on_FILE_CONTENT_opens path content name ext w Hcontent) as (Hinv & Horig & _).
  set (opened := exec (on_FILE_CONTENT (ReadOk path content name ext)) w) in *.
  pose proof (steps_keep_flag_exact steps opened Hplain Hinv) as Hexact.
  split; [|split].
  - rewrite Hexact. unfold dirtyFlagExact in Hexact.
    destruct (String.eqb_spec (textarea (ed (exec (run (map step steps)) opened)))
                (originalContent (ed (exec (run (map step steps)) opened)))) as [Heq|Hne].
    + split; [discriminate|]. intros Hne. contradiction.
    + split; [intros _; exact Hne|reflexivity].
  - intros Hedits.
    pose proof (edits_keep_snapshot steps opened Hedits) as Hsnap.
    rewrite Horig in Hsnap. split; [exact Hsnap|]. intros a b.
    rewrite <- Hsnap. apply input_snapshot_is_clean.
  - cbn [step]. generalize (exec (run (map step steps)) opened). intros w1.
    unfold_editor. cbn.
    destruct (editorStatus (ed w1)), (onFileTreeRefreshCallback (ed w1)); cbn;
      split; reflexivity.
Qed.

(** C4.  The code at the failing input, a file with a Windows line end.
    The read stores the content as read in [originalContent] and clears
    the flag, while the textarea returns the content with the line end
    normalised: the session opens clean on a buffer that differs from
    its snapshot.  After typing one character and deleting it again the
    buffer is what it was when the file was opened, and the session is
    modified.  (The save result takes the snapshot from the textarea,
    and [checkModified] compares with the textarea; the read does
    neither.) *)
Theorem crlf_file_opens_clean_off_its_snapshot :
  let opened :=
    exec (on_FILE_CONTENT (ReadOk "/p/a.txt" crlfContent "a.txt" "txt")) initialWorld in
  let typed := exec (on_input (lfContent +:+ "x") 4 4) opened in
  let reverted := exec (on_input lfContent 3 3) typed in
  originalContent (ed opened) = crlfContent ∧
  textarea (ed opened) = lfContent ∧
  isModified (ed opened) = false ∧
  textarea (ed reverted) = textarea (ed opened) ∧
  originalContent (ed reverted) = originalContent (ed opened) ∧
  isModified (ed reverted) = true.
Proof. cbv zeta. repeat split; reflexivity. Qed.

(** C4 as stated fails at that input: right after the read the flag is
    false although the buffer differs from the snapshot, and after an
    edit that is reverted the flag is true although the buffer is what
    was loaded into the textarea. *)
Lemma crlf_file_flag_is_not_exact :
  let opened :=
    exec (on_FILE_CONTENT (ReadOk "/p/a.txt" crlfContent "a.txt" "txt")) initialWorld in
  let reverted :=
    exec (on_input lfContent 3 3) (exec (on_input (lfContent +:+ "x") 4 4) opened) in
  ¬ (isModified (ed opened) = true ↔ textarea (ed opened) ≠ originalContent (ed opened)) ∧
  ¬ (isModified (ed reverted) = true ↔ textarea (ed reverted) ≠ textarea (ed opened)).
Proof.
  cbv zeta. split.
  - intros [_ Hflag]. assert (false = true) as Habsurd; [|discriminate Habsurd].
    apply Hflag. vm_compute. discriminate.
  - intros [Hflag _]. apply Hflag; reflexivity.
Qed.

(** C6.  Closing a modified session and declining the confirmation
    returns the world as it was: file path, snapshot, buffer, flag,
    origin and overlay are untouched, and the log holds the
    confirmation dialog only, so no focus call is made. *)
Theorem closeEditor_declined_changes_nothing (w : World) :
  isModified (ed w) = true →
  closeEditor false w = (tt, w, [Confirm "You have unsaved changes. Close anyway?"]).
Proof.
  intros Hm. unfold closeEditor, confirm, emit, gets, skip, mbind, M_bind, mret, M_ret.
  cbn beta iota. rewrite Hm. reflexivity.
Qed.

Lemma saveFile_run (w : World) :
  JS.truthy (currentEditingFile (ed w)) = true →
  saveFile w = (tt, w, [Send (WRITE_FILE (currentEditingFile (ed w)) (textarea (ed w)))]).
Proof.
  intros Hopen. unfold saveFile, emit, gets, skip, mbind, M_bind, mret, M_ret.
  cbn beta iota. rewrite Hopen. reflexivity.
Qed.

Lemma on_input_buffer (value : string) (a b : nat) (w : World) :
  textarea (ed (exec (on_input value a b) w)) = value.
Proof.
  unfold_editor. cbn.
  destruct (String.eqb value (originalContent (ed w))), (editorStatus (ed w)); reflexivity.
Qed.

Lemma on_FILE_SAVED_ok_run (w : World) :
  let w' := exec (on_FILE_SAVED SaveOk) w in
  originalContent (ed w') = textarea (ed w) ∧
  isModified (ed w') = false ∧
  textarea (ed w') = textarea (ed w).
Proof.
  unfold_editor. cbn.
  destruct (editorStatus (ed w)), (onFileTreeRefreshCallback (ed w)); cbn;
    repeat split; reflexivity.
Qed.

Lemma on_input_log (value : string) (a b : nat) (w : World) :
  logOf (on_input value a b) w = [].
Proof.
  unfold_editor. cbn.
  destruct (String.eqb value (originalContent (ed w))), (editorStatus (ed w)); reflexivity.
Qed.

Lemma on_FILE_SAVED_ok_log (w : World) :
  logOf (on_FILE_SAVED SaveOk) w =
    if onFileTreeRefreshCallback (ed w) then [FileTreeRefresh] else [].
Proof.
  unfold_editor. cbn.
  destruct (editorStatus (ed w)), (onFileTreeRefreshCallback (ed w)); reflexivity.
Qed.

(** C10.  A save request carries the buffer of the moment it is made;
    when the successful result arrives, the snapshot becomes the buffer
    of that later moment.  So after save, an edit to [value], and the
    result, the session is clean with snapshot [value], although the
    one write request carried the earlier buffer and neither the edit
    nor the result sends anything. *)
Theorem save_result_snapshots_buffer_at_arrival
    (w : World) (value : string) (a b : nat) :
  JS.truthy (currentEditingFile (ed w)) = true →
  let w1 := exec saveFile w in
  let w2 := exec (on_input value a b) w1 in
  let w3 := exec (on_FILE_SAVED SaveOk) w2 in
  logOf saveFile w = [Send (WRITE_FILE (currentEditingFile (ed w)) (textarea (ed w)))] ∧
  (∀ m, Send m ∉ logOf (on_input value a b) w1 ++ logOf (on_FILE_SAVED SaveOk) w2) ∧
  textarea (ed w3) = value ∧
  originalContent (ed w3) = value ∧
  isModified (ed w3) = false.
Proof.
  intros Hopen. cbv zeta.
  assert (exec saveFile w = w) as ->
    by (unfold exec; rewrite (saveFile_run w Hopen); reflexivity).
  assert (logOf saveFile w =
          [Send (WRITE_FILE (currentEditingFile (ed w)) (textarea (ed w)))]) as ->
    by (unfold logOf; rewrite (saveFile_run w Hopen); reflexivity).
  destruct (on_FILE_SAVED_ok_run (exec (on_input value a b) w)) as (Hsnap & Hflag & Hbuf).
  rewrite Hsnap, Hflag, Hbuf, on_input_buffer, on_input_log, on_FILE_SAVED_ok_log.
  split; [reflexivity|]. split; [|repeat split; reflexivity].
  intros m Hin. apply list_elem_of_In in Hin. cbn [app] in Hin. absurd_in.
Qed.

End EditorSession.

(** ** FileTreeNavigator: the file tree *)

Section FileTree.

Import FileTreeJs.

(** Induction on wrappers that reaches into the containers. *)
Lemma Wrapper_nested_ind (P : Wrapper → Prop) :
  (∀ it, P (mkWrapper it None)) →
  (∀ it d ws, Forall P ws → P (mkWrapper it (Some (d, ws)))) →
  ∀ w, P w.
Proof.
  intros Hleaf Hnode. fix IH 1. intros [it [[d ws]|]]; [|apply Hleaf].
  apply Hnode. induction ws as [|w ws IHws]; constructor; [apply IH|exact IHws].
Qed.

Lemma FileEntry_nested_ind (P : FileEntry → Prop) :
  (∀ name path isDirectory children,
     Forall P children → P (mkFileEntry name path isDirectory children)) →
  ∀ f, P f.
Proof.
  intros Hnode. fix IH 1. intros [name path isDirectory children].
  apply Hnode. induction children as [|c cs IHcs]; constructor; [apply IH|exact IHcs].
Qed.

Lemma flat_map_ext_Forall {A B} (f g : A → list B) (l : list A) :
  Forall (λ x, f x = g x) l → flat_map f l = flat_map g l.
Proof. induction 1 as [|x l Hx _ IH]; cbn; [reflexivity|]. rewrite Hx, IH. reflexivity. Qed.

Lemma flat_map_nil_Forall {A B} (f : A → list B) (l : list A) :
  Forall (λ x, f x = []) l → flat_map f l = [].
Proof. induction 1 as [|x l Hx _ IH]; cbn; [reflexivity|]. rewrite Hx, IH. reflexivity. Qed.

Lemma keepVisible_app (l1 l2 : list (FileItem * list bool)) :
  keepVisible (l1 ++ l2) = keepVisible l1 ++ keepVisible l2.
Proof. unfold keepVisible. rewrite list.filter_app, map_app. reflexivity. Qed.

Lemma keepVisible_flat_map {A} (f : A → list (FileItem * list bool)) (l : list A) :
  keepVisible (flat_map f l) = flat_map (λ x, keepVisible (f x)) l.
Proof.
  induction l as [|x l IH]; [reflexivity|]. cbn [flat_map].
  rewrite keepVisible_app, IH. reflexivity.
Qed.

(** The ancestor walk keeps exactly the items the data model calls
    visible: under a hidden container nothing, otherwise [shownOf]. *)
Lemma keepVisible_itemsOf (w : Wrapper) (above : list bool) :
  keepVisible (itemsOf above w) = if forallb negb above then shownOf w else [].
Proof.
  revert above. induction w as [it|it d ws IH] using Wrapper_nested_ind; intros above.
  - cbn. unfold keepVisible. cbn. unfold filter. cbn.
    destruct (forallb negb above) eqn:Habove.
    + rewrite decide_True by reflexivity. reflexivity.
    + rewrite decide_False by discriminate. reflexivity.
  - cbn [itemsOf shownOf].
    change ((it, above) :: flat_map (itemsOf (d :: above)) ws)
      with ([(it, above)] ++ flat_map (itemsOf (d :: above)) ws).
    rewrite keepVisible_app, keepVisible_flat_map.
    assert (keepVisible [(it, above)] = if forallb negb above then [it] else []) as ->.
    { unfold keepVisible, filter. cbn. destruct (forallb negb above).
      - rewrite decide_True by reflexivity. reflexivity.
      - rewrite decide_False by discriminate. reflexivity. }
    rewrite (flat_map_ext_Forall _ (λ x, if forallb negb (d :: above) then shownOf x else [])).
    2:{ eapply Forall_impl; [|exact IH]. intros x Hx. apply Hx. }
    cbn [forallb]. destruct d, (forallb negb above); cbn.
    + rewrite flat_map_nil_Forall; [reflexivity|]. apply Forall_forall. reflexivity.
    + rewrite flat_map_nil_Forall; [reflexivity|]. apply Forall_forall. reflexivity.
    + reflexivity.
    + rewrite flat_map_nil_Forall; [reflexivity|]. apply Forall_forall. reflexivity.
Qed.

Lemma visibleItems_shownOf (tree : list Wrapper) :
  visibleItems tree = flat_map shownOf tree.
Proof.
  unfold visibleItems, allItems. change (map fst (filter ?P ?l)) with (keepVisible l).
  rewrite keepVisible_flat_map. apply flat_map_ext_Forall, Forall_forall.
  intros w _. apply keepVisible_itemsOf.
Qed.

(** [getVisibleItems] returns the items that are [Shown]. *)
Lemma shownOf_Shown (w : Wrapper) :
  ∀ x tree, In x (shownOf w) → w ∈ tree → Shown tree x.
Proof.
  induction w as [it|it d ws IH] using Wrapper_nested_ind; intros x tree Hx Hw.
  - destruct Hx as [<-|[]]. eapply shown_top, Hw.
  - destruct Hx as [<-|Hx]; [eapply shown_top, Hw|].
    destruct d; [destruct Hx|].
    apply in_flat_map in Hx as (w' & Hw' & Hx).
    eapply shown_inside; [exact Hw|].
    rewrite Forall_forall in IH. eapply IH; [exact Hw'|exact Hx|].
    apply list_elem_of_In, Hw'.
Qed.

Lemma Shown_visibleItems (tree : list Wrapper) (x : FileItem) :
  x ∈ visibleItems tree ↔ Shown tree x.
Proof.
  rewrite visibleItems_shownOf, list_elem_of_In. split.
  - intros Hx. apply in_flat_map in Hx as (w & Hw & Hx).
    eapply shownOf_Shown; [exact Hx|]. apply list_elem_of_In, Hw.
  - induction 1 as [tree it kids Hw|tree parent ws x Hw _ IH].
    + apply in_flat_map. eexists. split; [apply list_elem_of_In, Hw|]. left. reflexivity.
    + apply in_flat_map. eexists. split; [apply list_elem_of_In, Hw|]. right. exact IH.
Qed.

Lemma at_elem_of (items : list FileItem) (i : Z) (x : FileItem) :
  at_ items i = Some x → x ∈ items.
Proof.
  unfold at_. destruct (i <? 0)%Z; [discriminate|].
  intros Hx. eapply list_elem_of_lookup_2, Hx.
Qed.

Lemma at_of_nat (items : list FileItem) (i : nat) : at_ items (Z.of_nat i) = items !! i.
Proof.
  unfold at_. destruct (Z.ltb_spec (Z.of_nat i) 0); [lia|]. rewrite Nat2Z.id. reflexivity.
Qed.

(** With distinct elements, [indexOf] finds an item where it stands. *)
Lemma indexOfFrom_lookup (items : list FileItem) (k : Z) (i : nat) (x : FileItem) :
  NoDup (map element items) → items !! i = Some x →
  indexOfFrom k items (element x) = (k + Z.of_nat i)%Z.
Proof.
  revert k i. induction items as [|y items IH]; intros k i Hnd Hx; [discriminate|].
  cbn [map] in Hnd. apply list.NoDup_cons in Hnd as [Hy Hnd]. cbn [indexOfFrom].
  destruct i as [|i]; cbn in Hx.
  - injection Hx as ->. rewrite Nat.eqb_refl. lia.
  - destruct (Nat.eqb_spec (element y) (element x)) as [Heq|_].
    + exfalso. apply Hy. rewrite Heq. apply list_elem_of_In, in_map, list_elem_of_In.
      eapply list_elem_of_lookup_2, Hx.
    + rewrite (IH (k + 1)%Z i Hnd Hx). lia.
Qed.

Lemma nextIndex_wraps (n i : nat) :
  i < n →
  (if (Z.of_nat i <? Z.of_nat n - 1)%Z then (Z.of_nat i + 1)%Z else 0%Z)
    = Z.of_nat (nextIndex n i).
Proof.
  intros Hi. unfold nextIndex. destruct (Z.ltb_spec (Z.of_nat i) (Z.of_nat n - 1)).
  - rewrite Nat.mod_small by lia. lia.
  - assert (i + 1 = n) as -> by lia. rewrite Nat.Div0.mod_same. reflexivity.
Qed.

Lemma previousIndex_wraps (n i : nat) :
  i < n →
  (if (Z.of_nat i >? 0)%Z then (Z.of_nat i - 1)%Z else (Z.of_nat n - 1)%Z)
    = Z.of_nat (previousIndex n i).
Proof.
  intros Hi. unfold previousIndex. destruct (Z.gtb_spec (Z.of_nat i) 0).
  - replace (i + n - 1) with ((i - 1) + 1 * n) by lia.
    rewrite Nat.Div0.mod_add, Nat.mod_small by lia. lia.
  - assert (i = 0) as -> by lia. rewrite Nat.mod_small by lia. lia.
Qed.

(** The arrow keys only move the cursor: the new cursor is the entry of
    the visible list at the index the handler computes. *)
Lemma handleKeydown_ArrowDown_run (w : World) (tree : list Wrapper) :
  fileTreeElement (ft w) = Some tree →
  let items := visibleItems tree in
  let current := indexOf items (focusedItem (ft w)) in
  let target :=
    at_ items (if (current <? Z.of_nat (length items) - 1)%Z then (current + 1)%Z else 0%Z) in
  exec (handleKeydown "ArrowDown") w =
    mkWorld (st w) (ed w)
      (mkFileTreeVars (Some tree) target (onFileClickCallback (ft w))
         (keyboardSetup (ft w)) (allocated (ft w)))
      (tp w) (window w).
Proof.
  intros Htree. cbv zeta.
  unfold exec, handleKeydown, getVisibleItems, set_focusedItem, focusElement, setFt,
    modify, emit, gets, when, skip, mbind, M_bind, mret, M_ret.
  cbn beta iota. rewrite Htree. cbn.
  destruct (at_ _ _); cbn; rewrite Htree; reflexivity.
Qed.

Lemma handleKeydown_ArrowUp_run (w : World) (tree : list Wrapper) :
  fileTreeElement (ft w) = Some tree →
  let items := visibleItems tree in
  let current := indexOf items (focusedItem (ft w)) in
  let target :=
    at_ items (if (current >? 0)%Z then (current - 1)%Z
               else (Z.of_nat (length items) - 1)%Z) in
  exec (handleKeydown "ArrowUp") w =
    mkWorld (st w) (ed w)
      (mkFileTreeVars (Some tree) target (onFileClickCallback (ft w))
         (keyboardSetup (ft w)) (allocated (ft w)))
      (tp w) (window w).
Proof.
  intros Htree. cbv zeta.
  unfold exec, handleKeydown, getVisibleItems, set_focusedItem, focusElement, setFt,
    modify, emit, gets, when, skip, mbind, M_bind, mret, M_ret.
  cbn beta iota. rewrite Htree. cbn.
  destruct (at_ _ _); cbn; rewrite Htree; reflexivity.
Qed.

(** *** Elements stay distinct *)

Lemma everyItemOf_setDisplay (f : bool → bool) (e : Element) (w : Wrapper) :
  everyItemOf (setDisplay f e w) = everyItemOf w.
Proof.
  induction w as [it|it d ws IH] using Wrapper_nested_ind; [reflexivity|].
  cbn [setDisplay everyItemOf]. f_equal.
  induction IH as [|w ws Hw _ IHws]; [reflexivity|].
  cbn [map flat_map]. rewrite Hw, IHws. reflexivity.
Qed.

Lemma elementsOf_setDisplay (f : bool → bool) (e : Element) (tree : list Wrapper) :
  elementsOf (map (setDisplay f e) tree) = elementsOf tree.
Proof.
  unfold elementsOf. f_equal.
  induction tree as [|w tree IH]; [reflexivity|].
  cbn [map flat_map]. rewrite everyItemOf_setDisplay, IH. reflexivity.
Qed.

(** The local loop of [renderFile] is [renderFileTree]. *)
Lemma renderFile_directory (name path : string) (c : FileEntry) (cs : list FileEntry) (n : nat) :
  renderFile (mkFileEntry name path true (c :: cs)) n =
    (mkWrapper (mkFileItem n true path) (Some (true, (renderFileTree (c :: cs) (S n)).1)),
     (renderFileTree (c :: cs) (S n)).2).
Proof.
  change (renderFile (mkFileEntry name path true (c :: cs)) n)
    with (let '(ws, next') := renderFileTree (c :: cs) (S n) in
          (mkWrapper (mkFileItem n true path) (Some (true, ws)), next')).
  destruct (renderFileTree (c :: cs) (S n)). reflexivity.
Qed.

Lemma freshFrom_app (n m k : nat) (l1 l2 : list FileItem) :
  freshFrom n l1 m → freshFrom m l2 k → freshFrom n (l1 ++ l2) k.
Proof.
  intros (H1 & Hnd1 & Hin1) (H2 & Hnd2 & Hin2). split; [lia|]. rewrite map_app. split.
  - apply list.NoDup_app. split; [exact Hnd1|]. split; [|exact Hnd2].
    intros e He1 He2. apply Hin1 in He1. apply Hin2 in He2. lia.
  - intros e He. apply elem_of_app in He as [He|He]; [apply Hin1 in He|apply Hin2 in He]; lia.
Qed.

Lemma renderFileTree_fresh_of (files : list FileEntry) :
  Forall (λ f, ∀ n, freshFrom n (everyItemOf (renderFile f n).1) (renderFile f n).2) files →
  ∀ n, freshFrom n (flat_map everyItemOf (renderFileTree files n).1) (renderFileTree files n).2.
Proof.
  induction 1 as [|f files Hf _ IH]; intros n.
  - cbn. split; [lia|]. split; [constructor|]. intros e He. inversion He.
  - cbn [renderFileTree]. specialize (Hf n). destruct (renderFile f n) as [w n1].
    specialize (IH n1). destruct (renderFileTree files n1) as [ws n2].
    cbn [fst snd flat_map] in *. eapply freshFrom_app; [exact Hf|exact IH].
Qed.

Lemma renderFile_fresh (f : FileEntry) (n : nat) :
  freshFrom n (everyItemOf (renderFile f n).1) (renderFile f n).2.
Proof.
  revert n. induction f as [name path isDirectory children IH] using FileEntry_nested_ind.
  intros n.
  assert (freshFrom n [mkFileItem n isDirectory path] (S n)) as Hitem.
  { split; [lia|]. split.
    - cbn. apply list.NoDup_cons. split; [intros He; inversion He|constructor].
    - intros e He. cbn in He. apply list_elem_of_singleton in He. lia. }
  destruct isDirectory, children as [|c cs]; try (cbn; exact Hitem).
  rewrite renderFile_directory. cbn [fst snd everyItemOf].
  change (?x :: ?l) with ([x] ++ l).
  eapply freshFrom_app; [exact Hitem|]. apply renderFileTree_fresh_of, IH.
Qed.

Lemma renderFileTree_distinct (files : list FileEntry) (n : nat) :
  NoDup (elementsOf (renderFileTree files n).1).
Proof.
  unfold elementsOf. eapply renderFileTree_fresh_of, Forall_forall.
  intros f _. apply renderFile_fresh.
Qed.

Lemma keepsElements_bind {A B} (m : M A) (f : A → M B) :
  keepsElements m → (∀ x, keepsElements (f x)) → keepsElements (m ≫= f).
Proof. intros Hm Hf w. rewrite exec_bind, Hf, Hm. reflexivity. Qed.

Lemma keepsElements_pure {A} (m : M A) :
  (∀ w, exec m w = w) → keepsElements m.
Proof. intros Hm w. rewrite Hm. reflexivity. Qed.

Lemma keepsElements_when (c : bool) (m : M unit) :
  keepsElements m → keepsElements (when c m).
Proof. intros Hm. destruct c; [exact Hm|]. apply keepsElements_pure. reflexivity. Qed.

Lemma keepsElements_set_focusedItem (it : option FileItem) :
  keepsElements (set_focusedItem it).
Proof. intros w. reflexivity. Qed.

Lemma keepsElements_updateDisplay (f : bool → bool) (it : FileItem) :
  keepsElements (updateDisplay f it).
Proof.
  intros w. unfold exec, updateDisplay, set_fileTreeElement, setFt, modify, gets, skip,
    mbind, M_bind, mret, M_ret. cbn.
  destruct (fileTreeElement (ft w)) as [tree|] eqn:Htree; cbn; rewrite ?Htree; cbn;
    rewrite ?elementsOf_setDisplay; reflexivity.
Qed.

Lemma keepsElements_click (it : FileItem) : keepsElements (click it).
Proof.
  unfold click. destruct (folder it); [apply keepsElements_updateDisplay|].
  apply keepsElements_bind; [apply keepsElements_pure; reflexivity|].
  intros cb. apply keepsElements_when, keepsElements_pure. reflexivity.
Qed.

Lemma keepsElements_focus : keepsElements focus.
Proof.
  intros w. unfold exec, focus, getVisibleItems, set_focusedItem, set_keyboardSetup, setFt,
    modify, emit, gets, skip, mbind, M_bind, mret, M_ret. cbn.
  destruct (fileTreeElement (ft w)) as [tree|] eqn:Htree; cbn; [|rewrite Htree; reflexivity].
  rewrite Htree. cbn. destruct (visibleItems tree); cbn; rewrite Htree; reflexivity.
Qed.

Lemma keepsElements_handleKeydown (key : string) : keepsElements (handleKeydown key).
Proof.
  unfold handleKeydown.
  apply keepsElements_bind.
  { apply keepsElements_pure. intros w.
    unfold exec, getVisibleItems, gets, mbind, M_bind, mret, M_ret. cbn.
    destruct (fileTreeElement (ft w)); reflexivity. }
  intros items. apply keepsElements_bind; [apply keepsElements_pure; reflexivity|].
  intros fi. apply keepsElements_bind.
  { apply keepsElements_when, keepsElements_bind; [apply keepsElements_set_focusedItem|].
    intros _. unfold focusElement. destruct (at_ _ _); apply keepsElements_pure; reflexivity. }
  intros _. apply keepsElements_bind; [apply keepsElements_pure; reflexivity|].
  intros fi'. apply keepsElements_bind.
  { apply keepsElements_when. destruct fi'; [apply keepsElements_updateDisplay|].
    apply keepsElements_pure. reflexivity. }
  intros _. apply keepsElements_bind.
  { apply keepsElements_when. destruct fi'; [apply keepsElements_updateDisplay|].
    apply keepsElements_pure. reflexivity. }
  intros _. apply keepsElements_bind.
  { apply keepsElements_when. destruct fi'; [apply keepsElements_click|].
    apply keepsElements_pure. reflexivity. }
  intros _. apply keepsElements_when, keepsElements_bind;
    [apply keepsElements_pure; reflexivity|].
  intros tf. apply keepsElements_when, keepsElements_pure. reflexivity.
Qed.

Lemma keepsElements_distinct (m : M unit) (w : World) :
  keepsElements m → distinctElements w → distinctElements (exec m w).
Proof.
  intros Hm Hw tree' Htree'. specialize (Hm w). rewrite Htree' in Hm. cbn in Hm.
  destruct (fileTreeElement (ft w)) as [tree|] eqn:Htree; [|discriminate].
  injection Hm as ->. apply Hw. exact Htree.
Qed.

Lemma on_FILE_TREE_DATA_distinct (files : list FileEntry) (w : World) :
  distinctElements (exec (on_FILE_TREE_DATA files) w).
Proof.
  intros tree. unfold exec, on_FILE_TREE_DATA, clearFileTree, set_fileTreeElement,
    set_allocated, setFt, modify, gets, when, skip, mbind, M_bind, mret, M_ret. cbn.
  destruct (fileTreeElement (ft w)) as [old|] eqn:Hold; cbn.
  - pose proof (renderFileTree_distinct files (allocated (ft w))) as Hnd.
    destruct (renderFileTree files (allocated (ft w))) as [ws n']. cbn.
    intros [= <-]. exact Hnd.
  - rewrite Hold. cbn. rewrite Hold. discriminate.
Qed.

(** Every event of the file tree keeps its elements distinct. *)
Lemma treeEvent_distinct (e : TreeEvent) (w : World) :
  distinctElements w → distinctElements (exec (treeEvent e) w).
Proof.
  intros Hw. destruct e as [files|it|key| |]; cbn [treeEvent].
  - apply on_FILE_TREE_DATA_distinct.
  - apply keepsElements_distinct; [apply keepsElements_click|exact Hw].
  - apply keepsElements_distinct; [apply keepsElements_handleKeydown|exact Hw].
  - apply keepsElements_distinct; [apply keepsElements_focus|exact Hw].
  - apply keepsElements_distinct; [apply keepsElements_set_focusedItem|exact Hw].
Qed.

Lemma history_distinct (history : list TreeEvent) (w : World) :
  distinctElements w → distinctElements (exec (run (map treeEvent history)) w).
Proof.
  revert w. induction history as [|e history IH]; intros w Hw; [exact Hw|].
  cbn [map]. unfold run. cbn [forEach]. rewrite exec_bind.
  apply IH, treeEvent_distinct, Hw.
Qed.

(** The visible items are some of the items of the tree, in order. *)
Lemma flat_map_sublist {A B} (f g : A → list B) (l : list A) :
  Forall (λ x, sublist (f x) (g x)) l → sublist (flat_map f l) (flat_map g l).
Proof.
  induction 1 as [|x l Hx _ IH]; cbn; [constructor|]. apply sublist_app; assumption.
Qed.

Lemma map_sublist {A B} (f : A → B) (l k : list A) :
  sublist l k → sublist (map f l) (map f k).
Proof. induction 1; cbn; constructor; assumption. Qed.

Lemma shownOf_sublist (w : Wrapper) : sublist (shownOf w) (everyItemOf w).
Proof.
  induction w as [it|it d ws IH] using Wrapper_nested_ind.
  - cbn. apply sublist_skip. constructor.
  - cbn [shownOf everyItemOf]. apply sublist_skip.
    destruct d; [apply sublist_nil_l|]. apply flat_map_sublist, IH.
Qed.

Lemma visibleItems_distinct (tree : list Wrapper) :
  NoDup (elementsOf tree) → NoDup (map element (visibleItems tree)).
Proof.
  intros Hnd. apply (sublist_NoDup _ (elementsOf tree)); [exact Hnd|]. unfold elementsOf.
  rewrite visibleItems_shownOf. apply map_sublist, flat_map_sublist, Forall_forall.
  intros w _. apply shownOf_sublist.
Qed.

Lemma indexOf_lookup (items : list FileItem) (i : nat) (x : FileItem) :
  NoDup (map element items) → items !! i = Some x → indexOf items (Some x) = Z.of_nat i.
Proof. intros Hnd Hx. cbn. rewrite (indexOfFrom_lookup items 0 i x Hnd Hx). lia. Qed.

(** The items of the traversal are the items of the tree. *)
Lemma map_flat_map {A B C} (f : B → C) (g : A → list B) (l : list A) :
  map f (flat_map g l) = flat_map (λ x, map f (g x)) l.
Proof.
  induction l as [|x l IH]; [reflexivity|]. cbn [flat_map]. rewrite map_app, IH. reflexivity.
Qed.

Lemma itemsOf_fst (w : Wrapper) (above : list bool) :
  map fst (itemsOf above w) = everyItemOf w.
Proof.
  revert above. induction w as [it|it d ws IH] using Wrapper_nested_ind; intros above;
    [reflexivity|].
  cbn [itemsOf everyItemOf map fst]. f_equal. rewrite map_flat_map.
  apply flat_map_ext_Forall. eapply Forall_impl; [|exact IH]. intros x Hx. apply Hx.
Qed.

Lemma allItems_elements (tree : list Wrapper) :
  map (λ p, element p.1) (allItems tree) = elementsOf tree.
Proof.
  unfold allItems, elementsOf. rewrite <- (map_map fst element). f_equal.
  rewrite map_flat_map. apply flat_map_ext_Forall, Forall_forall.
  intros w _. apply itemsOf_fst.
Qed.

Lemma NoDup_map_eq {A B} (f : A → B) (l : list A) (a b : A) :
  NoDup (map f l) → a ∈ l → b ∈ l → f a = f b → a = b.
Proof.
  induction l as [|x l IH]; intros Hnd Ha Hb Heq; [inversion Ha|].
  cbn [map] in Hnd. apply list.NoDup_cons in Hnd as [Hx Hnd].
  apply elem_of_cons in Ha as [->|Ha], Hb as [->|Hb].
  - reflexivity.
  - exfalso. apply Hx. rewrite Heq. apply list_elem_of_In, in_map, list_elem_of_In, Hb.
  - exfalso. apply Hx. rewrite <- Heq. apply list_elem_of_In, in_map, list_elem_of_In, Ha.
  - apply IH; assumption.
Qed.

(** In a tree with distinct elements, no container above a visible
    item is hidden. *)
Lemma visible_item_has_no_hidden_ancestor
    (tree : list Wrapper) (x y : FileItem) (chain : list bool) :
  NoDup (elementsOf tree) → x ∈ visibleItems tree →
  (y, chain) ∈ allItems tree → element y = element x →
  forallb negb chain = true.
Proof.
  intros Hnd Hx Hy Heq. unfold visibleItems in Hx.
  apply list_elem_of_In, in_map_iff in Hx as ([x' chain'] & Hfst & Hx).
  cbn in Hfst. subst x'. apply list_elem_of_In, list_elem_of_filter in Hx as [Hvisible Hx].
  rewrite <- allItems_elements in Hnd.
  assert ((y, chain) = (x, chain')) as [= _ ->]; [|exact Hvisible].
  eapply (NoDup_map_eq (λ p, element p.1)); [exact Hnd|exact Hy|exact Hx|exact Heq].
Qed.

(** The index [indexOf] returns is [-1] or a position of the list, and
    it is [-1] for an element that is not in the list. *)
Lemma indexOfFrom_range (items : list FileItem) (k : Z) (e : Element) :
  indexOfFrom k items e = (-1)%Z ∨
  (k ≤ indexOfFrom k items e < k + Z.of_nat (length items))%Z.
Proof.
  revert k. induction items as [|x items IH]; intros k; [left; reflexivity|].
  cbn [indexOfFrom length]. destruct (element x =? e); [right; lia|].
  destruct (IH (k + 1)%Z) as [Habsent|Hfound]; [left; exact Habsent|right; lia].
Qed.

Lemma indexOfFrom_absent (items : list FileItem) (k : Z) (e : Element) :
  e ∉ map element items → indexOfFrom k items e = (-1)%Z.
Proof.
  revert k. induction items as [|x items IH]; intros k Habsent; [reflexivity|].
  cbn [indexOfFrom]. destruct (Nat.eqb_spec (element x) e) as [Heq|_].
  - exfalso. apply Habsent. rewrite <- Heq. left.
  - apply IH. intros Hin. apply Habsent. right. exact Hin.
Qed.

Lemma at_last (items : list FileItem) :
  at_ items (Z.of_nat (length items) - 1) = list.last items.
Proof.
  unfold at_. destruct items as [|x items]; [reflexivity|].
  destruct (Z.ltb_spec (Z.of_nat (length (x :: items)) - 1) 0) as [Hneg|_];
    [cbn [length] in Hneg; lia|].
  rewrite last_lookup. f_equal. cbn [length]. lia.
Qed.

(** C8.  Start from a tree whose elements are distinct and let any
    history of tree events happen (renderings, clicks, key presses,
    focus and blur), which collapses and expands directories at will.
    The visible list the handler works on is the list of the shown
    items in document order: the items all of whose ancestor
    directories are expanded, all of them and only them.  An ArrowDown
    or ArrowUp pressed then leaves the tree as it is and puts the cursor
    on an item of that list, one with no hidden container above it in
    the document, and on some item whenever the list is not empty.  When
    the cursor stood at index [i] of the visible list it moves to the
    next or the previous index, wrapping around at both ends; when there
    was no cursor, or the cursor was not in the list, ArrowDown goes to
    the first item and ArrowUp to the last. *)
Theorem arrow_keys_move_within_visible_items
    (w0 : World) (history : list TreeEvent) (down : bool) (tree : list Wrapper) :
  distinctElements w0 →
  let w := exec (run (map treeEvent history)) w0 in
  fileTreeElement (ft w) = Some tree →
  let items := visibleItems tree in
  let w' := exec (handleKeydown (if down then "ArrowDown" else "ArrowUp")) w in
  fileTreeElement (ft w') = Some tree ∧
  (∀ x, focusedItem (ft w') = Some x →
     x ∈ items ∧ Shown tree x ∧
     ∀ y chain, (y, chain) ∈ allItems tree → element y = element x →
       forallb negb chain = true) ∧
  (∀ i cur, focusedItem (ft w) = Some cur → items !! i = Some cur →
     focusedItem (ft w') =
       items !! (if down then nextIndex (length items) i
                 else previousIndex (length items) i)) ∧
  items = flat_map shownOf tree ∧
  (∀ x, x ∈ items ↔ Shown tree x) ∧
  (items ≠ [] → is_Some (focusedItem (ft w'))) ∧
  ((∀ cur, focusedItem (ft w) = Some cur → element cur ∉ map element items) →
   focusedItem (ft w') = if down then head items else list.last items).
Proof.
  intros Hw0. cbv zeta.
  pose proof (history_distinct history w0 Hw0) as Hw.
  set (w := exec (run (map treeEvent history)) w0) in *. intros Htree.
  pose proof (visibleItems_distinct tree (Hw tree Htree)) as Hnd.
  set (current := indexOf (visibleItems tree) (focusedItem (ft w))).
  set (len := Z.of_nat (length (visibleItems tree))).
  set (target :=
         if down then (if (current <? len - 1)%Z then (current + 1)%Z else 0%Z)
         else (if (current >? 0)%Z then (current - 1)%Z else (len - 1)%Z)).
  assert (exec (handleKeydown (if down then "ArrowDown" else "ArrowUp")) w =
            mkWorld (st w) (ed w)
              (mkFileTreeVars (Some tree) (at_ (visibleItems tree) target)
                 (onFileClickCallback (ft w)) (keyboardSetup (ft w)) (allocated (ft w)))
              (tp w) (window w)) as ->.
  { unfold target, current, len. destruct down.
    - apply handleKeydown_ArrowDown_run, Htree.
    - apply handleKeydown_ArrowUp_run, Htree. }
  assert (-1 ≤ current < len)%Z as Hindex.
  { unfold current, len, indexOf. destruct (focusedItem (ft w)) as [cur|]; [|lia].
    destruct (indexOfFrom_range (visibleItems tree) 0 (element cur)); lia. }
  cbn. split; [reflexivity|]. split; [|split; [|split; [|split; [|split]]]].
  - intros x Hx. apply at_elem_of in Hx. split; [exact Hx|].
    split; [apply Shown_visibleItems, Hx|]. intros y chain Hy Heq.
    exact (visible_item_has_no_hidden_ancestor tree x y chain (Hw tree Htree) Hx Hy Heq).
  - intros i cur Hcur Hi.
    assert (current = Z.of_nat i) as Hcurrent
      by (unfold current; rewrite Hcur; apply (indexOf_lookup _ i cur Hnd Hi)).
    assert (i < length (visibleItems tree)) as Hi' by (eapply lookup_lt_Some, Hi).
    unfold target. rewrite Hcurrent. unfold len. destruct down.
    + rewrite (nextIndex_wraps _ _ Hi'). apply at_of_nat.
    + rewrite (previousIndex_wraps _ _ Hi'). apply at_of_nat.
  - apply visibleItems_shownOf.
  - intros x. apply Shown_visibleItems.
  - intros Hitems.
    assert (0 < len)%Z as Hlen
      by (unfold len; destruct (visibleItems tree); [contradiction|cbn [length]; lia]).
    assert (0 ≤ target < len)%Z as Htarget.
    { unfold target. destruct down.
      - destruct (Z.ltb_spec current (len - 1)); lia.
      - destruct (Z.gtb_spec current 0); lia. }
    unfold at_. destruct (Z.ltb_spec target 0) as [Hneg|_]; [lia|].
    apply lookup_lt_is_Some. unfold len in Htarget. lia.
  - intros Habsent.
    assert (current = (-1)%Z) as Hcurrent.
    { unfold current, indexOf. destruct (focusedItem (ft w)) as [cur|]; [|reflexivity].
      apply indexOfFrom_absent, Habsent. reflexivity. }
    unfold target. rewrite Hcurrent. destruct down.
    + replace (if (-1 <? len - 1)%Z then (-1 + 1)%Z else 0%Z) with 0%Z
        by (destruct (-1 <? len - 1)%Z; reflexivity).
      rewrite head_lookup. reflexivity.
    + cbn [Z.gtb Z.compare]. apply at_last.
Qed.

End FileTree.

(** ** FocusCoordinator: where focus goes when the editor closes *)

Section FocusRestore.

Import FileTreeJs EditorJs.

Lemma contains_visible (tree : list Wrapper) (x : FileItem) :
  contains tree x = true → ∃ first rest, visibleItems tree = first :: rest.
Proof.
  rewrite visibleItems_shownOf. destruct tree as [|[it kids] tree]; [discriminate|].
  intros _. cbn. eauto.
Qed.

(** [focus] on a tree with a visible item: the remembered item if the
    tree still contains it, the first visible item otherwise. *)
Lemma focus_run (w : World) (tree : list Wrapper) (first : FileItem) (rest : list FileItem) :
  fileTreeElement (ft w) = Some tree →
  visibleItems tree = first :: rest →
  let target :=
    match focusedItem (ft w) with
    | Some x => if contains tree x then x else first
    | None => first
    end in
  focus w =
    (tt,
     mkWorld (st w) (ed w)
       (mkFileTreeVars (Some tree) (Some target) (onFileClickCallback (ft w)) true
          (allocated (ft w)))
       (tp w) (window w),
     [ElementFocus (element target)]).
Proof.
  intros Htree Hitems. cbv zeta.
  unfold focus, getVisibleItems, set_focusedItem, set_keyboardSetup, setFt, modify, emit,
    gets, skip, mbind, M_bind, mret, M_ret.
  cbn beta iota. rewrite !Htree. cbn beta iota. rewrite Hitems. cbn.
  rewrite ?Htree. reflexivity.
Qed.

(** A close that proceeds: the overlay is hidden, the focus call is
    made on that world, and the session variables are cleared. *)
Lemma closeEditor_proceeds_run (w : World) (answer : bool) :
  (isModified (ed w) = true → answer = true) →
  let hidden :=
    mkWorld (st w)
      (mkEditorVars (currentEditingFile (ed w)) (originalContent (ed w)) (isModified (ed w))
         (openedFromSource (ed w)) (onFileTreeRefreshCallback (ed w)) (textarea (ed w))
         (selectionStart (ed w)) (selectionEnd (ed w)) false (editorStatus (ed w)))
      (ft w) (tp w) (window w) in
  let restore :=
    if JS.strictEq (openedFromSource (ed w)) (Some "fileTree") && fileTreeFocus (window w)
    then focus
    else when (terminalFocus (window w)) (emit TerminalFocus) in
  let w1 := exec restore hidden in
  closeEditor answer w =
    (tt,
     mkWorld (st w1)
       (mkEditorVars None "" false None (onFileTreeRefreshCallback (ed w1)) (textarea (ed w1))
          (selectionStart (ed w1)) (selectionEnd (ed w1)) (overlayVisible (ed w1))
          (editorStatus (ed w1)))
       (ft w1) (tp w1) (window w1),
     closeDialog w ++ logOf restore hidden).
Proof.
  intros Hproceed. cbv zeta. unfold closeDialog, closeEditor, confirm.
  unfold set_overlayVisible, set_currentEditingFile, set_originalContent, set_isModified,
    set_openedFromSource, setEd, modify, emit, gets, skip, mbind, M_bind, mret, M_ret,
    exec, logOf.
  cbn beta iota.
  destruct (isModified (ed w)) eqn:Hm; rewrite ?(Hproceed eq_refl);
    cbn -[focus when JS.strictEq]; rewrite ?Hm;
    match goal with |- context [?r ?h] =>
      lazymatch r with (if _ then focus else _) => destruct (r h) as [[[] w1] l] end end;
    cbn; rewrite ?app_nil_r; reflexivity.
Qed.

(** C7.  When a close proceeds and both focus hooks are installed:
    for a session opened from the file tree, the file tree's [focus]
    runs and puts the focus on the remembered item if the tree still
    contains it, and on the first visible item otherwise; for every
    other origin the terminal is focused and the file tree is left
    alone. *)
Theorem close_restores_focus_by_origin (w : World) (answer : bool) :
  (isModified (ed w) = true → answer = true) →
  fileTreeFocus (window w) = true →
  terminalFocus (window w) = true →
  let w' := exec (closeEditor answer) w in
  let log := logOf (closeEditor answer) w in
  (openedFromSource (ed w) = Some "fileTree" →
     ∀ tree, fileTreeElement (ft w) = Some tree →
       (∀ x, focusedItem (ft w) = Some x → contains tree x = true →
          log = closeDialog w ++ [ElementFocus (element x)] ∧
          focusedItem (ft w') = Some x) ∧
       (∀ first rest, visibleItems tree = first :: rest →
          (∀ x, focusedItem (ft w) = Some x → contains tree x = false) →
          log = closeDialog w ++ [ElementFocus (element first)] ∧
          focusedItem (ft w') = Some first)) ∧
  (openedFromSource (ed w) ≠ Some "fileTree" →
     log = closeDialog w ++ [TerminalFocus] ∧ ft w' = ft w).
Proof.
  intros Hproceed Hhook Hterm. cbv zeta.
  pose proof (closeEditor_proceeds_run w answer Hproceed) as Hrun. cbv zeta in Hrun.
  rewrite Hhook, Hterm, andb_true_r in Hrun.
  match type of Hrun with _ = (_, mkWorld _ _ (ft (exec ?restore ?hidden)) _ _, _) =>
    assert (logOf (closeEditor answer) w = closeDialog w ++ logOf restore hidden) as ->
      by (unfold logOf at 1; rewrite Hrun; reflexivity);
    assert (ft (exec (closeEditor answer) w) = ft (exec restore hidden)) as ->
      by (unfold exec at 1; rewrite Hrun; reflexivity)
  end.
  clear Hrun. unfold JS.strictEq. split.
  - intros Horigin tree Htree. rewrite bool_decide_eq_true_2 by exact Horigin.
    split.
    + intros x Hx Hin. destruct (contains_visible tree x Hin) as (first & rest & Hitems).
      unfold exec, logOf. erewrite focus_run; [|exact Htree|exact Hitems].
      cbn. rewrite Hx, Hin. split; reflexivity.
    + intros first rest Hitems Hgone.
      unfold exec, logOf. erewrite focus_run; [|exact Htree|exact Hitems].
      cbn. destruct (focusedItem (ft w)) as [x|]; [|split; reflexivity].
      rewrite (Hgone x eq_refl). split; reflexivity.
  - intros Horigin. rewrite bool_decide_eq_false_2 by exact Horigin.
    split; reflexivity.
Qed.

End FocusRestore.

(** ** TaskStore: the tasks panel *)

Section TaskStore.

Import TasksPanelJs.

Lemma trimStart_blank (s : string) : JS.trimStart s = "" ↔ blank s = true.
Proof.
  unfold blank. induction s as [|c s IH]; cbn; [tauto|].
  destruct (JS.isWhiteSpace c); cbn; [exact IH|]. split; discriminate.
Qed.

Lemma trimEnd_blank (s : string) : JS.trimEnd s = "" ↔ blank s = true.
Proof.
  unfold blank. induction s as [|c s IH]; cbn; [tauto|].
  destruct (JS.trimEnd s) eqn:Hs.
  - destruct (JS.isWhiteSpace c); cbn.
    + split; [intros _; apply IH; reflexivity|reflexivity].
    + split; discriminate.
  - split; [discriminate|]. intros Hall. apply andb_prop in Hall as [_ Hall].
    apply IH in Hall. discriminate Hall.
Qed.

Lemma blank_trimStart (s : string) : blank (JS.trimStart s) = blank s.
Proof.
  unfold blank. induction s as [|c s IH]; cbn; [reflexivity|].
  destruct (JS.isWhiteSpace c) eqn:Hc; cbn; [exact IH|]. rewrite Hc. reflexivity.
Qed.

(** [trim] leaves nothing exactly of the blank strings. *)
Lemma trim_blank (s : string) : JS.trim s = "" ↔ blank s = true.
Proof. unfold JS.trim. rewrite trimEnd_blank, blank_trimStart. reflexivity. Qed.

Lemma truthyStr_trim (s : string) : JS.truthyStr (JS.trim s) = negb (blank s).
Proof.
  unfold JS.truthyStr. destruct (blank s) eqn:Hb.
  - apply trim_blank in Hb. rewrite Hb. reflexivity.
  - destruct (String.eqb_spec (JS.trim s) "") as [Heq|_]; [|reflexivity].
    apply trim_blank in Heq. congruence.
Qed.

(** C9.  With a project selected and the form in add mode: a blank
    title is refused on the spot, the log holds the alert only, so
    nothing is sent, and the world, with it the view, is unchanged; any
    other title sends exactly one [ADD_TASK] request, carrying the
    trimmed fields, and closes the form. *)
Theorem blank_title_sends_no_create_request (form : TaskForm) (w : World) :
  JS.truthy (currentProjectPath (st w)) = true →
  mode form = "add" →
  handleTaskFormSubmit form w =
    if blank (titleInput form)
    then (tt, w, [Alert "Task title is required"])
    else (tt, w,
          [Send (ADD_TASK (currentProjectPath (st w))
                   (mkTaskData (JS.trim (titleInput form)) (JS.trim (descriptionInput form))
                      (priorityInput form) (categoryInput form)));
           HideTaskModal]).
Proof.
  intros Hproject Hmode.
  unfold handleTaskFormSubmit, hideTaskModal, StateJs.getProjectPath, emit, gets, skip,
    mbind, M_bind, mret, M_ret.
  cbn beta iota. rewrite Hproject. cbn [negb td_title]. rewrite truthyStr_trim, Hmode.
  destruct (blank (titleInput form)); reflexivity.
Qed.

(** The push listener stores whatever snapshot arrives; the path that
    comes with it is not looked at. *)
Lemma on_TASKS_DATA_run (projectPath : JS.Value) (data : TasksFile) (w : World) :
  let v := mkTasksVars (isVisible (tp w)) (currentFilter (tp w)) (Some data)
             (panelElement (tp w)) (contentElement (tp w)) in
  on_TASKS_DATA projectPath (Some data) w =
    (tt, mkWorld (st w) (ed w) (ft w) v (window w),
     if contentElement (tp w) then [RenderTasks (filteredTasks v)] else []).
Proof.
  cbv zeta. unfold on_TASKS_DATA, render, getFilteredTasks, set_tasksData, setTp, modify,
    emit, gets, when, skip, mbind, M_bind, mret, M_ret.
  cbn. destruct (contentElement (tp w)); reflexivity.
Qed.

(** What the push listener does for every path: a push with a snapshot
    replaces the view by that snapshot and renders it, whatever project
    path comes with it; a push without a snapshot leaves the world as it
    was.  Project state is never touched. *)
Theorem tasks_push_replaces_view_for_any_path
    (projectPath : JS.Value) (pushed : option TasksFile) (w : World) :
  let w' := exec (on_TASKS_DATA projectPath pushed) w in
  let log := logOf (on_TASKS_DATA projectPath pushed) w in
  match pushed with
  | Some data =>
      tasksData (tp w') = Some data ∧
      st w' = st w ∧
      log = if contentElement (tp w) then [RenderTasks (filteredTasks (tp w'))] else []
  | None => w' = w ∧ log = []
  end.
Proof.
  cbv zeta. unfold exec, logOf. destruct pushed as [data|]; [|split; reflexivity].
  rewrite on_TASKS_DATA_run. cbn. repeat split; reflexivity.
Qed.

Lemma append_assoc (a b c : string) : (a +:+ b) +:+ c = a +:+ (b +:+ c).
Proof.
  induction a as [|x a IH]; [reflexivity|].
  change (String x ((a +:+ b) +:+ c) = String x (a +:+ (b +:+ c))). f_equal. exact IH.
Qed.

Lemma append_empty_r (a : string) : a +:+ "" = a.
Proof.
  induction a as [|x a IH]; [reflexivity|].
  change (String x (a +:+ "") = String x a). f_equal. exact IH.
Qed.

(** The prompt [sendTaskToClaude] builds is the command of the
    specification. *)
Lemma sendTaskToClaude_run (task : Task.t) (w : World) :
  terminalSendCommand (window w) = true →
  sendTaskToClaude task w = (tt, w, [TerminalSendCommand (startCommand task)]).
Proof.
  intros Hsend. unfold sendTaskToClaude, startCommand, emit, gets, mbind, M_bind.
  cbn beta iota. rewrite Hsend. unfold JS.strictEq, JS.truthyStr.
  do 3 f_equal.
  destruct (Task.description task) as [d|], (bool_decide (Task.priority task = Some "high"));
    try destruct (String.eqb d ""); cbn [negb];
    rewrite ?append_assoc, ?append_empty_r; reflexivity.
Qed.

Lemma requestStatus_run (projectPath : JS.Value) (taskId action newStatus message : string)
    (w : World) :
  JS.truthyStr newStatus = true →
  requestStatus projectPath taskId action newStatus message w =
    (tt, w,
     [Send (UPDATE_TASK projectPath taskId (StatusUpdate newStatus));
      Toast message (if String.eqb action "complete" then "success" else "info")]).
Proof.
  intros Hstatus. unfold requestStatus, showToast, emit, when, mbind, M_bind.
  rewrite Hstatus. reflexivity.
Qed.

(** C5.  With a project selected, the terminal hook installed and
    [task] the task the view finds for [taskId]: each of the four
    transitions sends one status update with the status of
    [targetStatus] and shows a toast; [start] first sends the terminal
    exactly one command, [startCommand task]; the other three send
    the terminal nothing.  [task] is any task of the view, so its
    current status plays no part. *)
Theorem task_action_requests_target_status
    (w : World) (taskId action newStatus : string) (answer : bool)
    (i : nat) (task : Task.t) :
  JS.truthy (currentProjectPath (st w)) = true →
  terminalSendCommand (window w) = true →
  list_find (λ t, Task.id t = taskId) (filteredTasks (tp w)) = Some (i, task) →
  targetStatus action = Some newStatus →
  exec (handleTaskAction taskId action answer) w = w ∧
  ∃ message kind,
    logOf (handleTaskAction taskId action answer) w =
      (if String.eqb action "start" then [TerminalSendCommand (startCommand task)] else []) ++
      [Send (UPDATE_TASK (currentProjectPath (st w)) taskId (StatusUpdate newStatus));
       Toast message kind].
Proof.
  intros Hproject Hsend Hfind Htarget.
  assert (∃ message,
            handleTaskAction taskId action answer w =
              (tt, w,
               (if String.eqb action "start"
                then [TerminalSendCommand (startCommand task)] else []) ++
               [Send (UPDATE_TASK (currentProjectPath (st w)) taskId (StatusUpdate newStatus));
                Toast message (if String.eqb action "complete" then "success" else "info")]))
    as (message & Hrun).
  { unfold handleTaskAction, getFilteredTasks, StateJs.getProjectPath, gets, skip.
    unfold mbind at 1 2, M_bind at 1 2. cbn beta iota. rewrite Hproject. cbn [negb].
    rewrite Hfind. cbn beta iota. unfold targetStatus in Htarget.
    destruct (String.eqb action "start") eqn:Hstart.
    - injection Htarget as <-. eexists. unfold mbind, M_bind.
      rewrite (sendTaskToClaude_run task w Hsend), requestStatus_run by reflexivity.
      destruct (String.eqb_spec action "start") as [->|]; [reflexivity|discriminate].
    - destruct (String.eqb action "complete") eqn:Hcomplete.
      { injection Htarget as <-. eexists. rewrite requestStatus_run by reflexivity.
        rewrite Hcomplete. reflexivity. }
      destruct (String.eqb action "pause").
      { injection Htarget as <-. eexists. rewrite requestStatus_run by reflexivity.
        rewrite Hcomplete. reflexivity. }
      destruct (String.eqb action "reopen"); [|discriminate].
      injection Htarget as <-. eexists. rewrite requestStatus_run by reflexivity.
      rewrite Hcomplete. reflexivity. }
  unfold exec, logOf. rewrite Hrun. split; [reflexivity|]. eauto.
Qed.

End TaskStore.

(** ** Scenarios *)

Section Scenarios.

Import StateJs FileTreeJs EditorJs TasksPanelJs.

Example browsing_cursor :
  focusedItem (ft browsing) = Some (mkFileItem 1 false "/p/src/main.js") ∧
  map element (visibleItems (treeOf browsing)) = [0; 1; 2; 4].
Proof. split; reflexivity. Qed.

Example editing_session :
  currentEditingFile (ed editing) = Some "/p/src/main.js" ∧
  openedFromSource (ed editing) = Some "fileTree" ∧
  isModified (ed editing) = false ∧ isModified (ed dirty) = true.
Proof. repeat split; reflexivity. Qed.

Example start_fix_bug :
  logOf (handleTaskAction "t1" "start" false) withTasks =
    [TerminalSendCommand "Work on this task: Fix bug";
     Send (UPDATE_TASK (Some "/p") "t1" (StatusUpdate "in_progress"));
     Toast "Task sent to Claude" "info"].
Proof. reflexivity. Qed.

Example start_add_tests :
  logOf (handleTaskAction "t2" "start" false) withTasks =
    [TerminalSendCommand "Work on this task: Add tests. cover the parser (High priority)";
     Send (UPDATE_TASK (Some "/p") "t2" (StatusUpdate "in_progress"));
     Toast "Task sent to Claude" "info"].
Proof. reflexivity. Qed.

Example listeners_run_in_registration_order :
  logOf (setProjectPath (Some "/q"))
        (exec (run [onProjectChange 7; onProjectChange 3; onFrameStatusChange 5]) projectOpen) =
    [UpdateProjectUI (Some "/q"); SetCurrentProject (Some "/q");
     Send (CHECK_IS_FRAME_PROJECT (Some "/q"));
     ProjectChange 7 (Some "/q") (Some "/p"); ProjectChange 3 (Some "/q") (Some "/p")].
Proof. reflexivity. Qed.

Example closing_the_project_clears_the_flag :
  logOf (setProjectPath None)
        (exec (run [onProjectChange 7; onFrameStatusChange 5]) projectOpen) =
    [UpdateProjectUI None; SetCurrentProject None; UpdateFrameUI false;
     FrameStatusChange 5 false; ProjectChange 7 None (Some "/p")].
Proof. reflexivity. Qed.

Example filter_in_progress :
  map Task.id (filteredTasks (tp (exec (setFilter "inProgress") withTasks))) = ["t2"] ∧
  map Task.status (filteredTasks (tp withTasks)) = ["pending"; "in_progress"].
Proof. split; reflexivity. Qed.

Example tab_inserts_two_spaces :
  textarea (ed (exec (run [on_input "ab" 1 1; on_keydown false "Tab" false]) editing))
    = "a  b".
Proof. reflexivity. Qed.

Example collapse_hides_the_cursor_then_arrow_down_goes_first :
  let w := exec (run [click (mkFileItem 0 true "/p/src")]) browsing in
  map element (visibleItems (treeOf w)) = [0; 4] ∧
  option_map element (focusedItem (ft (exec (handleKeydown "ArrowDown") w))) = Some 0 ∧
  option_map element (focusedItem (ft (exec (handleKeydown "ArrowUp") w))) = Some 4.
Proof. repeat split; reflexivity. Qed.

Example close_after_rerender_falls_back_to_first_item :
  logOf (closeEditor true) (exec (on_FILE_TREE_DATA sampleFiles) editing) = [ElementFocus 5].
Proof. reflexivity. Qed.

Example trim_examples :
  JS.trim "  Fix bug " = "Fix bug" ∧ JS.trim "   " = "" ∧ JS.trim "a b" = "a b".
Proof. repeat split; reflexivity. Qed.

End Scenarios.

(** ** The theorems at the scenarios *)

Section Witnesses.

Import StateJs FileTreeJs EditorJs TasksPanelJs.

(** C6 at scenario 4: the edited session survives a declined close. *)
Lemma declined_close_at_dirty :
  isModified (ed dirty) = true ∧
  closeEditor false dirty =
    (tt, dirty, [Confirm "You have unsaved changes. Close anyway?"]).
Proof.
  split; [reflexivity|].
  apply (closeEditor_declined_changes_nothing dirty). reflexivity.
Defined.

(** C10 at a save of ["let x"], an edit to ["let y"], then the save
    result: the session is clean on ["let y"], which was never written. *)
Lemma save_then_edit_at_editing :
  logOf saveFile editing = [Send (WRITE_FILE (Some "/p/src/main.js") "let x")] ∧
  originalContent
    (ed (exec (on_FILE_SAVED SaveOk) (exec (on_input "let y" 5 5) (exec saveFile editing))))
    = "let y" ∧
  isModified
    (ed (exec (on_FILE_SAVED SaveOk) (exec (on_input "let y" 5 5) (exec saveFile editing))))
    = false.
Proof.
  destruct (save_result_snapshots_buffer_at_arrival editing "let y" 5 5 eq_refl)
    as (Hsent & _ & _ & Hsnapshot & Hclean).
  split; [exact Hsent|]. split; [exact Hsnapshot|exact Hclean].
Defined.

(** C7 at scenario 5: closing the session opened from the file tree
    puts the focus back on [main.js], element 1, where the cursor was. *)
Lemma close_at_editing_returns_to_cursor :
  logOf (closeEditor true) editing = [ElementFocus 1] ∧
  focusedItem (ft (exec (closeEditor true) editing))
    = Some (mkFileItem 1 false "/p/src/main.js").
Proof.
  assert (isModified (ed editing) = true → true = true) as Hproceed by reflexivity.
  destruct (close_restores_focus_by_origin editing true Hproceed eq_refl eq_refl)
    as [HfileTree _].
  destruct (HfileTree eq_refl (treeOf editing) eq_refl) as [Hremembered _].
  exact (Hremembered (mkFileItem 1 false "/p/src/main.js") eq_refl eq_refl).
Defined.

Lemma initialWorld_distinct : distinctElements initialWorld.
Proof. intros tree [= <-]. constructor. Defined.

(** C8 at [main.js], index 1 of four visible items: ArrowDown goes to
    index 2 and ArrowUp to index 0. *)
Lemma arrows_at_browsing :
  focusedItem (ft (exec (handleKeydown "ArrowDown") browsing))
    = visibleItems (treeOf browsing) !! 2 ∧
  focusedItem (ft (exec (handleKeydown "ArrowUp") browsing))
    = visibleItems (treeOf browsing) !! 0.
Proof.
  split.
  - destruct (arrow_keys_move_within_visible_items initialWorld toMainJs true
                (treeOf browsing) initialWorld_distinct eq_refl) as (_ & _ & Hmove & _).
    exact (Hmove 1 (mkFileItem 1 false "/p/src/main.js") eq_refl eq_refl).
  - destruct (arrow_keys_move_within_visible_items initialWorld toMainJs false
                (treeOf browsing) initialWorld_distinct eq_refl) as (_ & _ & Hmove & _).
    exact (Hmove 1 (mkFileItem 1 false "/p/src/main.js") eq_refl eq_refl).
Defined.

(** C9 at scenario 2: a title of three spaces is refused. *)
Lemma blank_form_at_projectOpen :
  handleTaskFormSubmit blankForm projectOpen =
    (tt, projectOpen, [Alert "Task title is required"]).
Proof. exact (blank_title_sends_no_create_request blankForm projectOpen eq_refl eq_refl). Defined.

(** C5 at scenario 3: starting the task Fix bug, whose description is
    empty. *)
Lemma start_at_withTasks :
  exec (handleTaskAction "t1" "start" false) withTasks = withTasks ∧
  ∃ message kind,
    logOf (handleTaskAction "t1" "start" false) withTasks =
      [TerminalSendCommand "Work on this task: Fix bug";
       Send (UPDATE_TASK (Some "/p") "t1" (StatusUpdate "in_progress"));
       Toast message kind].
Proof.
  exact (task_action_requests_target_status withTasks "t1" "start" "in_progress" false
           0 fixBug eq_refl eq_refl eq_refl eq_refl).
Defined.

(** C2.  The code at the failing input: with project ["/p"] active and
    an empty view, a snapshot pushed for ["/elsewhere"] is stored and
    rendered as the view of the panel, and the active project is still
    ["/p"].  The listeners of [state.js] that receive a payload of the
    same shape compare its path with the current one; this one does
    not. *)
Theorem tasks_push_for_other_project_replaces_view :
  let w' := exec (on_TASKS_DATA (Some "/elsewhere") (Some sampleTasks)) projectOpen in
  currentProjectPath (st projectOpen) = Some "/p" ∧
  tasksData (tp projectOpen) = None ∧
  tasksData (tp w') = Some sampleTasks ∧
  currentProjectPath (st w') = Some "/p" ∧
  logOf (on_TASKS_DATA (Some "/elsewhere") (Some sampleTasks)) projectOpen =
    [RenderTasks [Task.withStatus "pending" fixBug; Task.withStatus "in_progress" addTests]].
Proof. cbv zeta. repeat split; reflexivity. Qed.

(** C2 as stated fails.  With project ["/p"] active and an empty view,
    a snapshot pushed for ["/elsewhere"] is not discarded: it becomes
    the view. *)
Lemma tasks_push_for_other_project_is_applied :
  ¬ (Some "/elsewhere" ≠ currentProjectPath (st projectOpen) →
     tasksData (tp (exec (on_TASKS_DATA (Some "/elsewhere") (Some sampleTasks)) projectOpen))
       = tasksData (tp projectOpen)).
Proof. intros Hkept. specialize (Hkept ltac:(discriminate)). discriminate Hkept. Qed.

End Witnesses.

(** * Further properties of the code *)

(** ** Project state *)

Section MoreProjectContext.

Import StateJs.

Lemma logOf_run_cons (m : M unit) (ms : list (M unit)) (w : World) :
  logOf (run (m :: ms)) w = logOf m w ++ logOf (run ms) (exec m w).
Proof. unfold run. cbn [forEach]. rewrite logOf_bind. reflexivity. Qed.

(** [setProjectPath] leaves the listener lists and the collaborators
    alone. *)
Lemma setProjectPath_keeps_listeners (path : JS.Value) (w : World) :
  let s' := st (exec (setProjectPath path) w) in
  onProjectChangeCallbacks s' = onProjectChangeCallbacks (st w) ∧
  onFrameStatusChangeCallbacks s' = onFrameStatusChangeCallbacks (st w) ∧
  onFrameInitializedCallbacks s' = onFrameInitializedCallbacks (st w) ∧
  multiTerminalUI s' = multiTerminalUI (st w) ∧
  initializeFrameBtn s' = initializeFrameBtn (st w).
Proof.
  unfold exec, setProjectPath, updateProjectUI, set_currentProjectPath, setSt,
    modify, getProjectPath, gets, when, skip, mbind, M_bind, mret, M_ret.
  destruct (JS.truthy path), (multiTerminalUI (st w)) eqn:Hui; cbn;
    rewrite ?Hui; cbn; rewrite ?setIsFrameProject_run; cbn;
    rewrite forEach_emit; cbn; repeat split; reflexivity.
Qed.

Lemma filter_map_all {A} (keep : Event → bool) (f : A → Event) (l : list A) :
  (∀ x, keep (f x) = true) → List.filter keep (map f l) = map f l.
Proof.
  intros Hall. induction l as [|x l IH]; [reflexivity|]. cbn. rewrite Hall, IH. reflexivity.
Qed.

Lemma filter_map_none {A} (keep : Event → bool) (f : A → Event) (l : list A) :
  (∀ x, keep (f x) = false) → List.filter keep (map f l) = [].
Proof.
  intros Hnone. induction l as [|x l IH]; [reflexivity|]. cbn. rewrite Hnone, IH. reflexivity.
Qed.

Lemma setProjectPath_calls (path : JS.Value) (w : World) :
  List.filter isProjectChange (logOf (setProjectPath path) w) =
    map (λ cb, ProjectChange cb path (currentProjectPath (st w)))
        (onProjectChangeCallbacks (st w)).
Proof.
  destruct (setProjectPath_run path w) as (_ & _ & ->).
  rewrite !List.filter_app, (filter_map_all isProjectChange) by reflexivity.
  destruct (multiTerminalUI (st w)), (JS.truthy path), (initializeFrameBtn (st w)); cbn;
    rewrite ?List.filter_app, ?(filter_map_none isProjectChange) by reflexivity;
    reflexivity.
Qed.

Lemma last_cons {A} (x d : A) (l : list A) : List.last (x :: l) d = List.last l x.
Proof.
  revert x d. induction l as [|y l IH]; intros x d; [reflexivity|].
  change (List.last (x :: y :: l) d) with (List.last (y :: l) d).
  rewrite (IH y d), (IH y x). reflexivity.
Qed.

(** X1.  After any sequence of [setProjectPath] calls the current path
    is the one of the last call, and the project-change listeners have
    been called once per call and listener, in call order and, within a
    call, in registration order, each time with the new path and the
    path that the call before it had set. *)
Theorem project_switches_notify_in_order (paths : list JS.Value) (w : World) :
  currentProjectPath (st (exec (run (map setProjectPath paths)) w))
    = List.last paths (currentProjectPath (st w)) ∧
  List.filter isProjectChange (logOf (run (map setProjectPath paths)) w)
    = switchCalls (onProjectChangeCallbacks (st w)) (currentProjectPath (st w)) paths.
Proof.
  revert w. induction paths as [|path paths IH]; intros w; [split; reflexivity|].
  cbn [map]. rewrite exec_run_cons, logOf_run_cons, List.filter_app, last_cons.
  destruct (IH (exec (setProjectPath path) w)) as [Hlast Hcalls].
  destruct (setProjectPath_run path w) as (Hpath & _ & _).
  destruct (setProjectPath_keeps_listeners path w) as (Hcbs & _).
  cbv zeta in Hpath, Hcbs. rewrite Hlast, Hcalls, Hpath, Hcbs, setProjectPath_calls.
  split; reflexivity.
Qed.

Lemma onProjectChange_registers (cbs : list Callback) (w : World) :
  let w' := exec (run (map onProjectChange cbs)) w in
  onProjectChangeCallbacks (st w') = onProjectChangeCallbacks (st w) ++ cbs ∧
  currentProjectPath (st w') = currentProjectPath (st w) ∧
  onFrameStatusChangeCallbacks (st w') = onFrameStatusChangeCallbacks (st w).
Proof.
  revert w. induction cbs as [|cb cbs IH]; intros w.
  - cbn. rewrite app_nil_r. repeat split; reflexivity.
  - cbn [map]. cbv zeta. rewrite exec_run_cons.
    destruct (IH (exec (onProjectChange cb) w)) as (Hcbs & Hpath & Hstatus).
    cbv zeta in Hcbs, Hpath, Hstatus. rewrite Hcbs, Hpath, Hstatus. cbn.
    rewrite <- app_assoc. repeat split; reflexivity.
Qed.

(** X2.  Listeners registered with [onProjectChange] are appended: at the
    next switch the earlier listeners are called first, then the new
    ones in the order of their registration, a listener registered twice
    being called twice. *)
Theorem registered_listeners_are_called_last (cbs : list Callback) (path : JS.Value) (w : World) :
  List.filter isProjectChange
    (logOf (setProjectPath path) (exec (run (map onProjectChange cbs)) w))
  = map (λ cb, ProjectChange cb path (currentProjectPath (st w)))
        (onProjectChangeCallbacks (st w) ++ cbs).
Proof.
  destruct (onProjectChange_registers cbs w) as (Hcbs & Hpath & _). cbv zeta in Hcbs, Hpath.
  rewrite setProjectPath_calls, Hcbs, Hpath. reflexivity.
Qed.

(** X3.  A project is selected and its classification arrives: the flag
    takes the answer and every status listener is called once with it.
    If another project is selected before the answer arrives, the answer
    changes nothing and calls no one. *)
Theorem classification_answer_after_switch (p q : JS.Value) (isFrame : bool) (w : World) :
  let w1 := exec (setProjectPath p) w in
  let w2 := exec (setProjectPath q) w1 in
  isCurrentProjectFrame (st (exec (on_IS_FRAME_PROJECT_RESULT p isFrame) w1)) = isFrame ∧
  List.filter isFrameStatusChange (logOf (on_IS_FRAME_PROJECT_RESULT p isFrame) w1)
    = map (λ cb, FrameStatusChange cb isFrame) (onFrameStatusChangeCallbacks (st w)) ∧
  (q ≠ p → on_IS_FRAME_PROJECT_RESULT p isFrame w2 = (tt, w2, [])).
Proof.
  cbv zeta.
  destruct (setProjectPath_run p w) as (Hp & _ & _).
  destruct (setProjectPath_keeps_listeners p w) as (_ & Hstatus & _).
  destruct (setProjectPath_run q (exec (setProjectPath p) w)) as (Hq & _ & _).
  cbv zeta in Hp, Hstatus, Hq.
  unfold exec at 1, logOf at 1. rewrite !on_IS_FRAME_PROJECT_RESULT_run, Hp, Hq.
  unfold JS.strictEq. rewrite bool_decide_eq_true_2 by reflexivity.
  rewrite setIsFrameProject_run. cbn [fst snd st isCurrentProjectFrame].
  rewrite List.filter_app, (filter_map_all isFrameStatusChange), Hstatus by reflexivity.
  split; [reflexivity|]. split.
  - destruct (initializeFrameBtn _); reflexivity.
  - intros Hne. rewrite bool_decide_eq_false_2 by congruence. reflexivity.
Qed.

Lemma on_FRAME_PROJECT_INITIALIZED_run (projectPath : JS.Value) (success : bool) (w : World) :
  on_FRAME_PROJECT_INITIALIZED projectPath success w =
    if success && JS.strictEq projectPath (currentProjectPath (st w))
    then (tt, (setIsFrameProject true w).1.2,
          (setIsFrameProject true w).2 ++
          map (λ cb, FrameInitialized cb projectPath) (onFrameInitializedCallbacks (st w)))
    else (tt, w, []).
Proof.
  unfold on_FRAME_PROJECT_INITIALIZED, gets, when, skip, mbind, M_bind, mret, M_ret.
  cbn -[setIsFrameProject forEach]. destruct (success && _); [|reflexivity].
  rewrite setIsFrameProject_run. cbn -[forEach]. rewrite forEach_emit. reflexivity.
Qed.

(** X4.  The initialized notice is applied only when it reports success
    for the current path: then the flag becomes true, the status
    listeners are called with [true] and after them the initialized
    listeners with the path, each list in registration order.  Any other
    notice leaves the world as it was and calls no one. *)
Theorem initialized_notice_matches_active_path
    (projectPath : JS.Value) (success : bool) (w : World) :
  let w' := exec (on_FRAME_PROJECT_INITIALIZED projectPath success) w in
  let log := logOf (on_FRAME_PROJECT_INITIALIZED projectPath success) w in
  (success = false ∨ projectPath ≠ currentProjectPath (st w) → w' = w ∧ log = []) ∧
  (success = true ∧ projectPath = currentProjectPath (st w) →
     isCurrentProjectFrame (st w') = true ∧
     currentProjectPath (st w') = currentProjectPath (st w) ∧
     log =
       (if initializeFrameBtn (st w) then [UpdateFrameUI false] else []) ++
       map (λ cb, FrameStatusChange cb true) (onFrameStatusChangeCallbacks (st w)) ++
       map (λ cb, FrameInitialized cb projectPath) (onFrameInitializedCallbacks (st w))).
Proof.
  cbv zeta. unfold exec, logOf. rewrite on_FRAME_PROJECT_INITIALIZED_run.
  unfold JS.strictEq. split.
  - intros [->|Hne]; [split; reflexivity|].
    rewrite bool_decide_eq_false_2, andb_false_r by exact Hne. split; reflexivity.
  - intros [-> Heq]. rewrite bool_decide_eq_true_2 by exact Heq.
    rewrite setIsFrameProject_run. cbn. rewrite andb_false_r, <- app_assoc.
    repeat split; reflexivity.
Qed.

(** *** The project name of [handleInitializeFrame] *)

Lemma split_not_empty (sep : ascii) (s : string) : JS.split sep s ≠ [].
Proof.
  destruct s as [|c s]; [discriminate|]. cbn.
  destruct (Ascii.eqb c sep); [discriminate|]. destruct (JS.split sep s); discriminate.
Qed.

Lemma split_without_separator (sep : ascii) (s : string) :
  occurs sep s = false → JS.split sep s = [s].
Proof.
  induction s as [|c s IH]; [reflexivity|]. cbn. intros Hocc.
  apply orb_false_elim in Hocc as [Hc Hs]. rewrite Hc, (IH Hs). reflexivity.
Qed.

Lemma split_cases (sep : ascii) (s : string) :
  (occurs sep s = false ∧ JS.split sep s = [s]) ∨
  (occurs sep s = true ∧ ∃ p q qs, JS.split sep s = p :: q :: qs).
Proof.
  induction s as [|c s IH]; [left; split; reflexivity|]. cbn.
  destruct (Ascii.eqb c sep).
  - right. split; [reflexivity|].
    destruct (JS.split sep s) as [|q qs] eqn:Hs; [destruct (split_not_empty sep s Hs)|].
    eauto.
  - destruct IH as [[-> ->]|[-> (p & q & qs & ->)]]; [left; split; reflexivity|].
    right. split; [reflexivity|]. eauto.
Qed.

Lemma pop_split_cons (sep c : ascii) (s : string) :
  JS.pop (JS.split sep (String c s)) =
    if Ascii.eqb c sep || occurs sep s then JS.pop (JS.split sep s) else String c s.
Proof.
  unfold JS.pop. cbn [JS.split]. destruct (Ascii.eqb c sep).
  - cbn [orb]. rewrite last_cons.
    destruct (JS.split sep s) as [|q qs] eqn:Hs; [destruct (split_not_empty sep s Hs)|].
    rewrite !last_cons. reflexivity.
  - cbn [orb]. destruct (split_cases sep s) as [[-> ->]|[-> (p & q & qs & ->)]];
      [reflexivity|].
    rewrite !last_cons. reflexivity.
Qed.

Lemma occurs_app (c : ascii) (a b : string) : occurs c (a +:+ b) = occurs c a || occurs c b.
Proof.
  induction a as [|x a IH]; [reflexivity|].
  change (occurs c (String x (a +:+ b)) = occurs c (String x a) || occurs c b).
  cbn. rewrite IH, orb_assoc. reflexivity.
Qed.

Lemma pop_split_after_separator (sep : ascii) (a b : string) :
  JS.pop (JS.split sep (a +:+ String sep b)) = JS.pop (JS.split sep b).
Proof.
  induction a as [|c a IH].
  - change (EmptyString +:+ String sep b) with (String sep b).
    rewrite pop_split_cons, Ascii.eqb_refl. reflexivity.
  - change (String c a +:+ String sep b) with (String c (a +:+ String sep b)).
    rewrite pop_split_cons, occurs_app. cbn [occurs]. rewrite Ascii.eqb_refl.
    cbn [orb]. rewrite !orb_true_r. exact IH.
Qed.

(** X5.  [handleInitializeFrame] sends nothing without a project.  With
    one it sends a single request that carries the path and a name: the
    path itself when it has no ['/'], and the text after the last ['/']
    when that text is not empty.  (So a path written with backslashes
    only is its own name.) *)
Theorem initialize_request_names_last_segment (w : World) :
  (JS.truthy (currentProjectPath (st w)) = false → handleInitializeFrame w = (tt, w, [])) ∧
  (∀ path, currentProjectPath (st w) = Some path → path ≠ "" →
     handleInitializeFrame w =
       (tt, w, [Send (INITIALIZE_FRAME_PROJECT (Some path) (projectNameOf path))]) ∧
     (occurs "/" path = false → projectNameOf path = path) ∧
     (∀ dir base, path = dir +:+ String "/" base → base ≠ "" → occurs "/" base = false →
        projectNameOf path = base)).
Proof.
  unfold handleInitializeFrame, getProjectPath, gets, when, skip, emit, mbind, M_bind,
    mret, M_ret. split.
  - intros Hfalsy. cbn beta iota. destruct (currentProjectPath (st w)); [|reflexivity].
    rewrite Hfalsy. reflexivity.
  - intros path Hpath Hne. cbn beta iota. rewrite Hpath.
    assert (JS.truthyStr path = true) as Htruthy.
    { unfold JS.truthyStr. destruct (String.eqb_spec path ""); [contradiction|reflexivity]. }
    cbn [JS.truthy]. fold (JS.truthyStr path). rewrite Htruthy.
    split; [reflexivity|]. unfold projectNameOf. split.
    + intros Hocc. rewrite (split_without_separator _ _ Hocc). cbn [JS.pop List.last].
      rewrite Htruthy. reflexivity.
    + intros dir base -> Hbase Hocc. rewrite pop_split_after_separator.
      rewrite (split_without_separator _ _ Hocc). cbn [JS.pop List.last].
      unfold JS.truthyStr. destruct (String.eqb_spec base ""); [contradiction|reflexivity].
Qed.

End MoreProjectContext.

(** ** The editor *)

Section MoreEditor.

Import FileTreeJs EditorJs.

(** X6.  A request to open a file records the origin at once.  When the
    read then fails, the failure is written to the console and nothing
    else changes: the session that was open stays as it was, but its
    recorded origin is now the one of the failed request. *)
Theorem failed_open_changes_only_the_origin
    (filePath : string) (source : option string) (error : string) (w : World) :
  run [openFile filePath source; on_FILE_CONTENT (ReadFailed error)] w =
    (tt,
     mkWorld (st w)
       (mkEditorVars (currentEditingFile (ed w)) (originalContent (ed w)) (isModified (ed w))
          (Some (default "terminal" source)) (onFileTreeRefreshCallback (ed w))
          (textarea (ed w)) (selectionStart (ed w)) (selectionEnd (ed w))
          (overlayVisible (ed w)) (editorStatus (ed w)))
       (ft w) (tp w) (window w),
     [Send (READ_FILE filePath); ConsoleError ("Error opening file: " +:+ error)]).
Proof. reflexivity. Qed.

(** The focus calls leave the editor alone. *)
Lemma focus_keeps_editor (w : World) : ed (exec focus w) = ed w.
Proof.
  unfold exec, focus, getVisibleItems, set_focusedItem, set_keyboardSetup, setFt, modify,
    emit, gets, skip, mbind, M_bind, mret, M_ret. cbn.
  destruct (fileTreeElement (ft w)) as [tree|] eqn:Htree; cbn; rewrite ?Htree; cbn;
    [|reflexivity].
  destruct (visibleItems tree); reflexivity.
Qed.

(** X7.  A close that proceeds clears the session: no file, empty
    snapshot, clean flag, no origin, overlay hidden.  The text stays in
    the textarea.  Afterwards the save button and the save shortcut send
    nothing. *)
Theorem close_clears_the_session (w : World) (answer : bool) :
  (isModified (ed w) = true → answer = true) →
  let w' := exec (closeEditor answer) w in
  currentEditingFile (ed w') = None ∧
  originalContent (ed w') = "" ∧
  isModified (ed w') = false ∧
  openedFromSource (ed w') = None ∧
  overlayVisible (ed w') = false ∧
  textarea (ed w') = textarea (ed w) ∧
  saveFile w' = (tt, w', []) ∧
  on_keydown true "s" false w' = (tt, w', []).
Proof.
  intros Hproceed. cbv zeta.
  pose proof (closeEditor_proceeds_run w answer Hproceed) as Hrun. cbv zeta in Hrun.
  unfold exec at 1 2 3 4 5 6 7 8 9 10. rewrite Hrun. clear Hrun. cbn [fst snd ed].
  cbn [currentEditingFile originalContent isModified openedFromSource overlayVisible textarea].
  assert (∀ r h, (r = focus ∨ r = when (terminalFocus (window w)) (emit TerminalFocus)) →
            ed (exec r h) = ed h) as Hed.
  { intros r h [->| ->]; [apply focus_keeps_editor|].
    destruct (terminalFocus (window w)); reflexivity. }
  match goal with |- context [exec ?r ?h] =>
    assert (ed (exec r h) = ed h) as ->
      by (apply Hed; destruct (_ && _); [left|right]; reflexivity)
  end.
  repeat split; reflexivity.
Qed.

(** X8.  A failed save shows the error in the status line and leaves the
    session as it was: still modified, same snapshot, same buffer; no
    request is repeated and the file tree is not refreshed. *)
Theorem failed_save_keeps_the_session (error : string) (w : World) :
  let w' := exec (on_FILE_SAVED (SaveFailed error)) w in
  logOf (on_FILE_SAVED (SaveFailed error)) w = [] ∧
  currentEditingFile (ed w') = currentEditingFile (ed w) ∧
  originalContent (ed w') = originalContent (ed w) ∧
  isModified (ed w') = isModified (ed w) ∧
  textarea (ed w') = textarea (ed w) ∧
  editorStatus (ed w') =
    match editorStatus (ed w) with
    | Some _ => Some ("Save failed: " +:+ error, "modified")
    | None => None
    end ∧
  st w' = st w ∧ ft w' = ft w ∧ tp w' = tp w.
Proof.
  cbv zeta. unfold exec, logOf, on_FILE_SAVED, updateStatus, set_editorStatus, setEd, modify,
    gets, when, skip, mbind, M_bind, mret, M_ret.
  cbn. destruct (editorStatus (ed w)) eqn:Hstatus; cbn; rewrite ?Hstatus;
    repeat split; reflexivity.
Qed.

Lemma length_append (a b : string) :
  String.length (a +:+ b) = String.length a + String.length b.
Proof.
  induction a as [|c a IH]; [reflexivity|].
  change (S (String.length (a +:+ b)) = S (String.length a) + String.length b).
  rewrite IH. reflexivity.
Qed.

Lemma length_substringTo (n : nat) (s : string) :
  n ≤ String.length s → String.length (JS.substringTo n s) = n.
Proof.
  revert s. induction n as [|n IH]; intros [|c s] Hn; cbn in *; try reflexivity; [lia|].
  rewrite IH by lia. reflexivity.
Qed.

Lemma length_substringFrom (n : nat) (s : string) :
  String.length (JS.substringFrom n s) = String.length s - n.
Proof. revert s. induction n as [|n IH]; intros [|c s]; cbn; try reflexivity. apply IH. Qed.

Lemma on_keydown_Tab_run (ctrlOrMeta answer : bool) (w : World) :
  exec (on_keydown ctrlOrMeta "Tab" answer) w =
    exec checkModified
      (exec (set_textarea
               (JS.substringTo (selectionStart (ed w)) (textarea (ed w)) +:+ "  " +:+
                JS.substringFrom (selectionEnd (ed w)) (textarea (ed w)))
               (selectionStart (ed w) + 2) (selectionStart (ed w) + 2)) w).
Proof.
  unfold on_keydown. rewrite andb_false_r. cbn [String.eqb Ascii.eqb Bool.eqb when].
  rewrite !exec_bind. cbn [skip mret M_ret exec fst snd gets]. reflexivity.
Qed.

(** X9.  The Tab key replaces the selection by two spaces: with the
    selection inside the text, the text has two characters more than
    what was selected fewer, the caret stands after the two spaces, and
    the flag is recomputed.  A clean session becomes modified unless
    the selection was two characters long. *)
Theorem tab_replaces_selection_by_two_spaces (ctrlOrMeta answer : bool) (w : World) :
  selectionStart (ed w) ≤ selectionEnd (ed w) →
  selectionEnd (ed w) ≤ String.length (textarea (ed w)) →
  let w' := exec (on_keydown ctrlOrMeta "Tab" answer) w in
  textarea (ed w') =
    JS.substringTo (selectionStart (ed w)) (textarea (ed w)) +:+ "  " +:+
    JS.substringFrom (selectionEnd (ed w)) (textarea (ed w)) ∧
  String.length (textarea (ed w')) + (selectionEnd (ed w) - selectionStart (ed w))
    = String.length (textarea (ed w)) + 2 ∧
  selectionStart (ed w') = selectionStart (ed w) + 2 ∧
  selectionEnd (ed w') = selectionStart (ed w) + 2 ∧
  dirtyFlagExact w' ∧
  (textarea (ed w) = originalContent (ed w) →
   selectionEnd (ed w) - selectionStart (ed w) ≠ 2 → isModified (ed w') = true).
Proof.
  intros Horder Hinside. cbv zeta. rewrite on_keydown_Tab_run.
  set (value := JS.substringTo _ _ +:+ "  " +:+ JS.substringFrom _ _).
  set (w1 := exec (set_textarea value _ _) w).
  destruct (checkModified_exact w1) as (Hexact & Hbuffer & Hsnapshot).
  assert (String.length value + (selectionEnd (ed w) - selectionStart (ed w))
          = String.length (textarea (ed w)) + 2) as Hlength.
  { unfold value. rewrite !length_append, length_substringTo, length_substringFrom by lia.
    cbn. lia. }
  assert (selectionStart (ed (exec checkModified w1)) = selectionStart (ed w) + 2 ∧
          selectionEnd (ed (exec checkModified w1)) = selectionStart (ed w) + 2) as [Hs He].
  { unfold exec, checkModified, updateStatus, set_editorStatus, set_isModified, setEd,
      modify, gets, when, skip, mbind, M_bind, mret, M_ret. cbn.
    destruct (String.eqb value (originalContent (ed w))), (editorStatus (ed w));
      split; reflexivity. }
  rewrite Hbuffer, Hs, He. change (textarea (ed w1)) with value.
  repeat split; try reflexivity; [exact Hlength|exact Hexact|].
  intros Hclean Hselected. unfold dirtyFlagExact in Hexact. rewrite Hexact, Hbuffer, Hsnapshot.
  change (textarea (ed w1)) with value. change (originalContent (ed w1))
    with (originalContent (ed w)).
  destruct (String.eqb_spec value (originalContent (ed w))) as [Heq|]; [|reflexivity].
  exfalso. rewrite <- Hclean in Heq. rewrite Heq in Hlength. lia.
Qed.

End MoreEditor.

(** ** The file tree *)

Section MoreFileTree.

Import FileTreeJs EditorJs.

Lemma shownOf_renderFile (f : FileEntry) (n : nat) :
  shownOf (renderFile f n).1 = [mkFileItem n (entryIsDirectory f) (entryPath f)].
Proof.
  destruct f as [name path [|] [|c cs]]; try reflexivity.
  rewrite renderFile_directory. reflexivity.
Qed.

Lemma shownOf_renderFileTree (files : list FileEntry) (n : nat) :
  map dataPath (flat_map shownOf (renderFileTree files n).1) = map entryPath files ∧
  map folder (flat_map shownOf (renderFileTree files n).1) = map entryIsDirectory files.
Proof.
  revert n. induction files as [|f files IH]; intros n; [split; reflexivity|].
  cbn [renderFileTree]. pose proof (shownOf_renderFile f n) as Hf.
  destruct (renderFile f n) as [w n1]. destruct (IH n1) as [Hpaths Hfolders].
  destruct (renderFileTree files n1) as [ws n2]. cbn [fst snd flat_map] in *.
  rewrite Hf, !map_app, Hpaths, Hfolders. split; reflexivity.
Qed.

Lemma on_FILE_TREE_DATA_run (files : list FileEntry) (w : World) (old : list Wrapper) :
  fileTreeElement (ft w) = Some old →
  on_FILE_TREE_DATA files w =
    (tt,
     mkWorld (st w) (ed w)
       (mkFileTreeVars (Some (renderFileTree files (allocated (ft w))).1) (focusedItem (ft w))
          (onFileClickCallback (ft w)) (keyboardSetup (ft w))
          (renderFileTree files (allocated (ft w))).2)
       (tp w) (window w),
     []).
Proof.
  intros Hold. unfold on_FILE_TREE_DATA, clearFileTree, set_fileTreeElement, set_allocated,
    setFt, modify, gets, when, skip, mbind, M_bind, mret, M_ret.
  cbn. rewrite Hold. cbn. destruct (renderFileTree files (allocated (ft w))). reflexivity.
Qed.

(** X10.  When the file tree arrives, every directory is rendered
    collapsed: the visible items are the top-level entries, in the order
    received, each with its path and its directory flag.  The cursor is
    not touched. *)
Theorem arrived_tree_shows_top_level_only (files : list FileEntry) (w : World) :
  is_Some (fileTreeElement (ft w)) →
  let w' := exec (on_FILE_TREE_DATA files) w in
  map dataPath (visibleItems (treeOf w')) = map entryPath files ∧
  map folder (visibleItems (treeOf w')) = map entryIsDirectory files ∧
  focusedItem (ft w') = focusedItem (ft w).
Proof.
  intros [old Hold]. cbv zeta. unfold exec. rewrite (on_FILE_TREE_DATA_run files w old Hold).
  rewrite !visibleItems_shownOf. unfold treeOf. cbn.
  destruct (shownOf_renderFileTree files (allocated (ft w))) as [Hpaths Hfolders].
  repeat split; assumption || reflexivity.
Qed.

Lemma renderFileTree_items_of (files : list FileEntry) :
  Forall (λ f, ∀ n,
            map dataPath (everyItemOf (renderFile f n).1) = renderedPaths f ∧
            map element (everyItemOf (renderFile f n).1) = seq n (length (renderedPaths f)) ∧
            (renderFile f n).2 = n + length (renderedPaths f)) files →
  ∀ n,
    map dataPath (flat_map everyItemOf (renderFileTree files n).1)
      = flat_map renderedPaths files ∧
    map element (flat_map everyItemOf (renderFileTree files n).1)
      = seq n (length (flat_map renderedPaths files)) ∧
    (renderFileTree files n).2 = n + length (flat_map renderedPaths files).
Proof.
  induction 1 as [|f files Hf _ IH]; intros n.
  - cbn. repeat split; lia || reflexivity.
  - cbn [renderFileTree]. specialize (Hf n). destruct (renderFile f n) as [w n1].
    specialize (IH n1). destruct (renderFileTree files n1) as [ws n2].
    cbn [fst snd flat_map] in *. destruct Hf as (Hp & He & ->), IH as (Hps & Hes & ->).
    rewrite !map_app, Hp, He, Hps, Hes, length_app, seq_app. repeat split; lia || reflexivity.
Qed.

Lemma renderFile_items (f : FileEntry) (n : nat) :
  map dataPath (everyItemOf (renderFile f n).1) = renderedPaths f ∧
  map element (everyItemOf (renderFile f n).1) = seq n (length (renderedPaths f)) ∧
  (renderFile f n).2 = n + length (renderedPaths f).
Proof.
  revert n. induction f as [name path isDirectory children IH] using FileEntry_nested_ind.
  intros n. destruct isDirectory, children as [|c cs];
    try (cbn; repeat split; lia || reflexivity).
  rewrite renderFile_directory. cbn [fst snd everyItemOf renderedPaths map dataPath element].
  destruct (renderFileTree_items_of (c :: cs) IH (S n)) as (Hp & He & Hn).
  rewrite Hp, He, Hn. cbn [length seq]. repeat split; lia || reflexivity.
Qed.

(** X11.  Rendering creates one item per entry, depth first, with the
    entry's path; what is listed under an entry that is not a directory
    gets no item.  The items are new elements, numbered consecutively
    from the allocation counter, which advances by their number. *)
Theorem arrived_tree_items_are_the_entries (files : list FileEntry) (w : World) :
  is_Some (fileTreeElement (ft w)) →
  let w' := exec (on_FILE_TREE_DATA files) w in
  let paths := flat_map renderedPaths files in
  map dataPath (flat_map everyItemOf (treeOf w')) = paths ∧
  elementsOf (treeOf w') = seq (allocated (ft w)) (length paths) ∧
  allocated (ft w') = allocated (ft w) + length paths.
Proof.
  intros [old Hold]. cbv zeta. unfold exec. rewrite (on_FILE_TREE_DATA_run files w old Hold).
  unfold treeOf, elementsOf. cbn.
  apply renderFileTree_items_of, Forall_forall. intros f _. apply renderFile_items.
Qed.

(** *** Collapsing and expanding *)

Lemma setDisplay_compose (f g : bool → bool) (e : Element) (w : Wrapper) :
  setDisplay f e (setDisplay g e w) = setDisplay (λ d, f (g d)) e w.
Proof.
  induction w as [it|it d ws IH] using Wrapper_nested_ind; [reflexivity|].
  cbn [setDisplay]. f_equal. f_equal. f_equal; [destruct (element it =? e); reflexivity|].
  rewrite map_map. induction IH as [|w ws Hw _ IHws]; [reflexivity|].
  cbn [map]. rewrite Hw, IHws. reflexivity.
Qed.

Lemma setDisplay_same (f : bool → bool) (e : Element) (w : Wrapper) :
  (∀ d, f d = d) → setDisplay f e w = w.
Proof.
  intros Hf. induction w as [it|it d ws IH] using Wrapper_nested_ind; [reflexivity|].
  cbn [setDisplay]. f_equal. f_equal. f_equal; [destruct (element it =? e); auto|].
  induction IH as [|w ws Hw _ IHws]; [reflexivity|]. cbn [map]. rewrite Hw, IHws. reflexivity.
Qed.

Lemma updateDisplay_run (f : bool → bool) (it : FileItem) (w : World) :
  updateDisplay f it w =
    (tt,
     mkWorld (st w) (ed w)
       (mkFileTreeVars (option_map (map (setDisplay f (element it))) (fileTreeElement (ft w)))
          (focusedItem (ft w)) (onFileClickCallback (ft w)) (keyboardSetup (ft w))
          (allocated (ft w)))
       (tp w) (window w),
     []).
Proof.
  destruct w as [s e [fte fi cb ks al] t win].
  unfold updateDisplay, set_fileTreeElement, setFt, modify, gets, skip, mbind, M_bind,
    mret, M_ret.
  cbn. destruct fte; reflexivity.
Qed.

Lemma updateDisplay_twice (f g : bool → bool) (it : FileItem) (w : World) :
  exec (updateDisplay f it) (exec (updateDisplay g it) w)
    = exec (updateDisplay (λ d, f (g d)) it) w.
Proof.
  unfold exec. rewrite !updateDisplay_run. cbn.
  destruct (fileTreeElement (ft w)) as [tree|]; cbn; [|reflexivity].
  rewrite map_map. do 3 f_equal. apply map_ext. intros x. apply setDisplay_compose.
Qed.

Lemma updateDisplay_same (f : bool → bool) (it : FileItem) (w : World) :
  (∀ d, f d = d) → exec (updateDisplay f it) w = w.
Proof.
  intros Hf. unfold exec. rewrite updateDisplay_run. cbn.
  destruct w as [s e [fte fi cb ks al] t win]. cbn. do 3 f_equal.
  destruct fte as [tree|]; cbn; [|reflexivity]. f_equal.
  rewrite <- (map_id tree) at 2. apply map_ext. intros x. apply setDisplay_same, Hf.
Qed.

(** X12.  Clicking an item twice leaves the world as it was: a directory
    is toggled there and back, a file only reports itself, once per
    click, to the callback if there is one. *)
Theorem click_twice_restores_the_tree (it : FileItem) (w : World) :
  exec (run [click it; click it]) w = w ∧
  logOf (run [click it; click it]) w =
    if folder it then []
    else if onFileClickCallback (ft w)
         then [FileClick (dataPath it) "fileTree"; FileClick (dataPath it) "fileTree"]
         else [].
Proof.
  rewrite !exec_run_cons, !logOf_run_cons. unfold click. destruct (folder it).
  - change (exec (run []) ?x) with x. rewrite updateDisplay_twice.
    split; [apply updateDisplay_same; intros []; reflexivity|].
    unfold logOf. rewrite !updateDisplay_run. reflexivity.
  - unfold exec, logOf, gets, when, emit, skip, mbind, M_bind, mret, M_ret. cbn.
    destruct (onFileClickCallback (ft w)) eqn:Hcb; cbn; rewrite ?Hcb; split; reflexivity.
Qed.

Lemma handleKeydown_expand_collapse_run (right : bool) (w : World) :
  handleKeydown (if right then "ArrowRight" else "ArrowLeft") w =
    match focusedItem (ft w) with
    | Some x =>
        if folder x then updateDisplay (λ _, negb right) x w else (tt, w, [])
    | None => (tt, w, [])
    end.
Proof.
  destruct w as [s e [fte fi cb ks al] t win].
  unfold handleKeydown, getVisibleItems, gets, when, skip, mbind, M_bind, mret, M_ret.
  destruct right; cbn; destruct fte as [tree|], fi as [[el [|] path]|]; cbn;
    rewrite ?updateDisplay_run; reflexivity.
Qed.

(** Of two keys among ArrowRight and ArrowLeft only the second counts;
    neither moves the cursor or logs a call. *)
Lemma expand_collapse_keys_absorb (first second : bool) (w : World) :
  let key (right : bool) := handleKeydown (if right then "ArrowRight" else "ArrowLeft") in
  exec (run [key first; key second]) w = exec (key second) w ∧
  focusedItem (ft (exec (key second) w)) = focusedItem (ft w) ∧
  logOf (run [key first; key second]) w = [].
Proof.
  cbv zeta. rewrite !exec_run_cons, !logOf_run_cons.
  change (exec (run []) ?x) with x. change (logOf (run []) ?x) with (@nil Event).
  unfold exec at 1 2 3 4 5, logOf. rewrite !handleKeydown_expand_collapse_run.
  destruct (focusedItem (ft w)) as [x|] eqn:Hx; [|cbn; rewrite Hx; repeat split; reflexivity].
  destruct (folder x) eqn:Hfolder; [|cbn; rewrite Hx, Hfolder; repeat split; reflexivity].
  rewrite !updateDisplay_run. cbn [fst snd ft focusedItem]. rewrite Hx, Hfolder.
  rewrite !updateDisplay_run. cbn [fst snd ft focusedItem fileTreeElement app].
  repeat split; try reflexivity.
  cbn. destruct (fileTreeElement (ft w)) as [tree|]; cbn; [|reflexivity].
  rewrite map_map. erewrite map_ext; [reflexivity|].
  intros y. rewrite setDisplay_compose. reflexivity.
Qed.

(** *** Keys that do not move the cursor *)

Lemma keepsCursor_bind {A B} (m : M A) (f : A → M B) :
  keepsCursor m → (∀ x, keepsCursor (f x)) → keepsCursor (m ≫= f).
Proof.
  intros Hm Hf w. rewrite exec_bind. destruct (Hf (m w).1.1 (exec m w)) as [-> ->]. apply Hm.
Qed.

Lemma keepsCursor_pure {A} (m : M A) : (∀ w, exec m w = w) → keepsCursor m.
Proof. intros Hm w. rewrite Hm. split; reflexivity. Qed.

Lemma keepsCursor_when (c : bool) (m : M unit) : keepsCursor m → keepsCursor (when c m).
Proof. intros Hm. destruct c; [exact Hm|]. apply keepsCursor_pure. reflexivity. Qed.

Lemma keepsCursor_updateDisplay (f : bool → bool) (it : FileItem) :
  keepsCursor (updateDisplay f it).
Proof. intros w. unfold exec. rewrite updateDisplay_run. split; reflexivity. Qed.

Lemma keepsCursor_click (it : FileItem) : keepsCursor (click it).
Proof.
  unfold click. destruct (folder it); [apply keepsCursor_updateDisplay|].
  apply keepsCursor_bind; [apply keepsCursor_pure; reflexivity|].
  intros cb. apply keepsCursor_when, keepsCursor_pure. reflexivity.
Qed.

Lemma getVisibleItems_pure (w : World) : exec getVisibleItems w = w.
Proof.
  unfold exec, getVisibleItems, gets, mbind, M_bind, mret, M_ret. cbn.
  destruct (fileTreeElement (ft w)); reflexivity.
Qed.

Lemma keepsCursor_handleKeydown (key : string) :
  String.eqb key "ArrowDown" || String.eqb key "ArrowUp" = false →
  keepsCursor (handleKeydown key).
Proof.
  intros Harrow. unfold handleKeydown. rewrite Harrow.
  apply keepsCursor_bind; [apply keepsCursor_pure, getVisibleItems_pure|].
  intros items. apply keepsCursor_bind; [apply keepsCursor_pure; reflexivity|].
  intros fi. apply keepsCursor_bind; [apply keepsCursor_pure; reflexivity|].
  intros _. apply keepsCursor_bind; [apply keepsCursor_pure; reflexivity|].
  intros fi'. apply keepsCursor_bind.
  { apply keepsCursor_when. destruct fi'; [apply keepsCursor_updateDisplay|].
    apply keepsCursor_pure. reflexivity. }
  intros _. apply keepsCursor_bind.
  { apply keepsCursor_when. destruct fi'; [apply keepsCursor_updateDisplay|].
    apply keepsCursor_pure. reflexivity. }
  intros _. apply keepsCursor_bind.
  { apply keepsCursor_when. destruct fi'; [apply keepsCursor_click|].
    apply keepsCursor_pure. reflexivity. }
  intros _. apply keepsCursor_when, keepsCursor_bind; [apply keepsCursor_pure; reflexivity|].
  intros tf. apply keepsCursor_when, keepsCursor_pure. reflexivity.
Qed.

Lemma handleKeydown_Escape_run (w : World) :
  handleKeydown "Escape" w =
    (tt, w, if terminalFocus (window w) then [TerminalFocus] else []).
Proof.
  destruct w as [s e [fte fi cb ks al] t [ftf tf tsc]].
  unfold handleKeydown, getVisibleItems, gets, when, emit, skip, mbind, M_bind, mret, M_ret.
  cbn. destruct fte, fi as [[el [|] path]|], tf; reflexivity.
Qed.

(** X14.  Only ArrowDown and ArrowUp move the cursor: after any other
    key the remembered item is the one it was.  Escape in particular
    changes nothing at all and only hands the focus to the terminal (if
    the hook is installed), so the item stays remembered for the next
    [focus]. *)
Theorem only_vertical_arrows_move_the_cursor (w : World) :
  (∀ key, key ≠ "ArrowDown" → key ≠ "ArrowUp" →
     focusedItem (ft (exec (handleKeydown key) w)) = focusedItem (ft w)) ∧
  handleKeydown "Escape" w =
    (tt, w, if terminalFocus (window w) then [TerminalFocus] else []).
Proof.
  split; [|apply handleKeydown_Escape_run].
  intros key Hdown Hup. apply keepsCursor_handleKeydown.
  destruct (String.eqb_spec key "ArrowDown"), (String.eqb_spec key "ArrowUp");
    try contradiction. reflexivity.
Qed.

(** *** Focus on a tree without items *)

Lemma focus_nothing_to_focus (w : World) :
  visibleItems (treeOf w) = [] → focus w = (tt, w, []).
Proof.
  unfold treeOf, focus, getVisibleItems, gets, skip, mbind, M_bind, mret, M_ret.
  cbn beta iota. destruct (fileTreeElement (ft w)) as [tree|] eqn:Htree; [|reflexivity].
  cbn -[visibleItems]. rewrite Htree. intros ->. reflexivity.
Qed.

(** X15.  [focus] does nothing when the file tree has no visible item
    (no tree element, or an empty tree).  A session opened from the file
    tree that closes then gets no focus call at all: the file tree has
    nothing to focus and the terminal is not asked. *)
Theorem close_on_empty_tree_focuses_nothing (w : World) (answer : bool) :
  visibleItems (treeOf w) = [] →
  (isModified (ed w) = true → answer = true) →
  openedFromSource (ed w) = Some "fileTree" →
  fileTreeFocus (window w) = true →
  focus w = (tt, w, []) ∧
  logOf (closeEditor answer) w = closeDialog w ∧
  ft (exec (closeEditor answer) w) = ft w.
Proof.
  intros Hempty Hproceed Horigin Hhook. split; [apply focus_nothing_to_focus, Hempty|].
  pose proof (closeEditor_proceeds_run w answer Hproceed) as Hrun. cbv zeta in Hrun.
  rewrite Horigin, Hhook in Hrun. unfold JS.strictEq in Hrun.
  rewrite bool_decide_eq_true_2 in Hrun by reflexivity. cbn [andb] in Hrun.
  unfold exec, logOf in *. rewrite Hrun.
  rewrite focus_nothing_to_focus by exact Hempty. cbn. rewrite app_nil_r.
  split; reflexivity.
Qed.

(** *** A new rendering detaches the cursor *)

Lemma contains_element (tree : list Wrapper) (x : FileItem) :
  contains tree x = true ↔ element x ∈ elementsOf tree.
Proof.
  unfold contains. rewrite <- allItems_elements, existsb_exists, list_elem_of_In, in_map_iff.
  split.
  - intros (p & Hp & Heq). exists p. split; [apply Nat.eqb_eq, Heq|exact Hp].
  - intros (p & Heq & Hp). exists p. split; [exact Hp|apply Nat.eqb_eq, Heq].
Qed.

Lemma visible_element (tree : list Wrapper) (x : FileItem) :
  x ∈ visibleItems tree → element x ∈ elementsOf tree.
Proof.
  rewrite visibleItems_shownOf. intros Hx. unfold elementsOf.
  apply list_elem_of_In, in_map, list_elem_of_In. eapply elem_of_sublist; [exact Hx|].
  apply flat_map_sublist, Forall_forall. intros w _. apply shownOf_sublist.
Qed.

Lemma keeps_allocatedBefore (m : M unit) (w : World) :
  keepsElements m → keepsCursor m →
  is_Some (fileTreeElement (ft w)) ∧ allocatedBefore w →
  is_Some (fileTreeElement (ft (exec m w))) ∧ allocatedBefore (exec m w).
Proof.
  intros He Hc [[tree Htree] [Htr Hcur]]. specialize (He w). destruct (Hc w) as [Hfi Hal].
  rewrite Htree in He. cbn in He. unfold allocatedBefore. rewrite Hfi, Hal.
  destruct (fileTreeElement (ft (exec m w))) as [tree'|]; [|discriminate].
  cbn in He. injection He as He. split; [eauto|]. split.
  - intros t e [= <-] Hin. rewrite He in Hin. eapply Htr; [exact Htree|exact Hin].
  - exact Hcur.
Qed.

Lemma move_cursor_allocatedBefore
    (w : World) (tree : list Wrapper) (target : option FileItem) (setup : bool) :
  fileTreeElement (ft w) = Some tree →
  (∀ x, target = Some x → element x ∈ elementsOf tree) →
  allocatedBefore w →
  allocatedBefore
    (mkWorld (st w) (ed w)
       (mkFileTreeVars (Some tree) target (onFileClickCallback (ft w)) setup
          (allocated (ft w)))
       (tp w) (window w)).
Proof.
  intros Htree Htarget [Htr Hcur]. split; cbn.
  - intros t e [= <-] Hin. eapply Htr; [exact Htree|exact Hin].
  - intros x Hx. eapply Htr; [exact Htree|]. apply Htarget, Hx.
Qed.

Lemma renderFileTree_elements (files : list FileEntry) (n : nat) :
  elementsOf (renderFileTree files n).1 = seq n ((renderFileTree files n).2 - n) ∧
  n ≤ (renderFileTree files n).2.
Proof.
  destruct (renderFileTree_items_of files) with (n := n) as (_ & He & Hn).
  { apply Forall_forall. intros f _. apply renderFile_items. }
  unfold elementsOf. rewrite He, Hn. split; [f_equal|]; lia.
Qed.

(** Every event of the file tree keeps the tree element and keeps
    elements and cursor below the allocation counter. *)
Lemma treeEvent_allocatedBefore (e : TreeEvent) (w : World) :
  is_Some (fileTreeElement (ft w)) ∧ allocatedBefore w →
  is_Some (fileTreeElement (ft (exec (treeEvent e) w))) ∧
  allocatedBefore (exec (treeEvent e) w).
Proof.
  intros Hw. destruct e as [files|it|key| |]; cbn [treeEvent].
  - destruct Hw as [[old Hold] [Htr Hcur]]. unfold exec.
    rewrite (on_FILE_TREE_DATA_run files w old Hold). cbn [fst snd].
    destruct (renderFileTree_elements files (allocated (ft w))) as [He Hn].
    split; [cbn; eauto|]. split; cbn.
    + intros t e [= <-] Hin. rewrite He in Hin. apply elem_of_seq in Hin. lia.
    + intros x Hx. apply Hcur in Hx. lia.
  - apply keeps_allocatedBefore; [apply keepsElements_click|apply keepsCursor_click|exact Hw].
  - destruct (String.eqb_spec key "ArrowDown") as [->|Hdown];
      [|destruct (String.eqb_spec key "ArrowUp") as [->|Hup]].
    + destruct Hw as [[tree Htree] Hinv].
      pose proof (handleKeydown_ArrowDown_run w tree Htree) as Hrun. cbv zeta in Hrun.
      rewrite Hrun. split; [cbn; eauto|].
      apply move_cursor_allocatedBefore; [exact Htree| |exact Hinv].
      intros x Hx. apply visible_element. eapply at_elem_of, Hx.
    + destruct Hw as [[tree Htree] Hinv].
      pose proof (handleKeydown_ArrowUp_run w tree Htree) as Hrun. cbv zeta in Hrun.
      rewrite Hrun. split; [cbn; eauto|].
      apply move_cursor_allocatedBefore; [exact Htree| |exact Hinv].
      intros x Hx. apply visible_element. eapply at_elem_of, Hx.
    + apply keeps_allocatedBefore; [apply keepsElements_handleKeydown| |exact Hw].
      apply keepsCursor_handleKeydown.
      destruct (String.eqb_spec key "ArrowDown"), (String.eqb_spec key "ArrowUp");
        try contradiction. reflexivity.
  - destruct Hw as [[tree Htree] Hinv].
    destruct (visibleItems tree) as [|first rest] eqn:Hitems.
    + unfold exec. rewrite focus_nothing_to_focus; [cbn; eauto|].
      unfold treeOf. rewrite Htree. exact Hitems.
    + unfold exec. rewrite (focus_run w tree first rest Htree Hitems). cbn [fst snd].
      split; [cbn; eauto|].
      apply move_cursor_allocatedBefore; [exact Htree| |exact Hinv].
      intros x [= <-].
      destruct (focusedItem (ft w)) as [y|]; [destruct (contains tree y) eqn:Hy|];
        [apply contains_element, Hy| |]; apply visible_element; rewrite Hitems; left.
  - destruct Hw as [Hsome [Htr Hcur]]. split; [exact Hsome|]. split; [exact Htr|].
    intros x Hx. discriminate Hx.
Qed.

Lemma history_allocatedBefore (history : list TreeEvent) (w : World) :
  is_Some (fileTreeElement (ft w)) ∧ allocatedBefore w →
  is_Some (fileTreeElement (ft (exec (run (map treeEvent history)) w))) ∧
  allocatedBefore (exec (run (map treeEvent history)) w).
Proof.
  revert w. induction history as [|e history IH]; intros w Hw; [exact Hw|].
  cbn [map]. unfold run. cbn [forEach]. rewrite exec_bind.
  apply IH, treeEvent_allocatedBefore, Hw.
Qed.

Lemma visibleItems_renderFileTree (f : FileEntry) (files : list FileEntry) (n : nat) :
  ∃ rest, visibleItems (renderFileTree (f :: files) n).1
          = mkFileItem n (entryIsDirectory f) (entryPath f) :: rest.
Proof.
  rewrite visibleItems_shownOf. cbn [renderFileTree].
  pose proof (shownOf_renderFile f n) as Hf. destruct (renderFile f n) as [w n1].
  destruct (renderFileTree files n1) as [ws n2]. cbn [fst snd flat_map] in *.
  rewrite Hf. eexists. reflexivity.
Qed.

(** X16.  A new rendering detaches the cursor.  Whatever happened to the
    file tree before, once a non-empty listing has been rendered the
    remembered item is no element of the new tree (the tree was emptied
    and built from new elements), so the next [focus] puts the focus on
    the first top-level entry of the new listing and remembers that
    one. *)
Theorem rerender_detaches_the_cursor
    (w0 : World) (history : list TreeEvent) (f : FileEntry) (files : list FileEntry) :
  is_Some (fileTreeElement (ft w0)) →
  allocatedBefore w0 →
  let w := exec (run (map treeEvent history)) w0 in
  let w1 := exec (on_FILE_TREE_DATA (f :: files)) w in
  let first := mkFileItem (allocated (ft w)) (entryIsDirectory f) (entryPath f) in
  focusedItem (ft w1) = focusedItem (ft w) ∧
  (∀ x, focusedItem (ft w1) = Some x → contains (treeOf w1) x = false) ∧
  logOf focus w1 = [ElementFocus (element first)] ∧
  focusedItem (ft (exec focus w1)) = Some first.
Proof.
  intros Hsome Hinv. cbv zeta.
  destruct (history_allocatedBefore history w0 (conj Hsome Hinv)) as [[old Hold] [_ Hcur]].
  set (w := exec (run (map treeEvent history)) w0) in *.
  assert (exec (on_FILE_TREE_DATA (f :: files)) w =
            mkWorld (st w) (ed w)
              (mkFileTreeVars (Some (renderFileTree (f :: files) (allocated (ft w))).1)
                 (focusedItem (ft w)) (onFileClickCallback (ft w)) (keyboardSetup (ft w))
                 (renderFileTree (f :: files) (allocated (ft w))).2)
              (tp w) (window w)) as ->.
  { unfold exec. rewrite (on_FILE_TREE_DATA_run _ w old Hold). reflexivity. }
  set (tree := (renderFileTree (f :: files) (allocated (ft w))).1).
  assert (∀ x, focusedItem (ft w) = Some x → contains tree x = false) as Hgone.
  { intros x Hx. destruct (contains tree x) eqn:Hin; [|reflexivity].
    apply contains_element in Hin. unfold tree in Hin.
    rewrite (proj1 (renderFileTree_elements _ _)) in Hin. apply elem_of_seq in Hin.
    apply Hcur in Hx. lia. }
  destruct (visibleItems_renderFileTree f files (allocated (ft w))) as [rest Hitems].
  split; [reflexivity|]. split; [exact Hgone|].
  unfold exec, logOf. erewrite focus_run; [|reflexivity|exact Hitems].
  cbn. destruct (focusedItem (ft w)) as [x|]; [|split; reflexivity].
  fold tree. rewrite (Hgone x eq_refl). split; reflexivity.
Qed.

(** *** The cursor survives its own directory being toggled *)

Lemma wrapper_distinct (tree : list Wrapper) (w : Wrapper) :
  NoDup (elementsOf tree) → w ∈ tree → NoDup (map element (everyItemOf w)).
Proof.
  unfold elementsOf. induction tree as [|v tree IH]; intros Hnd Hw; [inversion Hw|].
  cbn [flat_map] in Hnd. rewrite map_app in Hnd.
  apply list.NoDup_app in Hnd as (Hv & _ & Htree).
  apply elem_of_cons in Hw as [->|Hw]; [exact Hv|]. apply IH; assumption.
Qed.

Lemma Shown_setDisplay (f : bool → bool) (tree : list Wrapper) (x : FileItem) :
  Shown tree x → NoDup (elementsOf tree) → Shown (map (setDisplay f (element x)) tree) x.
Proof.
  induction 1 as [tree it kids Hw|tree parent ws x Hw Hx IH]; intros Hnd.
  - pose proof (in_map (setDisplay f (element it)) _ _ (proj1 (list_elem_of_In _ _) Hw))
      as Hin.
    cbn [setDisplay] in Hin. eapply shown_top, list_elem_of_In, Hin.
  - pose proof (wrapper_distinct tree _ Hnd Hw) as Hparent.
    cbn [everyItemOf map] in Hparent. apply list.NoDup_cons in Hparent as [Hfresh Hws].
    assert (element parent ≠ element x) as Hneq.
    { intros Heq. apply Hfresh. rewrite Heq.
      apply visible_element, Shown_visibleItems, Hx. }
    pose proof (in_map (setDisplay f (element x)) _ _ (proj1 (list_elem_of_In _ _) Hw))
      as Hin.
    cbn [setDisplay] in Hin. rewrite (proj2 (Nat.eqb_neq _ _) Hneq) in Hin.
    eapply shown_inside; [apply list_elem_of_In, Hin|]. apply IH, Hws.
Qed.

Lemma handleKeydown_Enter_run (w : World) :
  handleKeydown "Enter" w =
    match focusedItem (ft w) with
    | Some x => click x w
    | None => (tt, w, [])
    end.
Proof.
  destruct w as [s e [fte fi cb ks al] t win].
  unfold handleKeydown, click, getVisibleItems, gets, when, emit, skip, mbind, M_bind,
    mret, M_ret.
  cbn. destruct fte as [tree|], fi as [[el [|] path]|]; cbn;
    rewrite ?updateDisplay_run; try reflexivity; destruct cb; reflexivity.
Qed.

(** X17.  The keys that expand, collapse or toggle act on the container
    below the focused item, never on one above it: in a tree with
    distinct elements, a cursor that is visible stays visible, and stays
    the cursor, after ArrowLeft, ArrowRight or Enter. *)
Theorem toggling_keys_keep_the_cursor_visible
    (w : World) (tree : list Wrapper) (x : FileItem) (key : string) :
  fileTreeElement (ft w) = Some tree →
  NoDup (elementsOf tree) →
  focusedItem (ft w) = Some x →
  x ∈ visibleItems tree →
  key = "ArrowLeft" ∨ key = "ArrowRight" ∨ key = "Enter" →
  let w' := exec (handleKeydown key) w in
  focusedItem (ft w') = Some x ∧ x ∈ visibleItems (treeOf w').
Proof.
  intros Htree Hnd Hcursor Hvisible Hkey. cbv zeta.
  assert (∀ f, x ∈ visibleItems (treeOf (exec (updateDisplay f x) w)) ∧
               focusedItem (ft (exec (updateDisplay f x) w)) = Some x) as Hupdate.
  { intros f. unfold exec, treeOf. rewrite updateDisplay_run. cbn. rewrite Htree. cbn.
    split; [|exact Hcursor]. apply Shown_visibleItems, Shown_setDisplay; [|exact Hnd].
    apply Shown_visibleItems, Hvisible. }
  assert (x ∈ visibleItems (treeOf w)) as Hsame by (unfold treeOf; rewrite Htree; exact Hvisible).
  destruct Hkey as [->|[->| ->]]; unfold exec.
  - rewrite (handleKeydown_expand_collapse_run false), Hcursor.
    destruct (folder x); [destruct (Hupdate (λ _, negb false)); split; assumption|].
    split; assumption.
  - rewrite (handleKeydown_expand_collapse_run true), Hcursor.
    destruct (folder x); [destruct (Hupdate (λ _, negb true)); split; assumption|].
    split; assumption.
  - rewrite handleKeydown_Enter_run, Hcursor. unfold click.
    destruct (folder x); [destruct (Hupdate negb); split; assumption|].
    unfold gets, when, emit, skip, mbind, M_bind, mret, M_ret. cbn.
    destruct (onFileClickCallback (ft w)); split; assumption.
Qed.

(** *** What expanding and collapsing show *)

(** The chain of an item ends with the chain it was given. *)
Lemma itemsOf_above (w : Wrapper) (above : list bool) (y : FileItem) (chain : list bool) :
  In (y, chain) (itemsOf above w) → ∀ b, In b above → In b chain.
Proof.
  revert above. induction w as [it|it d ws IH] using Wrapper_nested_ind; intros above Hy b Hb.
  - destruct Hy as [[= <- <-]|[]]. exact Hb.
  - cbn [itemsOf] in Hy. destruct Hy as [[= <- <-]|Hy]; [exact Hb|].
    apply in_flat_map in Hy as (v & Hv & Hy). rewrite Forall_forall in IH.
    apply (IH v Hv (d :: above) Hy). right. exact Hb.
Qed.

(** Where the wrapper of [x] sits in the document after its container
    was given the display [f d]: [x] has some chain, its children have
    that chain with [f d] in front, and everything below has [f d] in
    its chain. *)
Lemma itemsOf_container
    (f : bool → bool) (x : FileItem) (d : bool) (ws : list Wrapper)
    (w : Wrapper) (above : list bool) :
  In (mkWrapper x (Some (d, ws))) (wrappersOf w) →
  ∃ chainx,
    In (x, chainx) (itemsOf above (setDisplay f (element x) w)) ∧
    (∀ c kids, In (mkWrapper c kids) ws →
       In (c, f d :: chainx) (itemsOf above (setDisplay f (element x) w))) ∧
    (∀ y, In y (flat_map everyItemOf ws) →
       ∃ chain, In (y, chain) (itemsOf above (setDisplay f (element x) w)) ∧ In (f d) chain).
Proof.
  revert above. induction w as [it|it d0 ws0 IH] using Wrapper_nested_ind; intros above Hw.
  - destruct Hw as [Hw|[]]. discriminate Hw.
  - cbn [wrappersOf] in Hw. destruct Hw as [[= -> -> ->]|Hw].
    + cbn [setDisplay itemsOf]. rewrite Nat.eqb_refl. exists above.
      split; [left; reflexivity|]. split.
      * intros c kids Hc. right. apply in_flat_map.
        exists (setDisplay f (element x) (mkWrapper c kids)).
        split; [apply in_map, Hc|]. cbn [setDisplay itemsOf]. left. reflexivity.
      * intros y Hy. apply in_flat_map in Hy as (v & Hv & Hy).
        rewrite <- (everyItemOf_setDisplay f (element x)),
          <- (itemsOf_fst _ (f d :: above)) in Hy.
        apply in_map_iff in Hy as ([y' chain] & Heq & Hy). cbn in Heq. subst y'.
        exists chain. split.
        -- right. apply in_flat_map. exists (setDisplay f (element x) v).
           split; [apply in_map, Hv|exact Hy].
        -- apply (itemsOf_above _ _ _ _ Hy). left. reflexivity.
    + apply in_flat_map in Hw as (v & Hv & Hw). rewrite Forall_forall in IH.
      cbn [setDisplay itemsOf].
      set (d1 := if element it =? element x then f d0 else d0).
      destruct (IH v Hv (d1 :: above) Hw) as (chainx & Hx & Hchildren & Hbelow).
      assert (∀ p, In p (itemsOf (d1 :: above) (setDisplay f (element x) v)) →
                   In p ((it, above) ::
                         flat_map (itemsOf (d1 :: above)) (map (setDisplay f (element x)) ws0)))
        as Hlift.
      { intros p Hp. right. apply in_flat_map. exists (setDisplay f (element x) v).
        split; [apply in_map, Hv|exact Hp]. }
      exists chainx. split; [apply Hlift, Hx|]. split.
      * intros c kids Hc. apply Hlift, (Hchildren c kids Hc).
      * intros y Hy. destruct (Hbelow y Hy) as (chain & Hin & Hd).
        exists chain. split; [apply Hlift, Hin|exact Hd].
Qed.

(** X13.  On a focused directory ArrowRight expands and ArrowLeft
    collapses, and only the last of such keys counts: a second
    ArrowRight or a second ArrowLeft changes nothing, and either key
    undoes the other.  None of them moves the cursor or logs a call.
    In a tree with distinct elements, when the cursor is a visible
    directory with a container: after ArrowRight every child of the
    directory is visible, after ArrowLeft nothing below the directory
    is, and the directory itself stays visible. *)
Theorem expand_and_collapse_keys_overwrite (first second : bool) (w : World) :
  let key (right : bool) := handleKeydown (if right then "ArrowRight" else "ArrowLeft") in
  exec (run [key first; key second]) w = exec (key second) w ∧
  focusedItem (ft (exec (key second) w)) = focusedItem (ft w) ∧
  logOf (run [key first; key second]) w = [] ∧
  ∀ tree x d ws,
    fileTreeElement (ft w) = Some tree →
    NoDup (elementsOf tree) →
    focusedItem (ft w) = Some x →
    folder x = true →
    x ∈ visibleItems tree →
    mkWrapper x (Some (d, ws)) ∈ flat_map wrappersOf tree →
    x ∈ visibleItems (treeOf (exec (key second) w)) ∧
    if second
    then ∀ c kids, mkWrapper c kids ∈ ws → c ∈ visibleItems (treeOf (exec (key second) w))
    else ∀ y, y ∈ flat_map everyItemOf ws → y ∉ visibleItems (treeOf (exec (key second) w)).
Proof.
  cbv zeta. destruct (expand_collapse_keys_absorb first second w) as (Habsorb & Hcursor & Hlog).
  split; [exact Habsorb|]. split; [exact Hcursor|]. split; [exact Hlog|]. clear Habsorb Hcursor Hlog.
  intros tree x d ws Htree Hnd Hx Hfolder Hvisible Hwrapper.
  set (f := λ _ : bool, negb second).
  assert (treeOf (exec (handleKeydown (if second then "ArrowRight" else "ArrowLeft")) w)
            = map (setDisplay f (element x)) tree) as ->.
  { unfold exec, treeOf. rewrite handleKeydown_expand_collapse_run, Hx, Hfolder,
      updateDisplay_run. cbn. rewrite Htree. reflexivity. }
  set (tree' := map (setDisplay f (element x)) tree).
  assert (NoDup (elementsOf tree')) as Hnd'
    by (unfold tree'; rewrite elementsOf_setDisplay; exact Hnd).
  assert (x ∈ visibleItems tree') as Hvisible'.
  { apply Shown_visibleItems, Shown_setDisplay; [|exact Hnd].
    apply Shown_visibleItems, Hvisible. }
  assert (∃ chainx,
            (x, chainx) ∈ allItems tree' ∧
            (∀ c kids, mkWrapper c kids ∈ ws → (c, f d :: chainx) ∈ allItems tree') ∧
            (∀ y, y ∈ flat_map everyItemOf ws →
               ∃ chain, (y, chain) ∈ allItems tree' ∧ In (f d) chain))
    as (chainx & Hchainx & Hchildren & Hbelow).
  { apply list_elem_of_In, in_flat_map in Hwrapper as (v & Hv & Hwrapper).
    destruct (itemsOf_container f x d ws v [] Hwrapper) as (chainx & Hitem & Hkids & Hrest).
    assert (∀ p, In p (itemsOf [] (setDisplay f (element x) v)) → p ∈ allItems tree')
      as Hlift.
    { intros p Hp. apply list_elem_of_In, in_flat_map.
      exists (setDisplay f (element x) v). split; [apply in_map, Hv|exact Hp]. }
    exists chainx. split; [apply Hlift, Hitem|]. split.
    - intros c kids Hc. apply Hlift, (Hkids c kids). apply list_elem_of_In, Hc.
    - intros y Hy. apply list_elem_of_In in Hy. destruct (Hrest y Hy) as (chain & Hin & Hd).
      exists chain. split; [apply Hlift, Hin|exact Hd]. }
  split; [exact Hvisible'|].
  pose proof (visible_item_has_no_hidden_ancestor tree' x x chainx Hnd' Hvisible' Hchainx
                eq_refl) as Hopen.
  destruct second.
  - intros c kids Hc. unfold visibleItems.
    apply list_elem_of_In, in_map_iff. exists (c, f d :: chainx).
    split; [reflexivity|]. apply list_elem_of_In, list_elem_of_filter.
    split; [|apply (Hchildren c kids Hc)]. cbn. exact Hopen.
  - intros y Hy Hshown. destruct (Hbelow y Hy) as (chain & Hin & Hd).
    pose proof (visible_item_has_no_hidden_ancestor tree' y y chain Hnd' Hshown Hin eq_refl)
      as Hall.
    rewrite forallb_forall in Hall. specialize (Hall _ Hd). discriminate Hall.
Qed.

End MoreFileTree.

(** ** Tasks panel *)

Section MoreTaskStore.

Import TasksPanelJs.

(** *** The filter *)

Lemma filter_withStatus (s : string) (wanted : option string) (l : list Task.t) :
  filter (λ t, Some (Task.status t) = wanted) (map (Task.withStatus s) l) =
    if decide (Some s = wanted) then map (Task.withStatus s) l else [].
Proof.
  induction l as [|t l IH]; [destruct (decide _); reflexivity|].
  cbn [map]. destruct (decide (Some s = wanted)) as [Heq|Hneq].
  - rewrite filter_cons_True by exact Heq. rewrite IH. reflexivity.
  - rewrite filter_cons_False by exact Hneq. exact IH.
Qed.

(** X18.  The filter of the panel selects by list, not by what a task
    says about itself: with a tasks file loaded, the view under
    [pending], [inProgress] or [completed] is exactly that list of the
    file, under [all] the three lists in this order, and under any other
    filter it is empty.  The [status] stored with a task is overwritten
    by the status of its list. *)
Theorem filter_selects_by_list (v : TasksVars) (data : TasksFile) (lists : TaskLists) :
  tasksData v = Some data →
  tasks data = Some lists →
  filteredTasks v = listOf (currentFilter v) lists.
Proof.
  intros Hdata Hlists. unfold filteredTasks, listOf. rewrite Hdata, Hlists.
  destruct (String.eqb (currentFilter v) "all"); [reflexivity|].
  rewrite !list.filter_app, !filter_withStatus. unfold statusMap.
  destruct (String.eqb (currentFilter v) "pending");
    [|destruct (String.eqb (currentFilter v) "inProgress");
      [|destruct (String.eqb (currentFilter v) "completed")]];
    repeat match goal with
    | |- context [decide (?a = ?b)] =>
        destruct (decide (a = b)) as [?Heq|?Hneq]; try discriminate; try congruence
    end;
    rewrite ?app_nil_r; reflexivity.
Qed.

(** *** User actions only send requests *)

Lemma readOnly_bind {A B} (m : M A) (f : A → M B) :
  readOnly m → (∀ x, readOnly (f x)) → readOnly (m ≫= f).
Proof. intros Hm Hf w. rewrite exec_bind, Hf, Hm. reflexivity. Qed.

Lemma readOnly_emit (e : Event) : readOnly (emit e).
Proof. intros w. reflexivity. Qed.

Lemma readOnly_gets {A} (f : World → A) : readOnly (gets f).
Proof. intros w. reflexivity. Qed.

Lemma readOnly_skip : readOnly skip.
Proof. intros w. reflexivity. Qed.

Lemma readOnly_when (c : bool) (m : M unit) : readOnly m → readOnly (when c m).
Proof. intros Hm. destruct c; [exact Hm|apply readOnly_skip]. Qed.

Lemma readOnly_sendTaskToClaude (task : Task.t) : readOnly (sendTaskToClaude task).
Proof.
  unfold sendTaskToClaude. apply readOnly_bind; [apply readOnly_gets|].
  intros []; apply readOnly_emit.
Qed.

Lemma readOnly_requestStatus (projectPath : JS.Value) (taskId action newStatus message : string) :
  readOnly (requestStatus projectPath taskId action newStatus message).
Proof.
  unfold requestStatus, showToast. apply readOnly_when, readOnly_bind; [apply readOnly_emit|].
  intros _. apply readOnly_emit.
Qed.

Lemma readOnly_deleteTask (taskId : string) (answer : bool) : readOnly (deleteTask taskId answer).
Proof.
  unfold deleteTask, EditorJs.confirm, StateJs.getProjectPath.
  apply readOnly_bind; [apply readOnly_gets|]. intros projectPath.
  destruct (negb (JS.truthy projectPath)); [apply readOnly_skip|].
  apply readOnly_bind.
  { apply readOnly_bind; [apply readOnly_emit|]. intros _ w. reflexivity. }
  intros ok. apply readOnly_when, readOnly_emit.
Qed.

Lemma readOnly_handleTaskAction (taskId action : string) (answer : bool) :
  readOnly (handleTaskAction taskId action answer).
Proof.
  unfold handleTaskAction, getFilteredTasks, StateJs.getProjectPath.
  apply readOnly_bind; [apply readOnly_gets|]. intros projectPath.
  destruct (negb (JS.truthy projectPath)); [apply readOnly_skip|].
  apply readOnly_bind; [apply readOnly_gets|]. intros shown.
  destruct (list_find _ shown) as [[i task]|]; [|apply readOnly_skip].
  destruct (String.eqb action "start").
  { apply readOnly_bind; [apply readOnly_sendTaskToClaude|].
    intros _. apply readOnly_requestStatus. }
  repeat (destruct (String.eqb action _); [apply readOnly_requestStatus|]).
  destruct (String.eqb action "delete"); [apply readOnly_deleteTask|apply readOnly_skip].
Qed.

Lemma readOnly_handleTaskFormSubmit (form : TaskForm) : readOnly (handleTaskFormSubmit form).
Proof.
  unfold handleTaskFormSubmit, hideTaskModal, StateJs.getProjectPath.
  apply readOnly_bind; [apply readOnly_gets|]. intros projectPath.
  destruct (negb (JS.truthy projectPath)); [apply readOnly_skip|]. cbv zeta.
  destruct (negb (JS.truthyStr _)); [apply readOnly_emit|].
  apply readOnly_bind; [|intros _; apply readOnly_emit].
  destruct (String.eqb (mode form) "add"); [apply readOnly_emit|].
  destruct (_ && _); [apply readOnly_emit|apply readOnly_skip].
Qed.

(** X19.  Acting on a task never changes the panel itself: every action
    button, a deletion (confirmed or not), every submit of the task form
    and a reload request leave all module variables as they were.  The
    view changes only when the main process pushes a snapshot. *)
Theorem task_actions_leave_the_view_alone (w : World) :
  (∀ taskId action answer, exec (handleTaskAction taskId action answer) w = w) ∧
  (∀ taskId answer, exec (deleteTask taskId answer) w = w) ∧
  (∀ form, exec (handleTaskFormSubmit form) w = w) ∧
  exec loadTasks w = w.
Proof.
  split; [intros; apply readOnly_handleTaskAction|].
  split; [intros; apply readOnly_deleteTask|].
  split; [intros; apply readOnly_handleTaskFormSubmit|].
  unfold loadTasks, StateJs.getProjectPath.
  apply readOnly_bind; [apply readOnly_gets|]. intros projectPath.
  apply readOnly_when, readOnly_emit.
Qed.

(** *** What an action button does *)

Lemma handleTaskAction_found_run
    (w : World) (taskId action : string) (answer : bool) (i : nat) (task : Task.t) :
  JS.truthy (currentProjectPath (st w)) = true →
  list_find (λ t, Task.id t = taskId) (filteredTasks (tp w)) = Some (i, task) →
  handleTaskAction taskId action answer w =
    (if String.eqb action "start" then
       sendTaskToClaude task ;;
       requestStatus (currentProjectPath (st w)) taskId action "in_progress"
         "Task sent to Claude"
     else if String.eqb action "complete" then
       requestStatus (currentProjectPath (st w)) taskId action "completed" "Task completed"
     else if String.eqb action "pause" then
       requestStatus (currentProjectPath (st w)) taskId action "pending" "Task paused"
     else if String.eqb action "reopen" then
       requestStatus (currentProjectPath (st w)) taskId action "pending" "Task reopened"
     else if String.eqb action "delete" then deleteTask taskId answer
     else skip) w.
Proof.
  intros Hproject Hfind.
  unfold handleTaskAction, getFilteredTasks, StateJs.getProjectPath, gets.
  unfold mbind at 1 2, M_bind at 1 2. cbn beta iota. rewrite Hproject. cbn [negb].
  rewrite Hfind. cbn beta iota.
  match goal with |- _ = ?m => destruct m as [[[] w1] l] end. reflexivity.
Qed.

(** X20.  An action is dropped without a trace when no project is
    selected, when the current view holds no task with the id (a task
    hidden by the filter counts as absent), or when the action is none
    of start, complete, pause, reopen and delete. *)
Theorem action_without_target_is_dropped
    (w : World) (taskId action : string) (answer : bool) :
  JS.truthy (currentProjectPath (st w)) = false ∨
  Forall (λ t, Task.id t ≠ taskId) (filteredTasks (tp w)) ∨
  (targetStatus action = None ∧ action ≠ "delete") →
  handleTaskAction taskId action answer w = (tt, w, []).
Proof.
  intros Hdropped.
  destruct (JS.truthy (currentProjectPath (st w))) eqn:Hproject.
  2: { unfold handleTaskAction, StateJs.getProjectPath, gets, skip, mbind, M_bind, mret, M_ret.
       rewrite Hproject. reflexivity. }
  destruct (list_find (λ t, Task.id t = taskId) (filteredTasks (tp w))) as [[i task]|] eqn:Hfind.
  2: { unfold handleTaskAction, getFilteredTasks, StateJs.getProjectPath, gets, skip,
         mbind, M_bind, mret, M_ret.
       rewrite Hproject. cbn [negb]. rewrite Hfind. reflexivity. }
  destruct Hdropped as [Hnone|[Habsent|[Htarget Hdelete]]]; [discriminate| |].
  - apply list_find_Some in Hfind as (Hi & Hid & _).
    apply list_elem_of_lookup_2 in Hi. rewrite Forall_forall in Habsent.
    apply list_elem_of_In, Habsent in Hi. contradiction.
  - rewrite (handleTaskAction_found_run w taskId action answer i task Hproject Hfind).
    unfold targetStatus in Htarget.
    destruct (String.eqb action "start"); [discriminate Htarget|].
    destruct (String.eqb action "complete"); [discriminate Htarget|].
    destruct (String.eqb action "pause"); [discriminate Htarget|].
    destruct (String.eqb action "reopen"); [discriminate Htarget|].
    destruct (String.eqb_spec action "delete"); [contradiction|reflexivity].
Qed.

(** X21.  The delete button asks before it sends: the confirmation
    dialog is shown, and a [DELETE_TASK] request for the task follows
    only on a yes.  No status update is sent and no toast is shown. *)
Theorem delete_action_asks_first
    (w : World) (taskId : string) (answer : bool) (i : nat) (task : Task.t) :
  JS.truthy (currentProjectPath (st w)) = true →
  list_find (λ t, Task.id t = taskId) (filteredTasks (tp w)) = Some (i, task) →
  handleTaskAction taskId "delete" answer w =
    (tt, w,
     Confirm "Delete this task?" ::
     if answer then [Send (DELETE_TASK (currentProjectPath (st w)) taskId)] else []).
Proof.
  intros Hproject Hfind.
  rewrite (handleTaskAction_found_run w taskId "delete" answer i task Hproject Hfind).
  cbn [String.eqb Ascii.eqb Bool.eqb].
  unfold deleteTask, EditorJs.confirm, StateJs.getProjectPath, emit, gets, when, skip,
    mbind, M_bind, mret, M_ret.
  rewrite Hproject. destruct answer; reflexivity.
Qed.

(** X22.  Without the terminal hook a start is only half done: the
    terminal gets no command and an error is logged, yet the status
    update to [in_progress] is sent all the same and the toast still
    reads that the task was sent. *)
Theorem start_without_terminal_still_marks_in_progress
    (w : World) (taskId : string) (answer : bool) (i : nat) (task : Task.t) :
  JS.truthy (currentProjectPath (st w)) = true →
  terminalSendCommand (window w) = false →
  list_find (λ t, Task.id t = taskId) (filteredTasks (tp w)) = Some (i, task) →
  handleTaskAction taskId "start" answer w =
    (tt, w,
     [ConsoleError "Terminal sendCommand not available";
      Send (UPDATE_TASK (currentProjectPath (st w)) taskId (StatusUpdate "in_progress"));
      Toast "Task sent to Claude" "info"]).
Proof.
  intros Hproject Hsend Hfind.
  rewrite (handleTaskAction_found_run w taskId "start" answer i task Hproject Hfind).
  cbn [String.eqb Ascii.eqb Bool.eqb].
  unfold sendTaskToClaude, requestStatus, showToast, emit, gets, when, mbind, M_bind.
  rewrite Hsend. reflexivity.
Qed.

(** X23.  Every button a task is rendered with, apart from delete, asks
    for a status the task does not have: pending tasks can be started
    or completed, tasks in progress completed or paused, all others
    reopened.  The request goes out whether or not the terminal hook is
    installed. *)
Theorem every_button_asks_for_another_status
    (w : World) (action : string) (answer : bool) (i : nat) (task : Task.t) :
  JS.truthy (currentProjectPath (st w)) = true →
  list_find (λ t, Task.id t = Task.id task) (filteredTasks (tp w)) = Some (i, task) →
  action ∈ actionButtons task →
  action ≠ "delete" →
  ∃ newStatus,
    targetStatus action = Some newStatus ∧
    newStatus ≠ Task.status task ∧
    Send (UPDATE_TASK (currentProjectPath (st w)) (Task.id task) (StatusUpdate newStatus))
      ∈ logOf (handleTaskAction (Task.id task) action answer) w.
Proof.
  intros Hproject Hfind Hbutton Hdelete.
  unfold logOf at 1.
  rewrite (handleTaskAction_found_run w (Task.id task) action answer i task Hproject Hfind).
  unfold actionButtons in Hbutton. apply elem_of_app in Hbutton as [Hbutton|Hbutton].
  2: { apply list_elem_of_singleton in Hbutton. contradiction. }
  destruct (String.eqb_spec (Task.status task) "pending") as [Hstatus|Hpending].
  { rewrite Hstatus. apply elem_of_cons in Hbutton as [->|Hbutton].
    - exists "in_progress". split; [reflexivity|]. split; [discriminate|].
      cbn [String.eqb Ascii.eqb Bool.eqb].
      change (Send (UPDATE_TASK (currentProjectPath (st w)) (Task.id task)
                      (StatusUpdate "in_progress"))
              ∈ logOf (sendTaskToClaude task ;;
                       requestStatus (currentProjectPath (st w)) (Task.id task) "start"
                         "in_progress" "Task sent to Claude") w).
      rewrite logOf_bind, (readOnly_sendTaskToClaude task w). apply elem_of_app. right.
      unfold logOf. rewrite requestStatus_run by reflexivity. left.
    - apply list_elem_of_singleton in Hbutton as ->.
      exists "completed". split; [reflexivity|]. split; [discriminate|].
      cbn [String.eqb Ascii.eqb Bool.eqb]. rewrite requestStatus_run by reflexivity. left. }
  destruct (String.eqb_spec (Task.status task) "in_progress") as [Hstatus|Hprogress].
  { rewrite Hstatus. apply elem_of_cons in Hbutton as [->|Hbutton].
    - exists "completed". split; [reflexivity|]. split; [discriminate|].
      cbn [String.eqb Ascii.eqb Bool.eqb]. rewrite requestStatus_run by reflexivity. left.
    - apply list_elem_of_singleton in Hbutton as ->.
      exists "pending". split; [reflexivity|]. split; [discriminate|].
      cbn [String.eqb Ascii.eqb Bool.eqb]. rewrite requestStatus_run by reflexivity. left. }
  apply list_elem_of_singleton in Hbutton as ->.
  exists "pending". split; [reflexivity|]. split; [congruence|].
  cbn [String.eqb Ascii.eqb Bool.eqb]. rewrite requestStatus_run by reflexivity. left.
Qed.

(** *** The task form *)

Lemma trimEnd_idempotent (s : string) : JS.trimEnd (JS.trimEnd s) = JS.trimEnd s.
Proof.
  induction s as [|c s IH]; [reflexivity|]. cbn [JS.trimEnd].
  destruct (JS.trimEnd s) as [|c' r] eqn:Hs.
  - destruct (JS.isWhiteSpace c) eqn:Hc; [reflexivity|]. cbn. rewrite Hc. reflexivity.
  - cbn [JS.trimEnd] in *. rewrite IH. reflexivity.
Qed.

Lemma trimStart_idempotent (s : string) : JS.trimStart (JS.trimStart s) = JS.trimStart s.
Proof.
  induction s as [|c s IH]; [reflexivity|]. cbn [JS.trimStart].
  destruct (JS.isWhiteSpace c) eqn:Hc; [exact IH|]. cbn. rewrite Hc. reflexivity.
Qed.

Lemma trimStart_trimEnd (s : string) :
  JS.trimStart (JS.trimEnd s) = JS.trimEnd (JS.trimStart s).
Proof.
  induction s as [|c s IH]; [reflexivity|].
  cbn [JS.trimStart]. destruct (JS.isWhiteSpace c) eqn:Hc.
  - rewrite <- IH. cbn [JS.trimEnd]. destruct (JS.trimEnd s) as [|c' r].
    + rewrite Hc. reflexivity.
    + cbn [JS.trimStart]. rewrite Hc. reflexivity.
  - cbn [JS.trimEnd]. destruct (JS.trimEnd s) as [|c' r]; rewrite ?Hc; cbn [JS.trimStart];
      rewrite Hc; reflexivity.
Qed.

Lemma trim_idempotent (s : string) : JS.trim (JS.trim s) = JS.trim s.
Proof.
  unfold JS.trim. rewrite <- (trimStart_trimEnd (JS.trimEnd _)), trimEnd_idempotent.
  rewrite trimStart_trimEnd, trimStart_idempotent. reflexivity.
Qed.

(** X24.  Whatever the form holds, a submit sends only well-formed
    requests: each one is an [ADD_TASK], or an [UPDATE_TASK] for the id
    of the form that carries fields and never a status, for the selected
    project; the title in it is the trimmed input, is not blank, and has
    no white space left to trim. *)
Theorem submit_sends_trimmed_titles_only (form : TaskForm) (w : World) (message : Message) :
  Send message ∈ logOf (handleTaskFormSubmit form) w →
  ∃ data,
    (message = ADD_TASK (currentProjectPath (st w)) data ∨
     message = UPDATE_TASK (currentProjectPath (st w)) (formTaskId form) (FieldsUpdate data)) ∧
    JS.truthy (currentProjectPath (st w)) = true ∧
    td_title data = JS.trim (titleInput form) ∧
    blank (td_title data) = false ∧
    JS.trim (td_title data) = td_title data.
Proof.
  unfold logOf, handleTaskFormSubmit, hideTaskModal, StateJs.getProjectPath, emit, gets, skip,
    mbind, M_bind, mret, M_ret.
  cbn beta iota. destruct (JS.truthy (currentProjectPath (st w))) eqn:Hproject; cbn [negb].
  2: { intros Hin. inversion Hin. }
  cbn [td_title]. rewrite truthyStr_trim.
  destruct (blank (titleInput form)) eqn:Hblank; cbn [negb].
  { intros Hin. apply list_elem_of_singleton in Hin. discriminate Hin. }
  assert (blank (JS.trim (titleInput form)) = false) as Htrimmed.
  { destruct (blank (JS.trim (titleInput form))) eqn:Hb; [|reflexivity].
    apply trim_blank in Hb. rewrite trim_idempotent in Hb. apply trim_blank in Hb.
    congruence. }
  intros Hin.
  exists (mkTaskData (JS.trim (titleInput form)) (JS.trim (descriptionInput form))
            (priorityInput form) (categoryInput form)).
  split; [|split; [reflexivity|split; [reflexivity|split; [exact Htrimmed|apply trim_idempotent]]]].
  destruct (String.eqb (mode form) "add"); cbn in Hin.
  - apply elem_of_cons in Hin as [[= ->]|Hin]; [left; reflexivity|].
    apply list_elem_of_singleton in Hin. discriminate Hin.
  - destruct (String.eqb (mode form) "edit" && JS.truthyStr (formTaskId form)); cbn in Hin.
    + apply elem_of_cons in Hin as [[= ->]|Hin]; [right; reflexivity|].
      apply list_elem_of_singleton in Hin. discriminate Hin.
    + apply list_elem_of_singleton in Hin. discriminate Hin.
Qed.

End MoreTaskStore.

(** ** Prompt logger *)

Section PromptLogger.

Import PromptLoggerJs.

Variable now : nat → string.

(** *** The loop goes unit by unit *)

Lemma logChar_pair (h l : N) (v : Vars) :
  isHighSurrogate h = true → isLowSurrogate l = true →
  logChar now v [h; l] = logChar now (logChar now v [h]) [l] ∧
  logChar now v [h; l] = mkVars (inputBuffer v ++ [h; l]) (appended v).
Proof.
  unfold isHighSurrogate, isLowSurrogate. intros Hh Hl.
  apply andb_prop in Hh as [Hh1 Hh2]. apply andb_prop in Hl as [Hl1 Hl2].
  apply N.leb_le in Hh1, Hh2, Hl1, Hl2.
  unfold logChar, isChar, firstCodeAtLeast32.
  assert (∀ c, (c < 55296)%N → (h =? c)%N = false ∧ (l =? c)%N = false) as Hother.
  { intros c Hc. split; apply N.eqb_neq; lia. }
  destruct (Hother 13%N ltac:(lia)) as [-> ->]. destruct (Hother 10%N ltac:(lia)) as [-> ->].
  destruct (Hother 127%N ltac:(lia)) as [-> ->]. destruct (Hother 8%N ltac:(lia)) as [-> ->].
  assert ((32 <=? h)%N = true) as -> by (apply N.leb_le; lia).
  assert ((32 <=? l)%N = true) as -> by (apply N.leb_le; lia).
  cbn. rewrite <- app_assoc. split; reflexivity.
Qed.

Lemma logInput_units_upto (n : nat) (data : list N) (v : Vars) :
  length data ≤ n →
  logInput now data v = fold_left (λ v u, logChar now v [u]) data v.
Proof.
  unfold logInput. revert data v. induction n as [|n IH]; intros data v Hn.
  - destruct data; [reflexivity|cbn in Hn; lia].
  - destruct data as [|u [|u' rest]]; [reflexivity|reflexivity|].
    cbn [chars]. cbn [length] in Hn.
    destruct (isHighSurrogate u && isLowSurrogate u') eqn:Hpair.
    + apply andb_prop in Hpair as [Hu Hu']. cbn [fold_left].
      rewrite (proj1 (logChar_pair u u' v Hu Hu')). apply IH. lia.
    + cbn [fold_left]. apply (IH (u' :: rest)). cbn [length]. lia.
Qed.

(** The loop over code points does what a loop over code units would
    do. *)
Lemma logInput_units (data : list N) (v : Vars) :
  logInput now data v = fold_left (λ v u, logChar now v [u]) data v.
Proof. apply (logInput_units_upto (length data)). lia. Qed.

Lemma logInput_append (a b : list N) (v : Vars) :
  logInput now (a ++ b) v = logInput now b (logInput now a v).
Proof. rewrite !logInput_units, fold_left_app. reflexivity. Qed.

Lemma logChar_printable (u : N) (v : Vars) :
  isPrintable u = true →
  logChar now v [u] = mkVars (inputBuffer v ++ [u]) (appended v).
Proof.
  unfold isPrintable. intros Hu. apply andb_prop in Hu as [Hu Hdel].
  apply N.leb_le in Hu. unfold logChar, isChar, firstCodeAtLeast32.
  assert ((u =? 13)%N = false) as -> by (apply N.eqb_neq; lia).
  assert ((u =? 10)%N = false) as -> by (apply N.eqb_neq; lia).
  assert ((u =? 8)%N = false) as -> by (apply N.eqb_neq; lia).
  destruct (u =? 127)%N; [discriminate Hdel|].
  assert ((32 <=? u)%N = true) as -> by (apply N.leb_le; lia).
  reflexivity.
Qed.

Lemma logInput_printable (line : list N) (v : Vars) :
  printable line = true →
  logInput now line v = mkVars (inputBuffer v ++ line) (appended v).
Proof.
  rewrite logInput_units. unfold printable. revert v.
  induction line as [|u line IH]; intros v Hline.
  - cbn. rewrite app_nil_r. destruct v. reflexivity.
  - cbn [forallb] in Hline. apply andb_prop in Hline as [Hu Hline]. cbn [fold_left].
    rewrite (logChar_printable u v Hu), (IH _ Hline). cbn [inputBuffer appended].
    rewrite <- app_assoc. reflexivity.
Qed.

(** *** Blank buffers *)

Lemma trimStart_blankText (s : list N) : trimStart s = [] ↔ blankText s = true.
Proof.
  unfold blankText. induction s as [|u s IH]; cbn; [tauto|].
  destruct (isWhiteSpace u); cbn; [exact IH|]. split; discriminate.
Qed.

Lemma trimEnd_blankText (s : list N) : trimEnd s = [] ↔ blankText s = true.
Proof.
  unfold blankText. induction s as [|u s IH]; cbn; [tauto|].
  destruct (trimEnd s) eqn:Hs.
  - destruct (isWhiteSpace u); cbn.
    + split; [intros _; apply IH; reflexivity|reflexivity].
    + split; discriminate.
  - split; [discriminate|]. intros Hall. apply andb_prop in Hall as [_ Hall].
    apply IH in Hall. discriminate Hall.
Qed.

Lemma blankText_trimStart (s : list N) : blankText (trimStart s) = blankText s.
Proof.
  unfold blankText. induction s as [|u s IH]; cbn; [reflexivity|].
  destruct (isWhiteSpace u) eqn:Hu; cbn; [exact IH|]. rewrite Hu. reflexivity.
Qed.

Lemma trim_length_blankText (s : list N) :
  (0 <? length (trim s)) = negb (blankText s).
Proof.
  unfold trim. destruct (blankText s) eqn:Hb.
  - rewrite <- blankText_trimStart in Hb. apply trimEnd_blankText in Hb. rewrite Hb.
    reflexivity.
  - destruct (trimEnd (trimStart s)) eqn:Htrim; [|reflexivity].
    apply trimEnd_blankText in Htrim. rewrite blankText_trimStart in Htrim. congruence.
Qed.

(** X25.  The logger does not depend on how the terminal cuts its
    input: feeding chunks one after the other is feeding their
    concatenation, also when a cut falls between the two halves of a
    surrogate pair. *)
Theorem logInput_chunks_compose (chunks : list (list N)) (v : Vars) :
  logInput now (concat chunks) v
    = fold_left (λ v chunk, logInput now chunk v) chunks v.
Proof.
  revert v. induction chunks as [|chunk chunks IH]; intros v; [reflexivity|].
  cbn [concat fold_left]. rewrite logInput_append. apply IH.
Qed.

(** X26.  A line of printable characters ended by CR LF is written once:
    what was in the buffer followed by the line becomes one entry,
    stamped with the time of writing, unless it is blank, in which case
    nothing is written.  The LF writes nothing, and the buffer is empty
    afterwards. *)
Theorem typed_line_is_logged_once (line : list N) (v : Vars) :
  printable line = true →
  let text := inputBuffer v ++ line in
  logInput now (line ++ [13%N; 10%N]) v =
    mkVars []
      (if blankText text then appended v
       else appended v ++ [logEntry (now (length (appended v))) text]).
Proof.
  intros Hline. cbv zeta. rewrite logInput_append, (logInput_printable line v Hline).
  unfold logInput. cbn [chars isHighSurrogate isLowSurrogate andb N.leb N.compare
    Pos.compare Pos.compare_cont fold_left].
  unfold logChar at 2. cbn [isChar N.eqb Pos.eqb orb inputBuffer appended].
  rewrite trim_length_blankText.
  unfold logChar. cbn [isChar N.eqb Pos.eqb orb inputBuffer appended trim trimStart trimEnd
    length Nat.ltb Nat.leb].
  destruct (blankText (inputBuffer v ++ line)); reflexivity.
Qed.

(** X27.  A backspace (DEL or BS) takes back one code unit, not one
    character.  After a character of one unit the logger is as it was.
    After a character outside the Basic Multilingual Plane, which is a
    surrogate pair, one backspace leaves the high surrogate in the
    buffer and it takes a second one to remove it.  On an empty buffer a
    backspace does nothing. *)
Theorem backspace_takes_back_one_code_unit (u h l : N) (back : bool) (v : Vars) :
  isPrintable u = true →
  isHighSurrogate h = true →
  isLowSurrogate l = true →
  let backspace := (if back then 127 else 8)%N in
  logInput now [u; backspace] v = v ∧
  logInput now [h; l; backspace] v = mkVars (inputBuffer v ++ [h]) (appended v) ∧
  logInput now [h; l; backspace; backspace] v = v ∧
  logInput now [backspace] (mkVars [] (appended v)) = mkVars [] (appended v).
Proof.
  intros Hu Hh Hl. cbv zeta.
  assert (∀ v', logChar now v' [(if back then 127 else 8)%N]
                = mkVars (removelast (inputBuffer v')) (appended v')) as Hback
    by (intros v'; destruct back; reflexivity).
  rewrite !logInput_units. cbn [fold_left].
  rewrite <- (proj1 (logChar_pair h l v Hh Hl)), (proj2 (logChar_pair h l v Hh Hl)).
  rewrite (logChar_printable u v Hu), !Hback. cbn [inputBuffer appended].
  change [h; l] with ([h] ++ [l]). rewrite app_assoc, !removelast_last.
  destruct v. repeat split; reflexivity.
Qed.

Lemma printable_removelast (s : list N) :
  printable s = true → printable (removelast s) = true.
Proof.
  unfold printable. induction s as [|u s IH]; [reflexivity|].
  cbn [removelast]. destruct s as [|u' s]; [reflexivity|].
  intros Hs. cbn [forallb] in Hs. apply andb_prop in Hs as [Hu Hs].
  cbn [forallb]. rewrite Hu. apply IH, Hs.
Qed.

Lemma entriesFrom_app (n : nat) (l1 l2 : list (list N)) :
  entriesFrom now n (l1 ++ l2) = entriesFrom now n l1 ++ entriesFrom now (n + length l1) l2.
Proof.
  revert n. induction l1 as [|x l1 IH]; intros n; cbn [entriesFrom app length].
  - rewrite Nat.add_0_r. reflexivity.
  - rewrite IH. replace (S n + length l1) with (n + S (length l1)) by lia. reflexivity.
Qed.

Lemma length_entriesFrom (n : nat) (l : list (list N)) :
  length (entriesFrom now n l) = length l.
Proof. revert n. induction l as [|x l IH]; intros n; cbn; [|rewrite IH]; reflexivity. Qed.

(** One code unit keeps the buffer printable and writes at most one
    entry, for a printable line that is not blank. *)
Lemma logChar_entries (u : N) (v : Vars) :
  printable (inputBuffer v) = true →
  printable (inputBuffer (logChar now v [u])) = true ∧
  ∃ lines,
    appended (logChar now v [u]) = appended v ++ entriesFrom now (length (appended v)) lines ∧
    Forall (λ line, printable line = true ∧ blankText line = false) lines.
Proof.
  intros Hbuffer. unfold logChar.
  destruct (isChar [u] 13 || isChar [u] 10).
  { split; [reflexivity|]. rewrite trim_length_blankText. cbn [appended].
    destruct (blankText (inputBuffer v)) eqn:Hblank; cbn [negb].
    - exists []. split; [rewrite app_nil_r; reflexivity|constructor].
    - exists [inputBuffer v]. split; [reflexivity|]. constructor; [split; assumption|constructor]. }
  destruct (isChar [u] 127 || isChar [u] 8).
  { split; [apply printable_removelast, Hbuffer|]. exists []. cbn.
    split; [rewrite app_nil_r; reflexivity|constructor]. }
  cbn [firstCodeAtLeast32 isChar]. fold (isPrintable u). destruct (isPrintable u) eqn:Hu.
  - cbn [inputBuffer appended]. split.
    + unfold printable in *. rewrite forallb_app, Hbuffer. cbn. rewrite Hu. reflexivity.
    + exists []. cbn. split; [rewrite app_nil_r; reflexivity|constructor].
  - split; [exact Hbuffer|]. exists []. cbn. split; [rewrite app_nil_r; reflexivity|constructor].
Qed.

(** X28.  Whatever arrives, the file only grows, and only by entries for
    printable lines that are not blank: starting from a printable
    buffer, the entries after [logInput] are the ones before followed by
    one entry per such line, each stamped when written.  Control
    characters never reach the file, and blank lines are not
    recorded. *)
Theorem history_holds_printable_lines_only (data : list N) (v : Vars) :
  printable (inputBuffer v) = true →
  printable (inputBuffer (logInput now data v)) = true ∧
  ∃ lines,
    appended (logInput now data v)
      = appended v ++ entriesFrom now (length (appended v)) lines ∧
    Forall (λ line, printable line = true ∧ blankText line = false) lines.
Proof.
  rewrite logInput_units. revert v.
  induction data as [|u data IH]; intros v Hbuffer.
  - split; [exact Hbuffer|]. exists []. cbn. split; [rewrite app_nil_r; reflexivity|constructor].
  - cbn [fold_left]. destruct (logChar_entries u v Hbuffer) as (Hbuffer1 & lines1 & Hfile1 & Hlines1).
    destruct (IH _ Hbuffer1) as (Hbuffer2 & lines2 & Hfile2 & Hlines2).
    split; [exact Hbuffer2|]. exists (lines1 ++ lines2). split; [|apply Forall_app; split; assumption].
    rewrite Hfile2, Hfile1, entriesFrom_app, length_app, length_entriesFrom, app_assoc.
    reflexivity.
Qed.

End PromptLogger.

(** ** GitHub issues *)

Section Github.

Import GithubPanelJs GithubManagerJs.

(** X29.  For a date that is not in the future, [formatRelativeTime]
    names the largest unit that fits, and the number it shows stays
    within that unit.  The cases are disjoint and cover every
    difference: below two minutes, 2 to 59 minutes below an hour, one
    hour, 2 to 23 hours below a day, one day, 2 to 6 days below a week,
    1 to 4 weeks below 30 days, 1 to 12 months below 365 days, and years
    from 365 days on. *)
Theorem formatRelativeTime_counts_fit_their_unit (diffMs : Z) :
  (0 ≤ diffMs)%Z →
  let minute := 60000%Z in
  let hour := 3600000%Z in
  let day := 86400000%Z in
  let shown := formatRelativeTime diffMs in
  (shown = "just now" ∧ (diffMs < 2 * minute)%Z) ∨
  (∃ n, shown = pretty.pretty n +:+ " minutes ago" ∧ n = (diffMs / minute)%Z ∧
        (2 * minute ≤ diffMs < hour)%Z ∧ (2 ≤ n ≤ 59)%Z) ∨
  (shown = "1 hour ago" ∧ (hour ≤ diffMs < 2 * hour)%Z) ∨
  (∃ n, shown = pretty.pretty n +:+ " hours ago" ∧ n = (diffMs / hour)%Z ∧
        (2 * hour ≤ diffMs < day)%Z ∧ (2 ≤ n ≤ 23)%Z) ∨
  (shown = "yesterday" ∧ (day ≤ diffMs < 2 * day)%Z) ∨
  (∃ n, shown = pretty.pretty n +:+ " days ago" ∧ n = (diffMs / day)%Z ∧
        (2 * day ≤ diffMs < 7 * day)%Z ∧ (2 ≤ n ≤ 6)%Z) ∨
  (∃ n, shown = pretty.pretty n +:+ " weeks ago" ∧ n = (diffMs / day / 7)%Z ∧
        (7 * day ≤ diffMs < 30 * day)%Z ∧ (1 ≤ n ≤ 4)%Z) ∨
  (∃ n, shown = pretty.pretty n +:+ " months ago" ∧ n = (diffMs / day / 30)%Z ∧
        (30 * day ≤ diffMs < 365 * day)%Z ∧ (1 ≤ n ≤ 12)%Z) ∨
  (∃ n, shown = pretty.pretty n +:+ " years ago" ∧ n = (diffMs / day / 365)%Z ∧
        (365 * day ≤ diffMs)%Z ∧ (1 ≤ n)%Z).
Proof.
  intros Hpast. cbv zeta. unfold formatRelativeTime.
  change (1000 * 60 * 60 * 24)%Z with 86400000%Z. change (1000 * 60 * 60)%Z with 3600000%Z.
  change (1000 * 60)%Z with 60000%Z.
  destruct (Z.eqb_spec (diffMs / 86400000) 0) as [Hday|Hday].
  - destruct (Z.eqb_spec (diffMs / 3600000) 0) as [Hhour|Hhour].
    + destruct (Z.leb_spec (diffMs / 60000) 1) as [Hminute|Hminute].
      * left. split; [reflexivity|]. Z.div_mod_to_equations. lia.
      * right. left. eexists. split; [reflexivity|]. split; [reflexivity|].
        Z.div_mod_to_equations. lia.
    + destruct (Z.eqb_spec (diffMs / 3600000) 1) as [Hone|Hone].
      * do 2 right. left. split; [reflexivity|]. Z.div_mod_to_equations. lia.
      * do 3 right. left. eexists. split; [reflexivity|]. split; [reflexivity|].
        Z.div_mod_to_equations. lia.
  - destruct (Z.eqb_spec (diffMs / 86400000) 1) as [Hone|Hone].
    { do 4 right. left. split; [reflexivity|]. Z.div_mod_to_equations. lia. }
    destruct (Z.ltb_spec (diffMs / 86400000) 7) as [Hweek|Hweek].
    { do 5 right. left. eexists. split; [reflexivity|]. split; [reflexivity|].
      Z.div_mod_to_equations. lia. }
    destruct (Z.ltb_spec (diffMs / 86400000) 30) as [Hmonth|Hmonth].
    { do 6 right. left. eexists. split; [reflexivity|]. split; [reflexivity|].
      Z.div_mod_to_equations. lia. }
    destruct (Z.ltb_spec (diffMs / 86400000) 365) as [Hyear|Hyear].
    { do 7 right. left. eexists. split; [reflexivity|]. split; [reflexivity|].
      Z.div_mod_to_equations. lia. }
    do 8 right. eexists. split; [reflexivity|]. split; [reflexivity|].
    Z.div_mod_to_equations. lia.
Qed.

Variable Json : Type.
Variable emptyArray : Json.
Variable parse : string → option Json.
Variable nameWithOwner : Json → option Json.
Variable childProcess : string → JS.Value → ExecResult.

(** X30.  An answer to [LOAD_GITHUB_ISSUES] never holds both an error
    and issues.  With an error the issue list is the empty array.
    Without one, a project path was given or remembered, the three
    commands ran in order in that directory (version check, repository
    check, issue list for the requested state, [open] by default), all
    three succeeded, and the issues are the parsed output of the last.
    In every case the commands run are the first ones of these three,
    and none is run when there is no path. *)
Theorem issues_answer_has_error_or_issues
    (currentProjectPath projectPath : JS.Value) (state : option string) :
  let answer :=
    on_LOAD_GITHUB_ISSUES Json emptyArray parse nameWithOwner childProcess
      currentProjectPath projectPath state in
  let commands :=
    ["gh --version"; "gh repo view --json nameWithOwner";
     issueListCommand (default "open" state)] in
  let path := if JS.truthy projectPath then projectPath else currentProjectPath in
  match error answer.1 with
  | Some _ => issues answer.1 = emptyArray
  | None =>
      JS.truthy path = true ∧
      answer.2 = commands ∧
      (∃ version, childProcess "gh --version" None = ExecOk version) ∧
      (∃ repo data,
         childProcess "gh repo view --json nameWithOwner" path = ExecOk repo ∧
         parse repo = Some data ∧
         repoName answer.1 = nameWithOwner data ∧
         is_Some (nameWithOwner data)) ∧
      (∃ listed,
         childProcess (issueListCommand (default "open" state)) path = ExecOk listed ∧
         parse listed = Some (issues answer.1))
  end ∧
  answer.2 `prefix_of` commands ∧
  (JS.truthy path = false → answer.2 = []).
Proof.
  cbv zeta. unfold on_LOAD_GITHUB_ISSUES.
  destruct (if JS.truthy projectPath then projectPath else currentProjectPath) as [p|] eqn:Hpath.
  2: { cbn. split; [reflexivity|]. split; [apply prefix_nil|reflexivity]. }
  destruct (JS.truthy (Some p)) eqn:Htruthy.
  2: { cbn. split; [reflexivity|]. split; [apply prefix_nil|reflexivity]. }
  unfold loadIssues, checkGhCli, checkGitHubRepo.
  destruct (childProcess "gh --version" None) as [message stderr|version] eqn:Hversion; cbn.
  { split; [reflexivity|]. split; [|discriminate]. eexists [_; _]. reflexivity. }
  destruct (childProcess "gh repo view --json nameWithOwner" (Some p)) as [message stderr|repo]
    eqn:Hrepo; cbn.
  { split; [reflexivity|]. split; [|discriminate]. eexists [_]. reflexivity. }
  destruct (parse repo) as [data|] eqn:Hdata; cbn.
  2: { split; [reflexivity|]. split; [|discriminate]. eexists [_]. reflexivity. }
  destruct (nameWithOwner data) as [name|] eqn:Hname; cbn.
  2: { split; [reflexivity|]. split; [|discriminate]. eexists [_]. reflexivity. }
  destruct (childProcess (issueListCommand (default "open" state)) (Some p))
    as [message stderr|listed] eqn:Hlisted; cbn.
  { split; [reflexivity|]. split; [|discriminate]. exists []. reflexivity. }
  destruct (parse listed) as [parsed|] eqn:Hparsed; cbn.
  2: { split; [reflexivity|]. split; [|discriminate]. exists []. reflexivity. }
  split; [|split; [exists []; reflexivity|discriminate]].
  split; [reflexivity|]. split; [reflexivity|]. split; [eauto|].
  split; [exists repo, data; rewrite Hname; eauto|]. exists listed. auto.
Qed.

End Github.

(** ** Instances of the further properties *)

Section MoreWitnesses.

Import StateJs FileTreeJs EditorJs TasksPanelJs PromptLoggerJs GithubPanelJs.

(** X7 at scenario 4, the close confirmed: the session is gone, the
    text stays. *)
Lemma confirmed_close_at_dirty :
  currentEditingFile (ed (exec (closeEditor true) dirty)) = None ∧
  isModified (ed (exec (closeEditor true) dirty)) = false ∧
  textarea (ed (exec (closeEditor true) dirty)) = "let x = 1".
Proof.
  destruct (close_clears_the_session dirty true (λ _, eq_refl))
    as (Hfile & _ & Hflag & _ & _ & Htext & _).
  split; [exact Hfile|]. split; [exact Hflag|exact Htext].
Defined.

(** X9 with the caret between the letters of ["ab"]. *)
Lemma tab_at_caretInside :
  textarea (ed (exec (on_keydown false "Tab" false) caretInside)) = "a  b" ∧
  selectionStart (ed (exec (on_keydown false "Tab" false) caretInside)) = 3.
Proof.
  assert (selectionStart (ed caretInside) ≤ selectionEnd (ed caretInside)) as Horder
    by (vm_compute; lia).
  assert (selectionEnd (ed caretInside) ≤ String.length (textarea (ed caretInside))) as Hinside
    by (vm_compute; lia).
  destruct (tab_replaces_selection_by_two_spaces false false caretInside Horder Hinside)
    as (Htext & _ & Hcaret & _).
  split; [exact Htext|exact Hcaret].
Defined.

(** X10 for the sample listing: [src] and [README.md] are shown. *)
Lemma sample_tree_shows_top_level :
  map dataPath (visibleItems (treeOf (exec (on_FILE_TREE_DATA sampleFiles) initialWorld)))
    = ["/p/src"; "/p/README.md"].
Proof.
  destruct (arrived_tree_shows_top_level_only sampleFiles initialWorld (ex_intro _ [] eq_refl))
    as (Hpaths & _).
  exact Hpaths.
Defined.

(** X11 for the sample listing: five items, numbered from 0. *)
Lemma sample_tree_items :
  elementsOf (treeOf (exec (on_FILE_TREE_DATA sampleFiles) initialWorld)) = [0; 1; 2; 3; 4] ∧
  allocated (ft (exec (on_FILE_TREE_DATA sampleFiles) initialWorld)) = 5.
Proof.
  destruct (arrived_tree_items_are_the_entries sampleFiles initialWorld (ex_intro _ [] eq_refl))
    as (_ & Helements & Hcounter).
  split; [exact Helements|exact Hcounter].
Defined.

(** X15 for a file opened while the tree was empty. *)
Lemma close_at_openedOnEmptyTree :
  logOf (closeEditor false) openedOnEmptyTree = [].
Proof.
  assert (isModified (ed openedOnEmptyTree) = true → false = true) as Hproceed
    by (intros Hmodified; discriminate Hmodified).
  destruct (close_on_empty_tree_focuses_nothing openedOnEmptyTree false eq_refl Hproceed
              eq_refl eq_refl) as (_ & Hlog & _).
  exact Hlog.
Defined.

Lemma initialWorld_allocatedBefore : allocatedBefore initialWorld.
Proof.
  split.
  - intros tree e [= <-] He. inversion He.
  - intros x Hx. discriminate Hx.
Defined.

(** X16 at scenario 1: after a new rendering the focus goes to the new
    [src], element 5. *)
Lemma rerender_at_browsing :
  logOf focus (exec (on_FILE_TREE_DATA sampleFiles) browsing) = [ElementFocus 5] ∧
  focusedItem (ft (exec focus (exec (on_FILE_TREE_DATA sampleFiles) browsing)))
    = Some (mkFileItem 5 true "/p/src").
Proof.
  destruct (rerender_detaches_the_cursor initialWorld toMainJs
              (mkFileEntry "src" "/p/src" true
                 [mkFileEntry "main.js" "/p/src/main.js" false [];
                  mkFileEntry "lib" "/p/src/lib" true
                    [mkFileEntry "util.js" "/p/src/lib/util.js" false []]])
              [mkFileEntry "README.md" "/p/README.md" false []]
              (ex_intro _ [] eq_refl) initialWorld_allocatedBefore)
    as (_ & _ & Hlog & Hcursor).
  split; [exact Hlog|exact Hcursor].
Defined.

(** X13 with the cursor on [src], which is collapsed: ArrowRight shows
    its two children. *)
Lemma expand_src_shows_its_children :
  mkFileItem 1 false "/p/src/main.js"
    ∈ visibleItems (treeOf (exec (handleKeydown "ArrowRight") atSrc)) ∧
  mkFileItem 2 true "/p/src/lib"
    ∈ visibleItems (treeOf (exec (handleKeydown "ArrowRight") atSrc)).
Proof.
  set (lib := mkWrapper (mkFileItem 2 true "/p/src/lib")
                (Some (true, [mkWrapper (mkFileItem 3 false "/p/src/lib/util.js") None]))).
  set (mainJs := mkWrapper (mkFileItem 1 false "/p/src/main.js") None).
  assert (mkFileItem 0 true "/p/src" ∈ visibleItems (treeOf atSrc)) as Hvisible
    by (vm_compute; left).
  assert (mkWrapper (mkFileItem 0 true "/p/src") (Some (true, [mainJs; lib]))
            ∈ flat_map wrappersOf (treeOf atSrc)) as Hwrapper
    by (vm_compute; left).
  destruct (expand_and_collapse_keys_overwrite false true atSrc) as (_ & _ & _ & Hshown).
  destruct (Hshown (treeOf atSrc) (mkFileItem 0 true "/p/src") true [mainJs; lib] eq_refl
              (history_distinct toSrc initialWorld initialWorld_distinct (treeOf atSrc) eq_refl)
              eq_refl eq_refl Hvisible Hwrapper) as [_ Hchildren].
  split.
  - apply (Hchildren _ None). left.
  - apply (Hchildren _ (Some (true, [mkWrapper (mkFileItem 3 false "/p/src/lib/util.js") None]))).
    right. left.
Defined.

(** X17 with the cursor on [src]: expanding it keeps it shown. *)
Lemma expand_at_atSrc :
  focusedItem (ft (exec (handleKeydown "ArrowRight") atSrc)) = Some (mkFileItem 0 true "/p/src") ∧
  mkFileItem 0 true "/p/src" ∈ visibleItems (treeOf (exec (handleKeydown "ArrowRight") atSrc)).
Proof.
  assert (mkFileItem 0 true "/p/src" ∈ visibleItems (treeOf atSrc)) as Hvisible
    by (vm_compute; left).
  exact (toggling_keys_keep_the_cursor_visible atSrc (treeOf atSrc)
           (mkFileItem 0 true "/p/src") "ArrowRight" eq_refl
           (history_distinct toSrc initialWorld initialWorld_distinct (treeOf atSrc) eq_refl)
           eq_refl Hvisible (or_intror (or_introl eq_refl))).
Defined.

(** X18 at scenario 3 under the filter [inProgress]. *)
Lemma inProgress_filter_at_withTasks :
  filteredTasks (tp (exec (setFilter "inProgress") withTasks))
    = [Task.withStatus "in_progress" addTests].
Proof.
  exact (filter_selects_by_list (tp (exec (setFilter "inProgress") withTasks)) sampleTasks
           (mkTaskLists [fixBug] [addTests] []) eq_refl eq_refl).
Defined.

(** X20: a task that the filter hides cannot be started. *)
Lemma start_hidden_task_at_completedOnly :
  handleTaskAction "t1" "start" false completedOnly = (tt, completedOnly, []).
Proof.
  assert (Forall (λ t, Task.id t ≠ "t1") (filteredTasks (tp completedOnly))) as Habsent
    by (vm_compute; constructor).
  exact (action_without_target_is_dropped completedOnly "t1" "start" false
           (or_intror (or_introl Habsent))).
Defined.

(** X21 at scenario 3: deleting [t1], confirmed. *)
Lemma delete_at_withTasks :
  handleTaskAction "t1" "delete" true withTasks =
    (tt, withTasks, [Confirm "Delete this task?"; Send (DELETE_TASK (Some "/p") "t1")]).
Proof. exact (delete_action_asks_first withTasks "t1" true 0 fixBug eq_refl eq_refl). Defined.

(** X22: starting [t1] when no terminal is attached. *)
Lemma start_at_withoutTerminal :
  handleTaskAction "t1" "start" false withoutTerminal =
    (tt, withoutTerminal,
     [ConsoleError "Terminal sendCommand not available";
      Send (UPDATE_TASK (Some "/p") "t1" (StatusUpdate "in_progress"));
      Toast "Task sent to Claude" "info"]).
Proof.
  exact (start_without_terminal_still_marks_in_progress withoutTerminal "t1" false 0 fixBug
           eq_refl eq_refl eq_refl).
Defined.

(** X23 at scenario 3: the complete button of the pending task [t1]. *)
Lemma complete_button_at_withTasks :
  ∃ newStatus,
    targetStatus "complete" = Some newStatus ∧
    newStatus ≠ Task.status fixBug ∧
    Send (UPDATE_TASK (currentProjectPath (st withTasks)) (Task.id fixBug)
            (StatusUpdate newStatus))
      ∈ logOf (handleTaskAction (Task.id fixBug) "complete" false) withTasks.
Proof.
  assert ("complete" ∈ actionButtons fixBug) as Hbutton by (vm_compute; right; left).
  assert ("complete" ≠ "delete") as Hdelete by discriminate.
  exact (every_button_asks_for_another_status withTasks "complete" false 0 fixBug
           eq_refl eq_refl Hbutton Hdelete).
Defined.

(** X24 at scenario 2: the edit form sends the trimmed title. *)
Lemma edit_form_at_projectOpen :
  ∃ data,
    (UPDATE_TASK (Some "/p") "t1" (FieldsUpdate (mkTaskData "Fix the bug" "" "high" "fix"))
       = ADD_TASK (currentProjectPath (st projectOpen)) data ∨
     UPDATE_TASK (Some "/p") "t1" (FieldsUpdate (mkTaskData "Fix the bug" "" "high" "fix"))
       = UPDATE_TASK (currentProjectPath (st projectOpen)) (formTaskId editForm)
           (FieldsUpdate data)) ∧
    JS.truthy (currentProjectPath (st projectOpen)) = true ∧
    td_title data = JS.trim (titleInput editForm) ∧
    blank (td_title data) = false ∧
    JS.trim (td_title data) = td_title data.
Proof.
  assert (Send (UPDATE_TASK (Some "/p") "t1"
                  (FieldsUpdate (mkTaskData "Fix the bug" "" "high" "fix")))
            ∈ logOf (handleTaskFormSubmit editForm) projectOpen) as Hsent
    by (vm_compute; left).
  exact (submit_sends_trimmed_titles_only editForm projectOpen _ Hsent).
Defined.

(** X26: the line [ls -la] typed into an empty buffer. *)
Lemma typed_ls_is_logged :
  logInput frozenClock (units "ls -la" ++ [13%N; 10%N]) (mkVars [] []) =
    mkVars [] [logEntry "2026-01-01T00:00:00.000Z" (units "ls -la")].
Proof. exact (typed_line_is_logged_once frozenClock (units "ls -la") (mkVars [] []) eq_refl). Defined.

(** X27: after [ls], an [a] is taken back by one backspace, and the
    character U+1F600 (the pair D83D DE00) by two. *)
Lemma typed_a_is_taken_back :
  logInput frozenClock [97%N; 127%N] (mkVars (units "ls") []) = mkVars (units "ls") [] ∧
  logInput frozenClock [55357%N; 56832%N; 127%N] (mkVars (units "ls") [])
    = mkVars (units "ls" ++ [55357%N]) [] ∧
  logInput frozenClock [55357%N; 56832%N; 127%N; 127%N] (mkVars (units "ls") [])
    = mkVars (units "ls") [] ∧
  logInput frozenClock [127%N] (mkVars [] []) = mkVars [] [].
Proof.
  exact (backspace_takes_back_one_code_unit frozenClock 97 55357 56832 true
           (mkVars (units "ls") []) eq_refl eq_refl eq_refl).
Defined.

(** X28: an arrow key (ESC [ A) before the line is ended. *)
Lemma escape_sequence_is_not_logged_raw :
  printable
    (inputBuffer
       (logInput frozenClock (27%N :: units "[Als" ++ [13%N]) (mkVars [] []))) = true ∧
  ∃ lines,
    appended (logInput frozenClock (27%N :: units "[Als" ++ [13%N]) (mkVars [] []))
      = appended (mkVars [] []) ++ entriesFrom frozenClock (length (appended (mkVars [] []))) lines ∧
    Forall (λ line, printable line = true ∧ blankText line = false) lines.
Proof.
  exact (history_holds_printable_lines_only frozenClock (27%N :: units "[Als" ++ [13%N])
           (mkVars [] []) eq_refl).
Defined.

(** X29 for a date three days back. *)
Lemma three_days_back :
  let minute := 60000%Z in
  let hour := 3600000%Z in
  let day := 86400000%Z in
  let shown := formatRelativeTime 259200000 in
  (shown = "just now" ∧ (259200000 < 2 * minute)%Z) ∨
  (∃ n, shown = pretty.pretty n +:+ " minutes ago" ∧ n = (259200000 / minute)%Z ∧
        (2 * minute ≤ 259200000 < hour)%Z ∧ (2 ≤ n ≤ 59)%Z) ∨
  (shown = "1 hour ago" ∧ (hour ≤ 259200000 < 2 * hour)%Z) ∨
  (∃ n, shown = pretty.pretty n +:+ " hours ago" ∧ n = (259200000 / hour)%Z ∧
        (2 * hour ≤ 259200000 < day)%Z ∧ (2 ≤ n ≤ 23)%Z) ∨
  (shown = "yesterday" ∧ (day ≤ 259200000 < 2 * day)%Z) ∨
  (∃ n, shown = pretty.pretty n +:+ " days ago" ∧ n = (259200000 / day)%Z ∧
        (2 * day ≤ 259200000 < 7 * day)%Z ∧ (2 ≤ n ≤ 6)%Z) ∨
  (∃ n, shown = pretty.pretty n +:+ " weeks ago" ∧ n = (259200000 / day / 7)%Z ∧
        (7 * day ≤ 259200000 < 30 * day)%Z ∧ (1 ≤ n ≤ 4)%Z) ∨
  (∃ n, shown = pretty.pretty n +:+ " months ago" ∧ n = (259200000 / day / 30)%Z ∧
        (30 * day ≤ 259200000 < 365 * day)%Z ∧ (1 ≤ n ≤ 12)%Z) ∨
  (∃ n, shown = pretty.pretty n +:+ " years ago" ∧ n = (259200000 / day / 365)%Z ∧
        (365 * day ≤ 259200000)%Z ∧ (1 ≤ n)%Z).
Proof.
  assert (0 ≤ 259200000)%Z as Hpast by lia.
  exact (formatRelativeTime_counts_fit_their_unit 259200000 Hpast).
Defined.

End MoreWitnesses.
